(** * Gkicks order and address routes: a shallow embedding

    The repository holds three Next.js route files:
      - the orders route that reads the buyer from the request body
        (src/app/api/orders/route.ts, first half): module [OrdersByBody];
      - the addresses route (src/app/api/orders/route.ts, second half):
        module [Addresses];
      - the orders route that reads the buyer from the bearer token and
        hydrates line items (src/unnamed/part_000): module [Orders].

    A handler is a function from a request and a database state to a
    response and a new state; POST /orders also returns the trace of what
    it did, in order.  Tables are lists of rows, and each SQL statement is
    written out as the list operation it performs; statements do not fail.
    A [try]/[catch] is the [Js.result] monad with [Js.try_catch].

    What the source reaches through imports and through the JavaScript
    engine is gathered in the record [Externals] and passed in: token
    verification, the stock endpoint, the SQL engine's comparison of a
    numeric key with a text parameter and its conversion of a bound value
    to DECIMAL, the driver's rendering of DECIMAL columns, the defaults of
    the columns an INSERT leaves out; and of the engine JSON.parse,
    JSON.stringify, the properties a value inherits, and the coercions of
    a value that is no number to a number and to text.  The facts hold for
    every such environment; where one needs a law of the engine (that it
    reads back what it writes) the law is a hypothesis.

    Request bodies are typed: a field the handlers test for truthiness is
    an [option], and [total], [shipping_address] and [is_default], whose
    truthiness depends on the kind of value sent, are JavaScript values;
    the fields of an item are the numbers and strings the client of the
    route sends. *)

From Stdlib Require Import ZArith List String Ascii Bool Lia Arith.
From Stdlib Require Import Permutation Sorted.
From Stdlib Require Decimal DecimalFacts DecimalPos DecimalN DecimalZ.
Import ListNotations.

Local Open Scope Z_scope.
Local Open Scope list_scope.

(* ================================================================== *)
(** ** JavaScript values that the handlers touch *)

Module Js.

(** [!s] on a string that may be absent: [undefined], [null] and the empty
    string are falsy. *)
Definition truthy_str (s : option string) : bool :=
  match s with
  | None => false
  | Some s => negb (String.eqb s EmptyString)
  end.

(** [a || b] where [a] is a string that may be absent. *)
Definition or_str (a : option string) (b : string) : string :=
  if truthy_str a then match a with Some s => s | None => b end else b.

(** [a || null] where [a] is a string that may be absent. *)
Definition or_null (a : option string) : option string :=
  if truthy_str a then a else None.

(** [!n] on a number that may be absent: [undefined], [null] and [0] are
    falsy. *)
Definition truthy_num (n : option Z) : bool :=
  match n with
  | None => false
  | Some n => negb (n =? 0)
  end.

(** The outcome of a block that may throw. *)
Inductive result (A : Type) : Type :=
| Ok (a : A)
| Throw.
Arguments Ok {A} a.
Arguments Throw {A}.

Definition bind {A B} (r : result A) (k : A -> result B) : result B :=
  match r with
  | Ok a => k a
  | Throw => Throw
  end.

(** [try { body } catch { handler }] *)
Definition try_catch {A} (body : result A) (handler : A) : A :=
  match body with
  | Ok a => a
  | Throw => handler
  end.

End Js.

Notation "x <- c ;; k" := (Js.bind c (fun x => k))
  (at level 61, c at next level, right associativity).

(* ================================================================== *)
(** ** JavaScript values, and a JSON codec

    [json] holds the values the handlers meet: what JSON text spells, and
    beside it a number that is no integer ([JReal]) and a function or
    object that comes with the language and is reached through an
    inherited property ([JBuiltin]).  [JNum z] is the integer [z]:
    JavaScript holds every integer up to 2^53 in absolute value exactly, and
    the handlers are given no other integer as a [JNum].  Any other number
    is a [JReal], which carries the text JavaScript prints for it ("2.5",
    "1e+21", "Infinity", "NaN"); negative zero behaves as [JNum 0] in all
    the handlers do.  Strings are byte strings.  An object is the list of
    its own properties in the order JavaScript enumerates them.

    The handlers call the engine's JSON.parse and JSON.stringify, which
    they are given as parameters ([json_parse] and [json_stringify] of
    [Externals]).  The codec written out here is the one the example shop
    runs: it reads and writes the JSON whose numbers are integers in plain
    digits, keeps the members of an object in the order of the text,
    refuses a number with a fraction or an exponent, and prints a [JReal]
    and a [JBuiltin] as null.  The examples stay within the texts on which
    it agrees with JavaScript: integers below 2^53 and no key that reads as
    an array index. *)

Module JSON.

#[warnings="-register-all"]
Inductive json : Type :=
| JNull
| JBool (b : bool)
| JNum (z : Z)
| JStr (s : string)
| JArr (elems : list json)
| JObj (members : list (string * json))
| JReal (text : string)
| JBuiltin (name : string).

(** *** Characters *)

Definition dquote : ascii := "034"%char.
Definition backslash : ascii := "\"%char.

Definition is_ws (c : ascii) : bool :=
  (c =? " ")%char || (c =? "009")%char || (c =? "010")%char || (c =? "013")%char.

Fixpoint skip_ws (s : list ascii) : list ascii :=
  match s with
  | c :: r => if is_ws c then skip_ws r else s
  | [] => []
  end.

Definition hex_digit (n : nat) : ascii :=
  match n with
  | 0 => "0" | 1 => "1" | 2 => "2" | 3 => "3" | 4 => "4" | 5 => "5"
  | 6 => "6" | 7 => "7" | 8 => "8" | 9 => "9" | 10 => "a" | 11 => "b"
  | 12 => "c" | 13 => "d" | 14 => "e" | _ => "f"
  end%nat%char.

Definition hex_value (c : ascii) : option nat :=
  let n := nat_of_ascii c in
  if ((48 <=? n) && (n <=? 57))%nat then Some (n - 48)%nat
  else if ((97 <=? n) && (n <=? 102))%nat then Some (n - 87)%nat
  else if ((65 <=? n) && (n <=? 70))%nat then Some (n - 55)%nat
  else None.

(** *** Printing *)

(** One character of a string literal, escaped as JSON.stringify does. *)
Definition escape_char (c : ascii) : list ascii :=
  if (c =? dquote)%char then [backslash; dquote]
  else if (c =? backslash)%char then [backslash; backslash]
  else if (c =? "008")%char then [backslash; "b"%char]
  else if (c =? "012")%char then [backslash; "f"%char]
  else if (c =? "010")%char then [backslash; "n"%char]
  else if (c =? "013")%char then [backslash; "r"%char]
  else if (c =? "009")%char then [backslash; "t"%char]
  else if (nat_of_ascii c <? 32)%nat then
    [backslash; "u"%char; "0"%char; "0"%char;
     hex_digit (nat_of_ascii c / 16)%nat; hex_digit (nat_of_ascii c mod 16)%nat]
  else [c].

Definition print_string (s : string) : list ascii :=
  dquote :: flat_map escape_char (list_ascii_of_string s) ++ [dquote].

Fixpoint chars_of_uint (d : Decimal.uint) : list ascii :=
  match d with
  | Decimal.Nil => []
  | Decimal.D0 d => "0"%char :: chars_of_uint d
  | Decimal.D1 d => "1"%char :: chars_of_uint d
  | Decimal.D2 d => "2"%char :: chars_of_uint d
  | Decimal.D3 d => "3"%char :: chars_of_uint d
  | Decimal.D4 d => "4"%char :: chars_of_uint d
  | Decimal.D5 d => "5"%char :: chars_of_uint d
  | Decimal.D6 d => "6"%char :: chars_of_uint d
  | Decimal.D7 d => "7"%char :: chars_of_uint d
  | Decimal.D8 d => "8"%char :: chars_of_uint d
  | Decimal.D9 d => "9"%char :: chars_of_uint d
  end.

Definition print_Z (z : Z) : list ascii :=
  match Z.to_int z with
  | Decimal.Pos d => chars_of_uint d
  | Decimal.Neg d => "-"%char :: chars_of_uint d
  end.

(** [sep_by f l]: the items of [l] printed by [f], with commas between. *)
Definition sep_by {A} (f : A -> list ascii) : list A -> list ascii :=
  fix go (l : list A) : list ascii :=
    match l with
    | [] => []
    | x :: l' => f x ++ match l' with [] => [] | _ :: _ => ","%char :: go l' end
    end.

Fixpoint print (v : json) : list ascii :=
  match v with
  | JNull => list_ascii_of_string "null"
  | JBool true => list_ascii_of_string "true"
  | JBool false => list_ascii_of_string "false"
  | JNum z => print_Z z
  | JStr s => print_string s
  | JArr l => "["%char :: sep_by print l ++ ["]"%char]
  | JObj m =>
      "{"%char ::
      sep_by (fun kv => print_string (fst kv) ++ ":"%char :: print (snd kv)) m
      ++ ["}"%char]
  | JReal _ | JBuiltin _ => list_ascii_of_string "null"
  end.

Definition stringify (v : json) : string := string_of_list_ascii (print v).

(** *** Parsing *)

(** A code unit given by a [\uXXXX] escape, as bytes. *)
Definition bytes_of_code_unit (n : nat) : list ascii :=
  if (n <? 128)%nat then [ascii_of_nat n]
  else if (n <? 2048)%nat then
    [ascii_of_nat (192 + n / 64)%nat; ascii_of_nat (128 + n mod 64)%nat]
  else
    [ascii_of_nat (224 + n / 4096)%nat; ascii_of_nat (128 + (n / 64) mod 64)%nat;
     ascii_of_nat (128 + n mod 64)%nat].

Definition hex4 (a b c d : ascii) : option nat :=
  match hex_value a, hex_value b, hex_value c, hex_value d with
  | Some a, Some b, Some c, Some d => Some (((a * 16 + b) * 16 + c) * 16 + d)%nat
  | _, _, _, _ => None
  end.

(** The characters of a string literal after its opening quote, up to and
    including the closing quote.  [acc] holds the decoded characters so far,
    last first. *)
Fixpoint parse_chars (s : list ascii) (acc : list ascii)
  : option (list ascii * list ascii) :=
  match s with
  | [] => None
  | c :: r =>
      if (c =? dquote)%char then Some (List.rev acc, r)
      else if (c =? backslash)%char then
        match r with
        | [] => None
        | e :: r' =>
            if (e =? dquote)%char then parse_chars r' (dquote :: acc)
            else if (e =? backslash)%char then parse_chars r' (backslash :: acc)
            else if (e =? "/")%char then parse_chars r' ("/"%char :: acc)
            else if (e =? "b")%char then parse_chars r' ("008"%char :: acc)
            else if (e =? "f")%char then parse_chars r' ("012"%char :: acc)
            else if (e =? "n")%char then parse_chars r' ("010"%char :: acc)
            else if (e =? "r")%char then parse_chars r' ("013"%char :: acc)
            else if (e =? "t")%char then parse_chars r' ("009"%char :: acc)
            else if (e =? "u")%char then
              match r' with
              | a :: b :: c :: d :: r'' =>
                  match hex4 a b c d with
                  | Some n => parse_chars r'' (List.rev (bytes_of_code_unit n) ++ acc)
                  | None => None
                  end
              | _ => None
              end
            else None
        end
      else if (nat_of_ascii c <? 32)%nat then None
      else parse_chars r (c :: acc)
  end.

Definition parse_string (s : list ascii) : option (string * list ascii) :=
  match parse_chars s [] with
  | Some (cs, r) => Some (string_of_list_ascii cs, r)
  | None => None
  end.

Definition digit_of (c : ascii) : option (Decimal.uint -> Decimal.uint) :=
  if (c =? "0")%char then Some Decimal.D0
  else if (c =? "1")%char then Some Decimal.D1
  else if (c =? "2")%char then Some Decimal.D2
  else if (c =? "3")%char then Some Decimal.D3
  else if (c =? "4")%char then Some Decimal.D4
  else if (c =? "5")%char then Some Decimal.D5
  else if (c =? "6")%char then Some Decimal.D6
  else if (c =? "7")%char then Some Decimal.D7
  else if (c =? "8")%char then Some Decimal.D8
  else if (c =? "9")%char then Some Decimal.D9
  else None.

Fixpoint read_digits (s : list ascii) : Decimal.uint * list ascii :=
  match s with
  | [] => (Decimal.Nil, [])
  | c :: r =>
      match digit_of c with
      | Some mk => let '(d, r') := read_digits r in (mk d, r')
      | None => (Decimal.Nil, s)
      end
  end.

(** The integer part of a JSON number: at least one digit and no leading
    zero. *)
Definition canonical (d : Decimal.uint) : bool :=
  match d with
  | Decimal.Nil => false
  | Decimal.D0 Decimal.Nil => true
  | Decimal.D0 _ => false
  | _ => true
  end.

(** A number literal goes on after its integer part with a fraction or an
    exponent. *)
Definition continues_number (r : list ascii) : bool :=
  match r with
  | c :: _ => (c =? ".")%char || (c =? "e")%char || (c =? "E")%char
  | [] => false
  end.

Definition is_num_start (c : ascii) : bool :=
  match digit_of c with
  | Some _ => true
  | None => (c =? "-")%char
  end.

Definition parse_number (s : list ascii) : option (json * list ascii) :=
  match s with
  | [] => None
  | c :: r =>
      let '(d, r') := read_digits (if (c =? "-")%char then r else s) in
      if canonical d && negb (continues_number r') then
        Some (JNum (Z.of_int (if (c =? "-")%char then Decimal.Neg d else Decimal.Pos d)), r')
      else None
  end.

(** [expect w s]: [s] with the word [w] taken off its front. *)
Fixpoint expect (w s : list ascii) : option (list ascii) :=
  match w, s with
  | [], _ => Some s
  | a :: w', b :: s' => if (a =? b)%char then expect w' s' else None
  | _ :: _, [] => None
  end.

(** [obj[k] = v]: an existing property keeps its place and takes the new
    value, a new property goes last. *)
Fixpoint set_member (k : string) (v : json) (m : list (string * json))
  : list (string * json) :=
  match m with
  | [] => [(k, v)]
  | (k', v') :: m' =>
      if String.eqb k k' then (k', v) :: m' else (k', v') :: set_member k v m'
  end.

Fixpoint parse_value (fuel : nat) (s : list ascii) {struct fuel}
  : option (json * list ascii) :=
  match fuel with
  | O => None
  | S fuel =>
      match skip_ws s with
      | [] => None
      | c :: r =>
          if is_num_start c then parse_number (c :: r)
          else if (c =? dquote)%char then
            match parse_string r with
            | Some (str, r') => Some (JStr str, r')
            | None => None
            end
          else if (c =? "[")%char then
            match skip_ws r with
            | [] => None
            | c' :: r' =>
                if (c' =? "]")%char then Some (JArr [], r')
                else parse_elems fuel (c' :: r') []
            end
          else if (c =? "{")%char then
            match skip_ws r with
            | [] => None
            | c' :: r' =>
                if (c' =? "}")%char then Some (JObj [], r')
                else parse_members fuel (c' :: r') []
            end
          else if (c =? "n")%char then
            match expect (list_ascii_of_string "ull") r with
            | Some r' => Some (JNull, r')
            | None => None
            end
          else if (c =? "t")%char then
            match expect (list_ascii_of_string "rue") r with
            | Some r' => Some (JBool true, r')
            | None => None
            end
          else if (c =? "f")%char then
            match expect (list_ascii_of_string "alse") r with
            | Some r' => Some (JBool false, r')
            | None => None
            end
          else None
      end
  end

with parse_elems (fuel : nat) (s : list ascii) (acc : list json) {struct fuel}
  : option (json * list ascii) :=
  match fuel with
  | O => None
  | S fuel =>
      match parse_value fuel s with
      | None => None
      | Some (v, r) =>
          match skip_ws r with
          | [] => None
          | c :: r' =>
              if (c =? ",")%char then parse_elems fuel r' (acc ++ [v])
              else if (c =? "]")%char then Some (JArr (acc ++ [v]), r')
              else None
          end
      end
  end

with parse_members (fuel : nat) (s : list ascii) (acc : list (string * json))
  {struct fuel} : option (json * list ascii) :=
  match fuel with
  | O => None
  | S fuel =>
      match skip_ws s with
      | [] => None
      | c :: r =>
          if (c =? dquote)%char then
            match parse_string r with
            | None => None
            | Some (k, r1) =>
                match skip_ws r1 with
                | [] => None
                | c1 :: r2 =>
                    if (c1 =? ":")%char then
                      match parse_value fuel r2 with
                      | None => None
                      | Some (v, r3) =>
                          match skip_ws r3 with
                          | [] => None
                          | c3 :: r4 =>
                              if (c3 =? ",")%char
                              then parse_members fuel r4 (set_member k v acc)
                              else if (c3 =? "}")%char
                              then Some (JObj (set_member k v acc), r4)
                              else None
                          end
                      end
                    else None
                end
            end
          else None
      end
  end.

(** The codec's JSON.parse: [None] stands for the SyntaxError it
    throws. *)
Definition parse (s : string) : option json :=
  let cs := list_ascii_of_string s in
  match parse_value (2 * List.length cs + 2)%nat cs with
  | Some (v, r) => match skip_ws r with [] => Some v | _ :: _ => None end
  | None => None
  end.

(** [v ? _ : _] and [v || _] on a value: null, false, zero, NaN and the
    empty string are falsy. *)
Definition truthy (v : json) : bool :=
  match v with
  | JNull => false
  | JBool b => b
  | JNum z => negb (z =? 0)
  | JStr s => negb (String.eqb s EmptyString)
  | JArr _ | JObj _ | JBuiltin _ => true
  | JReal text => negb (String.eqb text "NaN")
  end.

(** The own property [k] of an object; [None] when it has none. *)
Fixpoint get_member (k : string) (m : list (string * json)) : option json :=
  match m with
  | [] => None
  | (k', v) :: m' => if String.eqb k k' then Some v else get_member k m'
  end.

(** The values the codec reads back as it wrote them: JSON values in
    which no object holds a key twice. *)
#[warnings="-register-all"]
Inductive wf : json -> Prop :=
| wf_null : wf JNull
| wf_bool b : wf (JBool b)
| wf_num z : wf (JNum z)
| wf_str s : wf (JStr s)
| wf_arr l : Forall wf l -> wf (JArr l)
| wf_obj m : NoDup (map fst m) -> Forall (fun kv => wf (snd kv)) m -> wf (JObj m).

(** *** What the round-trip facts are stated with *)

(** One member of an object as [print] writes it. *)
Definition print_member (kv : string * json) : list ascii :=
  print_string (fst kv) ++ ":"%char :: print (snd kv).

(** What may follow a printed number: no digit, and no fraction or
    exponent mark. *)
Definition num_end (r : list ascii) : bool :=
  match r with
  | [] => true
  | c :: _ =>
      match digit_of c with
      | Some _ => false
      | None => negb (continues_number r)
      end
  end.

(** The first character of a printed value. *)
Definition is_value_start (c : ascii) : bool :=
  is_num_start c || (c =? dquote)%char || (c =? "[")%char || (c =? "{")%char
  || (c =? "n")%char || (c =? "t")%char || (c =? "f")%char.

(** A bound on the fuel [parse_value] needs to read a printed value back. *)
Fixpoint jsize (v : json) : nat :=
  match v with
  | JArr l => 2 + list_sum (map (fun x => S (jsize x)) l)
  | JObj m => 2 + list_sum (map (fun kv => S (jsize (snd kv))) m)
  | _ => 1
  end.

(** Parsing what [print] wrote gives the value back, whatever follows it
    (as long as that cannot be read as more of a number). *)
Definition roundtrips (v : json) : Prop :=
  forall fuel rest,
    (jsize v <= fuel)%nat -> num_end rest = true ->
    parse_value fuel (print v ++ rest) = Some (v, rest).

End JSON.

(* ================================================================== *)
(** ** What the routes import *)

(** The payload [jwt.verify] returns. *)
Record Claims := { userId : string; claim_email : string }.

(** The caller, as [getUserFromToken] returns it. *)
Record User := { user_id_of : string; user_email : string }.

(** A row of [products]. *)
Record Product := {
  p_id : Z;
  p_name : string;
  p_brand : string;
  p_image_url : string;
  p_variants : option string;
  p_stock_quantity : Z
}.

(** The PUT the order route sends to /api/products/stock for one item. *)
Record StockCall := {
  sc_product_id : Z;
  sc_authorization : string;
  sc_color : string;
  sc_size : string;
  sc_quantity : Z
}.

(** What a call to the stock endpoint comes to: an answer that is [ok];
    an answer that is not, with the value its body reads as;
    or no answer the handler can read ([fetch] rejects, or the body of an
    answer that is not [ok] is no JSON and [stockResponse.json()]
    throws). *)
Inductive StockResponse :=
| StockOk
| StockFailed (stockError : JSON.json)
| StockThrows.

Record Externals := {
  (** [jwt.verify(token, JWT_SECRET)]; it throws on a bad signature or an
      expired token. *)
  jwt_verify : string -> Js.result Claims;
  (** The stock endpoint: it answers and may rewrite [products]. *)
  stock_put : StockCall -> list Product -> StockResponse * list Product;
  (** The SQL engine comparing a numeric key with a text parameter. *)
  sql_id_eq : string -> Z -> bool;
  (** The SQL engine storing a bound value in a DECIMAL column. *)
  sql_decimal : JSON.json -> option Z;
  (** The driver hands DECIMAL columns back as text (its default) or as
      numbers. *)
  decimal_as_text : bool;
  (** Defaults of the columns the INSERT into [orders] leaves out. *)
  default_payment_status : option string;
  default_amount : option Z;
  (** [JSON.parse(text)] of the engine; [None] when it throws. *)
  json_parse : string -> option JSON.json;
  (** [JSON.stringify(v)] of the engine. *)
  json_stringify : JSON.json -> string;
  (** [v[k]] where [v] is not null and holds no own member [k] that the
      model sees: what [v] inherits under that name and, for a value that
      is no plain object (a string, an array, a number, a function), any
      property of it; [None] is [undefined]. *)
  inherited : JSON.json -> string -> option JSON.json;
  (** [v < n] for a value [v] that is no integer: the engine converts [v]
      to a number first. *)
  coerced_lt : JSON.json -> Z -> bool;
  (** [v] in a template literal, for a value that is no integer. *)
  to_text : JSON.json -> string
}.

(** A DECIMAL column as the driver returns it. *)
Inductive cell :=
| CNull
| CNumber (z : Z)
| CText (z : Z).

Definition render_decimal (E : Externals) (v : option Z) : cell :=
  match v with
  | None => CNull
  | Some z => if decimal_as_text E then CText z else CNumber z
  end.

(** [Number(c)] *)
Definition Number (c : cell) : Z :=
  match c with
  | CNull => 0
  | CNumber z => z
  | CText z => z
  end.

Definition is_number (c : cell) : bool :=
  match c with
  | CNumber _ => true
  | _ => false
  end.

(** An integer in a template literal: plain digits, which is how
    JavaScript writes an integer below 10^21 in absolute value, as a clock
    reading and a key are. *)
Definition num_to_string (z : Z) : string :=
  string_of_list_ascii (JSON.print_Z z).

(** A response: the status given to [NextResponse.json] (200 when none is
    given) and the body. *)
Record Response (B : Type) := { resp_status : Z; resp_body : B }.
Arguments resp_status {B} r.
Arguments resp_body {B} r.

(** [filter] with the number of rows it kept: an UPDATE's [affectedRows]. *)
Definition count_rows {A} (p : A -> bool) (l : list A) : Z :=
  Z.of_nat (List.length (filter p l)).

(** UPDATE ... SET ... WHERE: rows the condition holds for are rewritten. *)
Definition update_where {A} (p : A -> bool) (f : A -> A) (l : list A) : list A :=
  map (fun r => if p r then f r else r) l.

(** ORDER BY key DESC: a stable insertion sort. *)
Fixpoint insert_desc {A} (key : A -> Z) (x : A) (l : list A) : list A :=
  match l with
  | [] => [x]
  | y :: l' => if key y <=? key x then x :: l else y :: insert_desc key x l'
  end.

Definition order_by_desc {A} (key : A -> Z) (l : list A) : list A :=
  fold_right (insert_desc key) [] l.

(** *** getUserFromToken

    The three files carry the same helper; they differ in what they log. *)
Definition getUserFromToken (E : Externals) (authHeader : option string)
  : option User :=
  Js.try_catch
    (match authHeader with
     | None => Js.Ok None
     | Some h =>
         if negb (Js.truthy_str authHeader) || negb (String.prefix "Bearer " h)
         then Js.Ok None
         else
           let token := String.substring 7 (String.length h - 7) h in
           decoded <- jwt_verify E token ;;
           Js.Ok (Some {| user_id_of := userId decoded;
                          user_email := claim_email decoded |})
     end)
    None.


(** The three ways a request carries no valid bearer credential. *)
Definition no_credential (E : Externals) (auth : option string) : Prop :=
  auth = None
  \/ (exists h, auth = Some h /\ String.prefix "Bearer " h = false)
  \/ (exists h, auth = Some h
                /\ jwt_verify E (String.substring 7 (String.length h - 7) h)
                   = Js.Throw).

(** A request: the Authorization header, the [id] query parameter, and
    what [request.json()] gives ([Throw] when the body is no JSON). *)
Record Request (B : Type) := {
  authorization : option string;
  query_id : option string;
  json_body : Js.result B
}.
Arguments authorization {B} r.
Arguments query_id {B} r.
Arguments json_body {B} r.

(* ================================================================== *)
(** ** The addresses route (src/app/api/orders/route.ts, second half) *)

Module Addresses.

(** A row of [addresses]. *)
Record Address := {
  a_id : Z;
  a_user_id : string;
  a_first_name : string;
  a_last_name : string;
  a_address_line_1 : string;
  a_address_line_2 : string;
  a_city : string;
  a_state : string;
  a_postal_code : string;
  a_country : string;
  a_phone : string;
  a_is_default : bool;
  a_created_at : Z
}.

(** The table and its AUTO_INCREMENT counter. *)
Record Db := {
  addresses : list Address;
  next_address_id : Z
}.

(** The fields the handlers take off the request body. *)
Record AddressBody := {
  id : option Z;
  address_line_1 : option string;
  address_line_2 : option string;
  city : option string;
  state : option string;
  postal_code : option string;
  country : option string;
  first_name : option string;
  last_name : option string;
  phone : option string;
  is_default : option JSON.json
}.

Inductive Body :=
| BError (error : string)
| BAddresses (rows : list Address)
| BAddress (row : option Address)
| BMessage (message : string).

Definition reply (st : Z) (b : Body) : Response Body :=
  {| resp_status := st; resp_body := b |}.

Definition unauthorized : Response Body := reply 401 (BError "Unauthorized").
Definition internal_error : Response Body :=
  reply 500 (BError "Internal server error").
Definition required_fields : Response Body :=
  reply 400 (BError "Address line 1, city, first name, and last name are required").

(** [is_default] as the conditions and [is_default ? 1 : 0] read it. *)
Definition default_flag (b : AddressBody) : bool :=
  match is_default b with
  | None => false
  | Some v => JSON.truthy v
  end.

Definition get (o : option string) : string :=
  match o with Some s => s | None => EmptyString end.

Definition set_default (d : bool) (a : Address) : Address :=
  {| a_id := a_id a; a_user_id := a_user_id a;
     a_first_name := a_first_name a; a_last_name := a_last_name a;
     a_address_line_1 := a_address_line_1 a;
     a_address_line_2 := a_address_line_2 a;
     a_city := a_city a; a_state := a_state a;
     a_postal_code := a_postal_code a; a_country := a_country a;
     a_phone := a_phone a; a_is_default := d;
     a_created_at := a_created_at a |}.

(** The eleven values both the INSERT and the UPDATE bind, on the row
    [aid] of [uid]. *)
Definition bound_row (aid : Z) (uid : string) (created : Z) (b : AddressBody)
  : Address :=
  {| a_id := aid; a_user_id := uid;
     a_first_name := get (first_name b); a_last_name := get (last_name b);
     a_address_line_1 := get (address_line_1 b);
     a_address_line_2 := Js.or_str (address_line_2 b) "";
     a_city := get (city b);
     a_state := Js.or_str (state b) "";
     a_postal_code := Js.or_str (postal_code b) "";
     a_country := Js.or_str (country b) "Philippines";
     a_phone := Js.or_str (phone b) "";
     a_is_default := default_flag b;
     a_created_at := created |}.

Definition owned_by (uid : string) (a : Address) : bool :=
  String.eqb (a_user_id a) uid.

Definition missing_required (b : AddressBody) : bool :=
  negb (Js.truthy_str (address_line_1 b)) || negb (Js.truthy_str (city b))
  || negb (Js.truthy_str (first_name b)) || negb (Js.truthy_str (last_name b)).

(** GET - Fetch user addresses *)
Definition GET (E : Externals) (req : Request AddressBody) (db : Db)
  : Response Body * Db :=
  match getUserFromToken E (authorization req) with
  | None => (unauthorized, db)
  | Some user =>
      let rows := filter (owned_by (user_id_of user)) (addresses db) in
      let sorted :=
        order_by_desc (fun a => if a_is_default a then 1 else 0)
                      (order_by_desc a_created_at rows) in
      (reply 200 (BAddresses sorted), db)
  end.

(** POST - Create new address *)
Definition POST (E : Externals) (now : Z) (req : Request AddressBody) (db : Db)
  : Response Body * Db :=
  match getUserFromToken E (authorization req) with
  | None => (unauthorized, db)
  | Some user =>
      match json_body req with
      | Js.Throw => (internal_error, db)
      | Js.Ok b =>
          if missing_required b then (required_fields, db)
          else
            (* If this is set as default, unset other default addresses *)
            let rows1 :=
              if default_flag b
              then update_where (owned_by (user_id_of user)) (set_default false)
                                (addresses db)
              else addresses db in
            let insertId := next_address_id db in
            let rows2 := rows1 ++ [bound_row insertId (user_id_of user) now b] in
            let db2 := {| addresses := rows2;
                          next_address_id := insertId + 1 |} in
            (* Fetch the created address *)
            let newAddress := filter (fun a => a_id a =? insertId) rows2 in
            (reply 201 (BAddress (hd_error newAddress)), db2)
      end
  end.

(** PUT - Update address *)
Definition PUT (E : Externals) (req : Request AddressBody) (db : Db)
  : Response Body * Db :=
  match getUserFromToken E (authorization req) with
  | None => (unauthorized, db)
  | Some user =>
      match json_body req with
      | Js.Throw => (internal_error, db)
      | Js.Ok b =>
          match id b with
          | Some aid =>
              if negb (Js.truthy_num (id b))
              then (reply 400 (BError "Address ID is required"), db)
              else if missing_required b then (required_fields, db)
              else
                let uid := user_id_of user in
                let mine := fun a => (a_id a =? aid) && owned_by uid a in
                (* Check if address exists and belongs to user *)
                let existingAddress := filter mine (addresses db) in
                match existingAddress with
                | [] => (reply 404 (BError "Address not found"), db)
                | _ :: _ =>
                    (* If this is set as default, unset other default addresses *)
                    let rows1 :=
                      if default_flag b
                      then update_where
                             (fun a => owned_by uid a && negb (a_id a =? aid))
                             (set_default false) (addresses db)
                      else addresses db in
                    let affectedRows := count_rows mine rows1 in
                    let rows2 :=
                      update_where mine
                        (fun a => bound_row (a_id a) (a_user_id a) (a_created_at a) b)
                        rows1 in
                    let db2 := {| addresses := rows2;
                                  next_address_id := next_address_id db |} in
                    if affectedRows =? 0
                    then (reply 404 (BError "Address not found or unauthorized"), db2)
                    else
                      (* Fetch the updated address *)
                      let updatedAddress := filter mine rows2 in
                      (reply 200 (BAddress (hd_error updatedAddress)), db2)
                end
          | None => (reply 400 (BError "Address ID is required"), db)
          end
      end
  end.

(** DELETE - Delete address *)
Definition DELETE (E : Externals) (req : Request AddressBody) (db : Db)
  : Response Body * Db :=
  match getUserFromToken E (authorization req) with
  | None => (unauthorized, db)
  | Some user =>
      match query_id req with
      | Some addressId =>
          if negb (Js.truthy_str (query_id req))
          then (reply 400 (BError "Address ID is required"), db)
          else
            let mine := fun a => sql_id_eq E addressId (a_id a)
                                 && owned_by (user_id_of user) a in
            let affectedRows := count_rows mine (addresses db) in
            let db2 := {| addresses := filter (fun a => negb (mine a)) (addresses db);
                          next_address_id := next_address_id db |} in
            if affectedRows =? 0
            then (reply 404 (BError "Address not found or unauthorized"), db2)
            else (reply 200 (BMessage "Address deleted successfully"), db2)
      | None => (reply 400 (BError "Address ID is required"), db)
      end
  end.

(** The address is one of [uid] and is flagged default. *)
Definition is_default_of (uid : string) (a : Address) : bool :=
  owned_by uid a && a_is_default a.

(** The addresses of [uid] flagged as default. *)
Definition defaults_of (uid : string) (db : Db) : list Address :=
  filter (is_default_of uid) (addresses db).

(** What the two statements of a PUT make of one row. *)
Definition updated_row (uid : string) (aid : Z) (b : AddressBody) (a : Address)
  : Address :=
  let a1 := if default_flag b
            then (if owned_by uid a && negb (a_id a =? aid)
                  then set_default false a else a)
            else a in
  if (a_id a1 =? aid) && owned_by uid a1
  then bound_row (a_id a1) (a_user_id a1) (a_created_at a1) b
  else a1.

End Addresses.


(* ================================================================== *)
(** ** What the two order routes share: rows, bodies and the three loops
       of order creation, which both files carry word for word *)

Module OrderData.

(** The columns of [orders].  [Num] is how a DECIMAL column is held
    (stored, as the driver returns it, or coerced by [Number]); [Addr] is
    how [shipping_address] is held (the stored text or the parsed value). *)
Record OrderCols (Num Addr : Type) := {
  o_id : Z;
  o_user_id : option string;
  o_order_number : string;
  o_status : string;
  o_payment_status : option string;
  o_payment_method : option string;
  o_payment_screenshot : option string;
  o_subtotal : Num;
  o_tax_amount : Num;
  o_shipping_amount : Num;
  o_discount_amount : Num;
  o_total_amount : Num;
  o_shipping_address : Addr;
  o_billing_address : option string;
  o_notes : option string;
  o_tracking_number : option string;
  o_created_at : Z;
  o_updated_at : Z
}.
Arguments o_id {Num Addr} o.
Arguments o_user_id {Num Addr} o.
Arguments o_order_number {Num Addr} o.
Arguments o_status {Num Addr} o.
Arguments o_payment_status {Num Addr} o.
Arguments o_payment_method {Num Addr} o.
Arguments o_payment_screenshot {Num Addr} o.
Arguments o_subtotal {Num Addr} o.
Arguments o_tax_amount {Num Addr} o.
Arguments o_shipping_amount {Num Addr} o.
Arguments o_discount_amount {Num Addr} o.
Arguments o_total_amount {Num Addr} o.
Arguments o_shipping_address {Num Addr} o.
Arguments o_billing_address {Num Addr} o.
Arguments o_notes {Num Addr} o.
Arguments o_tracking_number {Num Addr} o.
Arguments o_created_at {Num Addr} o.
Arguments o_updated_at {Num Addr} o.

(** The columns of [order_items]. *)
Record ItemCols (Num : Type) := {
  oi_id : Z;
  oi_order_id : Z;
  oi_product_id : Z;
  oi_quantity : Z;
  oi_size : option string;
  oi_color : option string;
  oi_price : Num
}.
Arguments oi_id {Num} i.
Arguments oi_order_id {Num} i.
Arguments oi_product_id {Num} i.
Arguments oi_quantity {Num} i.
Arguments oi_size {Num} i.
Arguments oi_color {Num} i.
Arguments oi_price {Num} i.

(** Rows as stored. *)
Definition Order := OrderCols (option Z) (option string).
Definition OrderItem := ItemCols (option Z).

(** Rows as a SELECT * hands them to the handler. *)
Definition OrderRow := OrderCols cell (option string).
Definition ItemRow := ItemCols cell.

Definition convert_order {N1 N2 A1 A2} (f : N1 -> N2) (g : A1 -> A2)
  (o : OrderCols N1 A1) : OrderCols N2 A2 :=
  {| o_id := o_id o; o_user_id := o_user_id o;
     o_order_number := o_order_number o; o_status := o_status o;
     o_payment_status := o_payment_status o;
     o_payment_method := o_payment_method o;
     o_payment_screenshot := o_payment_screenshot o;
     o_subtotal := f (o_subtotal o); o_tax_amount := f (o_tax_amount o);
     o_shipping_amount := f (o_shipping_amount o);
     o_discount_amount := f (o_discount_amount o);
     o_total_amount := f (o_total_amount o);
     o_shipping_address := g (o_shipping_address o);
     o_billing_address := o_billing_address o; o_notes := o_notes o;
     o_tracking_number := o_tracking_number o;
     o_created_at := o_created_at o; o_updated_at := o_updated_at o |}.

Definition convert_item {N1 N2} (f : N1 -> N2) (i : ItemCols N1) : ItemCols N2 :=
  {| oi_id := oi_id i; oi_order_id := oi_order_id i;
     oi_product_id := oi_product_id i; oi_quantity := oi_quantity i;
     oi_size := oi_size i; oi_color := oi_color i; oi_price := f (oi_price i) |}.

Definition select_order (E : Externals) (o : Order) : OrderRow :=
  convert_order (render_decimal E) (fun a => a) o.

Definition select_item (E : Externals) (i : OrderItem) : ItemRow :=
  convert_item (render_decimal E) i.

Record Db := {
  products : list Product;
  orders : list Order;
  order_items : list OrderItem;
  next_order_id : Z;
  next_item_id : Z
}.

(** One entry of the request's [items]. *)
Record Item := {
  product_id : Z;
  product_name : string;
  color : string;
  size : string;
  quantity : Z;
  price : Z
}.

(** The fields the handlers take off the request body. *)
Record OrderBody := {
  user_id : option string;
  items : option (list Item);
  total : option JSON.json;
  customer_email : option string;
  shipping_address : option JSON.json;
  payment_method : option string;
  payment_screenshot : option string;
  status : option string;
  tracking_number : option string
}.

(** The body of the 400 the stock check answers with. *)
Record Shortfall := {
  sf_error : string;
  sf_message : string;
  sf_product : string;
  sf_color : string;
  sf_size : string;
  sf_availableStock : JSON.json;
  sf_requestedQuantity : Z
}.

(** The body of the 400 a failed stock update answers with. *)
Record StockFailure := {
  fl_error : string;
  fl_message : JSON.json;
  fl_product : string
}.

(** [{...order, shipping_address, items}] as POST and PUT return it. *)
Record OrderWithItems := {
  wi_order : OrderCols cell (option JSON.json);
  wi_items : list ItemRow
}.

(** A line item as the listing returns it. *)
Record ListedItem := {
  li_id : Z;
  li_quantity : Z;
  li_price : Z;
  li_size : option string;
  li_color : option string;
  li_name : string;
  li_brand : string;
  li_image_url : string
}.

(** An order as the listing returns it: the selected columns, amounts
    through [Number], the address parsed, and the items. *)
Record ListedOrder := {
  lo_id : Z;
  lo_order_number : string;
  lo_status : string;
  lo_payment_status : option string;
  lo_payment_method : option string;
  lo_subtotal : Z;
  lo_tax_amount : Z;
  lo_shipping_amount : Z;
  lo_discount_amount : Z;
  lo_total : Z;
  lo_shipping_address : option JSON.json;
  lo_billing_address : option string;
  lo_notes : option string;
  lo_created_at : Z;
  lo_updated_at : Z;
  lo_items : list ListedItem
}.

Inductive Body :=
| BError (error : string)
| BShortfall (b : Shortfall)
| BStockFailure (b : StockFailure)
| BOrder (o : OrderWithItems)
| BListed (l : list ListedOrder)
| BRows (l : list OrderRow).

(** What a handler did, in the order it did it. *)
Inductive Event :=
| EvSelectProduct (product_id : Z)
| EvStockPut (call : StockCall) (answer : StockResponse)
| EvInsertOrder (id : Z)
| EvInsertItem (order_id : Z) (product_id : Z).

Definition reply (st : Z) (b : Body) : Response Body :=
  {| resp_status := st; resp_body := b |}.

Definition unauthorized : Response Body := reply 401 (BError "Unauthorized").
Definition internal_error : Response Body :=
  reply 500 (BError "Internal server error").

Definition cat (l : list string) : string := String.concat "" l.

(** [product.variants ? JSON.parse(product.variants) : {}], with the catch
    that puts [{}] in its place. *)
Definition parse_variants (E : Externals) (product : Product) : JSON.json :=
  Js.try_catch
    (match p_variants product with
     | Some text =>
         if Js.truthy_str (p_variants product) then
           match json_parse E text with
           | Some v => Js.Ok v
           | None => Js.Throw
           end
         else Js.Ok (JSON.JObj [])
     | None => Js.Ok (JSON.JObj [])
     end)
    (JSON.JObj []).

(** [v[k]] on a value that is not null: an own member of an object when
    there is one, and otherwise what the engine finds (an inherited
    property, or a property of a string, an array, a number or a
    function). *)
Definition read_prop (E : Externals) (v : JSON.json) (k : string)
  : option JSON.json :=
  match v with
  | JSON.JObj m =>
      match JSON.get_member k m with
      | Some x => Some x
      | None => inherited E v k
      end
  | _ => inherited E v k
  end.

(** [v[k]]: reading a property of [null] throws. *)
Definition get_prop (E : Externals) (v : JSON.json) (k : string)
  : Js.result (option JSON.json) :=
  match v with
  | JSON.JNull => Js.Throw
  | _ => Js.Ok (read_prop E v k)
  end.

(** [v?.[k]]: [undefined] when [v] is [undefined] or [null]. *)
Definition optional_get (E : Externals) (v : option JSON.json) (k : string)
  : option JSON.json :=
  match v with
  | None | Some JSON.JNull => None
  | Some x => read_prop E x k
  end.

(** [v || 0]: a truthy value is kept as it is, whatever its kind. *)
Definition or_zero (v : option JSON.json) : JSON.json :=
  match v with
  | Some x => if JSON.truthy x then x else JSON.JNum 0
  | None => JSON.JNum 0
  end.

(** [variants[item.color]?.[item.size] || 0] *)
Definition availableStock_of (E : Externals) (variants : JSON.json) (item : Item)
  : Js.result JSON.json :=
  by_color <- get_prop E variants (color item) ;;
  Js.Ok (or_zero (optional_get E by_color (size item))).

(** [availableStock < item.quantity]: between two integers the comparison
    of the integers; a value of another kind is converted by the engine. *)
Definition below (E : Externals) (availableStock : JSON.json) (quantity : Z)
  : bool :=
  match availableStock with
  | JSON.JNum n => n <? quantity
  | _ => coerced_lt E availableStock quantity
  end.

(** [${availableStock}]: an integer below 10^21 in absolute value is
    written in plain digits; how any other value is written is the
    engine's. *)
Definition shown (E : Externals) (availableStock : JSON.json) : string :=
  match availableStock with
  | JSON.JNum n =>
      if Z.abs n <? 10 ^ 21 then num_to_string n else to_text E availableStock
  | _ => to_text E availableStock
  end.

Definition insufficient (E : Externals) (item : Item) (availableStock : JSON.json)
  : Response Body :=
  reply 400 (BShortfall
    {| sf_error := "Insufficient stock";
       sf_message := cat ["Only "%string; shown E availableStock;
                          " items available for "%string; product_name item;
                          " ("%string; color item; ", "%string; size item; ")"%string];
       sf_product := product_name item;
       sf_color := color item;
       sf_size := size item;
       sf_availableStock := availableStock;
       sf_requestedQuantity := quantity item |}).

(** Validate stock availability for all items before creating order.
    [Ok None]: the loop ran to its end; [Ok (Some r)]: it returned [r];
    [Throw]: it threw. *)
Fixpoint validate_stock (E : Externals) (products : list Product)
  (items : list Item) : Js.result (option (Response Body)) * list Event :=
  match items with
  | [] => (Js.Ok None, [])
  | item :: rest =>
      let productResult := filter (fun p => p_id p =? product_id item) products in
      let ev := EvSelectProduct (product_id item) in
      match productResult with
      | [] =>
          (Js.Ok (Some (reply 400
             (BError (cat ["Product not found: "%string; product_name item])))), [ev])
      | product :: _ =>
          match availableStock_of E (parse_variants E product) item with
          | Js.Throw => (Js.Throw, [ev])
          | Js.Ok availableStock =>
              if below E availableStock (quantity item)
              then (Js.Ok (Some (insufficient E item availableStock)), [ev])
              else
                let '(r, evs) := validate_stock E products rest in
                (r, ev :: evs)
          end
      end
  end.

(** The stock the check finds for one item: [None] when its product is not
    there. *)
Definition stock_of (E : Externals) (products : list Product) (item : Item)
  : option (Js.result JSON.json) :=
  match filter (fun p => p_id p =? product_id item) products with
  | [] => None
  | product :: _ => Some (availableStock_of E (parse_variants E product) item)
  end.

(** The item passes the check. *)
Definition in_stock (E : Externals) (products : list Product) (item : Item)
  : Prop :=
  exists a, stock_of E products item = Some (Js.Ok a)
            /\ below E a (quantity item) = false.

(** The item asks for more than the [a] there is. *)
Definition short_by (E : Externals) (products : list Product) (item : Item)
  (a : JSON.json) : Prop :=
  stock_of E products item = Some (Js.Ok a) /\ below E a (quantity item) = true.

Definition select_event (item : Item) : Event :=
  EvSelectProduct (product_id item).

Definition stock_call (auth : string) (item : Item) : StockCall :=
  {| sc_product_id := product_id item;
     sc_authorization := auth;
     sc_color := color item;
     sc_size := size item;
     sc_quantity := quantity item |}.

(** [stockError.message || `Failed to update stock for ${...}`] in the 400
    a failed stock update answers with. *)
Definition stock_failed (item : Item) (message : option JSON.json)
  : Response Body :=
  reply 400 (BStockFailure
    {| fl_error := "Stock update failed";
       fl_message :=
         match message with
         | Some m =>
             if JSON.truthy m then m
             else JSON.JStr (cat ["Failed to update stock for "%string;
                                  product_name item])
         | None => JSON.JStr (cat ["Failed to update stock for "%string;
                                   product_name item])
         end;
       fl_product := product_name item |}).

(** What the handler answers when a stock call was not answered OK (the
    only case it is asked about): it reads the body of the answer and its
    [message]; when there is no answer to read, or the body is [null],
    that throws and the handler's catch answers. *)
Definition refusal (E : Externals) (item : Item) (stockResponse : StockResponse)
  : Response Body :=
  match stockResponse with
  | StockFailed stockError =>
      match get_prop E stockError "message" with
      | Js.Ok message => stock_failed item message
      | Js.Throw => internal_error
      end
  | _ => internal_error
  end.

(** Process stock reduction for all items. *)
Fixpoint reduce_stock (E : Externals) (auth : string) (products : list Product)
  (items : list Item) : option (Response Body) * list Product * list Event :=
  match items with
  | [] => (None, products, [])
  | item :: rest =>
      let call := stock_call auth item in
      let '(stockResponse, products') := stock_put E call products in
      match stockResponse with
      | StockOk =>
          let '(r, ps, evs) := reduce_stock E auth products' rest in
          (r, ps, EvStockPut call stockResponse :: evs)
      | _ =>
          (Some (refusal E item stockResponse), products',
           [EvStockPut call stockResponse])
      end
  end.

(** The products table after the stock calls of a trace, replayed in
    order. *)
Fixpoint replay (E : Externals) (evs : list Event) (products : list Product)
  : list Product :=
  match evs with
  | [] => products
  | EvStockPut call _ :: evs' => replay E evs' (snd (stock_put E call products))
  | _ :: evs' => replay E evs' products
  end.

(** Insert order items: the rows, numbered from [next]. *)
Fixpoint insert_items (orderId next : Z) (items : list Item) : list OrderItem :=
  match items with
  | [] => []
  | item :: rest =>
      {| oi_id := next; oi_order_id := orderId;
         oi_product_id := product_id item; oi_quantity := quantity item;
         oi_size := Js.or_null (Some (size item));
         oi_color := Js.or_null (Some (color item));
         oi_price := Some (price item) |}
      :: insert_items orderId (next + 1) rest
  end.

(** [order.shipping_address ? JSON.parse(order.shipping_address) : null] *)
Definition parse_address (E : Externals) (text : option string)
  : Js.result (option JSON.json) :=
  match text with
  | Some t =>
      if Js.truthy_str text then
        match json_parse E t with
        | Some v => Js.Ok (Some v)
        | None => Js.Throw
        end
      else Js.Ok None
  | None => Js.Ok None
  end.

(** [shipping_address || {}] *)
Definition address_or_empty (b : OrderBody) : JSON.json :=
  match shipping_address b with
  | Some a => if JSON.truthy a then a else JSON.JObj []
  | None => JSON.JObj []
  end.

(** No stored order and no stored item carries an order id that
    AUTO_INCREMENT has yet to hand out. *)
Definition fresh (db : Db) : Prop :=
  Forall (fun o : Order => o_id o < next_order_id db) (orders db)
  /\ Forall (fun i : OrderItem => oi_order_id i < next_order_id db)
            (order_items db).

(** The engine reads back what it wrote for [a]: the text is not empty and
    parses to [a].  JavaScript does so for every value that came out of
    JSON.parse, a request body among them. *)
Definition reads_back (E : Externals) (a : JSON.json) : Prop :=
  json_stringify E a <> EmptyString
  /\ json_parse E (json_stringify E a) = Some a.

(** What the order routes keep true of the database: ids are fresh, and
    every stored [shipping_address] parses. *)
Definition consistent (E : Externals) (db : Db) : Prop :=
  fresh db
  /\ forall o, In o (orders db) ->
               parse_address E (o_shipping_address o) <> Js.Throw.

(** The row INSERT INTO orders writes: [buyer] is the value bound to
    [user_id] and [screenshot] the one bound to [payment_screenshot]; the
    columns the statement leaves out take their defaults. *)
Definition new_order (E : Externals) (now : Z) (buyer screenshot : option string)
  (b : OrderBody) (orderId : Z) : Order :=
  {| o_id := orderId;
     o_user_id := buyer;
     o_order_number := cat ["GK"%string; num_to_string now];
     o_status := Js.or_str (status b) "pending";
     o_payment_status := default_payment_status E;
     o_payment_method := Js.or_null (payment_method b);
     o_payment_screenshot := screenshot;
     o_subtotal := default_amount E;
     o_tax_amount := default_amount E;
     o_shipping_amount := default_amount E;
     o_discount_amount := default_amount E;
     o_total_amount :=
       sql_decimal E
         (match total b with
          | Some t => if JSON.truthy t then t else JSON.JNum 0
          | None => JSON.JNum 0
          end);
     o_shipping_address := Some (json_stringify E (address_or_empty b));
     o_billing_address := None;
     o_notes := None;
     o_tracking_number := None;
     o_created_at := now;
     o_updated_at := now |}.

(** The database once the order and its items are in. *)
Definition with_order (db : Db) (products' : list Product) (row : Order)
  (rows : list OrderItem) : Db :=
  {| products := products';
     orders := orders db ++ [row];
     order_items := order_items db ++ rows;
     next_order_id := next_order_id db + 1;
     next_item_id := next_item_id db + Z.of_nat (List.length rows) |}.

Definition with_products (db : Db) (products' : list Product) : Db :=
  {| products := products'; orders := orders db;
     order_items := order_items db;
     next_order_id := next_order_id db;
     next_item_id := next_item_id db |}.

Definition insert_events (orderId : Z) (its : list Item) : list Event :=
  EvInsertOrder orderId :: map (fun i => EvInsertItem orderId (product_id i)) its.

(** Fetch the created order with items, parse its address, and answer. *)
Definition fetch_created (E : Externals) (orderId : Z) (db : Db) : Response Body :=
  let newOrder := filter (fun o => o_id o =? orderId) (orders db) in
  let orderItems := filter (fun i => oi_order_id i =? orderId) (order_items db) in
  match newOrder with
  | [] => internal_error
  | order :: _ =>
      match parse_address E (o_shipping_address order) with
      | Js.Throw => internal_error
      | Js.Ok parsed =>
          reply 201 (BOrder
            {| wi_order := convert_order (render_decimal E) (fun _ => parsed) order;
               wi_items := map (select_item E) orderItems |})
      end
  end.

(** Everything POST does once the required fields are there. *)
Definition create_order (E : Externals) (now : Z) (auth : option string)
  (buyer screenshot : option string) (b : OrderBody) (its : list Item) (db : Db)
  : Response Body * Db * list Event :=
  (* Validate stock availability for all items before creating order *)
  let '(checked, evs1) := validate_stock E (products db) its in
  match checked with
  | Js.Throw => (internal_error, db, evs1)
  | Js.Ok (Some r) => (r, db, evs1)
  | Js.Ok None =>
      (* Process stock reduction for all items *)
      let '(failed, products', evs2) :=
        reduce_stock E (Js.or_str auth "") (products db) its in
      match failed with
      | Some r => (r, with_products db products', evs1 ++ evs2)
      | None =>
          (* Generate order number, create the order, insert order items *)
          let orderId := next_order_id db in
          let row := new_order E now buyer screenshot b orderId in
          let rows := insert_items orderId (next_item_id db) its in
          let db2 := with_order db products' row rows in
          (fetch_created E orderId db2, db2,
           evs1 ++ evs2 ++ insert_events orderId its)
      end
  end.

(** [!items || !Array.isArray(items) || items.length === 0] *)
Definition no_items (b : OrderBody) : bool :=
  match items b with
  | Some (_ :: _) => false
  | _ => true
  end.

(** [!total || !customer_email] *)
Definition no_total_or_email (b : OrderBody) : bool :=
  negb (match total b with Some t => JSON.truthy t | None => false end)
  || negb (Js.truthy_str (customer_email b)).

Definition items_required : Response Body :=
  reply 400 (BError "Order items are required").
Definition total_and_email_required : Response Body :=
  reply 400 (BError "Total amount and customer email are required").

(** *** What the facts about order creation are stated with *)

(** Modelled from the spec: the available stock of an item as the
    specification computes it, [variants[item.color][item.size]], 0 if
    absent.  The product is the first row of [products] under the item's
    [product_id] and its [variants] text parses to a mapping; the stock is
    the count the mapping holds under the item's color and size, and 0
    when the mapping has nothing under that color, or nothing under that
    size for the color. *)
Inductive spec_stock (E : Externals) (products : list Product) (item : Item)
  : Z -> Prop :=
| stock_counted product others text m sizes n :
    filter (fun p => p_id p =? product_id item) products = product :: others ->
    p_variants product = Some text -> text <> EmptyString ->
    json_parse E text = Some (JSON.JObj m) ->
    JSON.get_member (color item) m = Some (JSON.JObj sizes) ->
    JSON.get_member (size item) sizes = Some (JSON.JNum n) ->
    spec_stock E products item n
| stock_without_color product others text m :
    filter (fun p => p_id p =? product_id item) products = product :: others ->
    p_variants product = Some text -> text <> EmptyString ->
    json_parse E text = Some (JSON.JObj m) ->
    JSON.get_member (color item) m = None ->
    inherited E (JSON.JObj m) (color item) = None ->
    spec_stock E products item 0
| stock_without_size product others text m sizes :
    filter (fun p => p_id p =? product_id item) products = product :: others ->
    p_variants product = Some text -> text <> EmptyString ->
    json_parse E text = Some (JSON.JObj m) ->
    JSON.get_member (color item) m = Some (JSON.JObj sizes) ->
    JSON.get_member (size item) sizes = None ->
    inherited E (JSON.JObj sizes) (size item) = None ->
    spec_stock E products item 0.

(** The trace entry of a stock call that was answered OK, and of one that
    was not. *)
Definition ok_event (auth : string) (item : Item) : Event :=
  EvStockPut (stock_call auth item) StockOk.

Definition failed_event (auth : string) (item : Item) (answer : StockResponse)
  : Event :=
  EvStockPut (stock_call auth item) answer.

(** The four ways order creation ends once the required fields are
    there. *)
Inductive outcome (E : Externals) (now : Z) (auth : option string)
  (buyer screenshot : option string) (b : OrderBody) (its : list Item) (db : Db)
  : Response Body * Db * list Event -> Prop :=
| refused r n :
    resp_status r = 400 ->
    validate_stock E (products db) its
    = (Js.Ok (Some r), map select_event (firstn n its)) ->
    outcome E now auth buyer screenshot b its db
      (r, db, map select_event (firstn n its))
| crashed n :
    outcome E now auth buyer screenshot b its db
      (internal_error, db, map select_event (firstn n its))
| stock_refused pre it post answer ps' :
    Forall (in_stock E (products db)) its ->
    its = pre ++ it :: post ->
    answer <> StockOk ->
    reduce_stock E (Js.or_str auth "") (products db) its
    = (Some (refusal E it answer), ps',
       map (ok_event (Js.or_str auth "")) pre
       ++ [failed_event (Js.or_str auth "") it answer]) ->
    outcome E now auth buyer screenshot b its db
      (refusal E it answer, with_products db ps',
       map select_event its
       ++ map (ok_event (Js.or_str auth "")) pre
       ++ [failed_event (Js.or_str auth "") it answer])
| inserted ps' :
    Forall (in_stock E (products db)) its ->
    reduce_stock E (Js.or_str auth "") (products db) its
    = (None, ps', map (ok_event (Js.or_str auth "")) its) ->
    outcome E now auth buyer screenshot b its db
      (let db2 := with_order db ps'
                    (new_order E now buyer screenshot b (next_order_id db))
                    (insert_items (next_order_id db) (next_item_id db) its) in
       (fetch_created E (next_order_id db) db2, db2,
        map select_event its
        ++ map (ok_event (Js.or_str auth "")) its
        ++ insert_events (next_order_id db) its)).

(** What order creation guarantees about its stock calls, for a fixed
    list of items. *)
Definition calls_disciplined (E : Externals) (auth : string) (its : list Item)
  (db : Db) (out : Response Body * Db * list Event) : Prop :=
  let '(resp, db', evs) := out in
  (forall call answer,
      In (EvStockPut call answer) evs ->
      Forall (in_stock E (products db)) its
      /\ (exists rest, evs = map select_event its ++ rest)
      /\ exists item, In item its /\ call = stock_call auth item)
  /\ (forall call answer,
         In (EvStockPut call answer) evs -> answer <> StockOk ->
         (exists pre, evs = pre ++ [EvStockPut call answer])
         /\ (exists item,
                In item its
                /\ call = stock_call auth item /\ resp = refusal E item answer)
         /\ orders db' = orders db /\ order_items db' = order_items db)
  /\ products db' = replay E evs (products db).

(** SET status = ?, tracking_number = ?, updated_at = NOW() *)
Definition set_status (st : string) (tracking : option string) (now : Z)
  (o : Order) : Order :=
  {| o_id := o_id o; o_user_id := o_user_id o;
     o_order_number := o_order_number o;
     o_status := st;
     o_payment_status := o_payment_status o;
     o_payment_method := o_payment_method o;
     o_payment_screenshot := o_payment_screenshot o;
     o_subtotal := o_subtotal o;
     o_tax_amount := o_tax_amount o;
     o_shipping_amount := o_shipping_amount o;
     o_discount_amount := o_discount_amount o;
     o_total_amount := o_total_amount o;
     o_shipping_address := o_shipping_address o;
     o_billing_address := o_billing_address o;
     o_notes := o_notes o;
     o_tracking_number := tracking;
     o_created_at := o_created_at o;
     o_updated_at := now |}.

(** WHERE id = ? AND user_id = ? *)
Definition id_and_owner (E : Externals) (id uid : string) (o : Order) : bool :=
  sql_id_eq E id (o_id o)
  && match o_user_id o with
     | Some u => String.eqb u uid
     | None => false
     end.

Definition with_orders (db : Db) (rows : list Order) : Db :=
  {| products := products db;
     orders := rows;
     order_items := order_items db;
     next_order_id := next_order_id db;
     next_item_id := next_item_id db |}.

(** PUT - Update order status: the same text in both files. *)
Definition PUT (E : Externals) (now : Z) (req : Request OrderBody) (db : Db)
  : Response Body * Db :=
  match getUserFromToken E (authorization req) with
  | None => (unauthorized, db)
  | Some user =>
      match query_id req with
      | None => (reply 400 (BError "Order ID is required"), db)
      | Some id =>
          if negb (Js.truthy_str (query_id req))
          then (reply 400 (BError "Order ID is required"), db)
          else
            match json_body req with
            | Js.Throw => (internal_error, db)
            | Js.Ok b =>
                match status b with
                | None => (reply 400 (BError "Status is required"), db)
                | Some st =>
                    if negb (Js.truthy_str (status b))
                    then (reply 400 (BError "Status is required"), db)
                    else
                      let mine := id_and_owner E id (user_id_of user) in
                      let affectedRows := count_rows mine (orders db) in
                      let db2 :=
                        with_orders db
                          (update_where mine
                             (set_status st (Js.or_null (tracking_number b)) now)
                             (orders db)) in
                      if affectedRows =? 0
                      then (reply 404 (BError "Order not found or unauthorized"),
                            db2)
                      else
                        (* Fetch the updated order *)
                        let updatedOrder := filter mine (orders db2) in
                        match updatedOrder with
                        | [] => (reply 404 (BError "Order not found"), db2)
                        | order :: _ =>
                            match parse_address E (o_shipping_address order) with
                            | Js.Throw => (internal_error, db2)
                            | Js.Ok parsed =>
                                (* [orders] has no [items] column:
                                   [order.items] is undefined *)
                                (reply 200 (BOrder
                                   {| wi_order :=
                                        convert_order (render_decimal E)
                                          (fun _ => parsed) order;
                                      wi_items := [] |}),
                                 db2)
                            end
                        end
                end
            end
      end
  end.

End OrderData.


(* ================================================================== *)
(** ** The orders route that takes the buyer from the token
       (src/unnamed/part_000) *)

Module Orders.
Import OrderData.

Definition owner_is (uid : string) {N A} (o : OrderCols N A) : bool :=
  match o_user_id o with
  | Some u => String.eqb u uid
  | None => false
  end.

(** The line items of one order, joined with their products, with
    [quantity] and [price] through [Number]. *)
Definition listed_items (E : Externals) (db : Db) (order_id : Z)
  : list ListedItem :=
  flat_map
    (fun oi : OrderItem =>
       map (fun p =>
              {| li_id := oi_id oi;
                 li_quantity := Number (CNumber (oi_quantity oi));
                 li_price := Number (render_decimal E (oi_price oi));
                 li_size := oi_size oi;
                 li_color := oi_color oi;
                 li_name := p_name p;
                 li_brand := p_brand p;
                 li_image_url := p_image_url p |})
           (filter (fun p => p_id p =? oi_product_id oi) (products db)))
    (filter (fun oi => oi_order_id oi =? order_id) (order_items db)).

(** What the listing makes of one order row. *)
Definition list_order (E : Externals) (db : Db) (order : OrderRow)
  : Js.result ListedOrder :=
  let processedItems := listed_items E db (o_id order) in
  parsed <- parse_address E (o_shipping_address order) ;;
  Js.Ok {| lo_id := o_id order;
           lo_order_number := o_order_number order;
           lo_status := o_status order;
           lo_payment_status := o_payment_status order;
           lo_payment_method := o_payment_method order;
           lo_subtotal := Number (o_subtotal order);
           lo_tax_amount := Number (o_tax_amount order);
           lo_shipping_amount := Number (o_shipping_amount order);
           lo_discount_amount := Number (o_discount_amount order);
           lo_total := Number (o_total_amount order);
           lo_shipping_address := parsed;
           lo_billing_address := o_billing_address order;
           lo_notes := o_notes order;
           lo_created_at := o_created_at order;
           lo_updated_at := o_updated_at order;
           lo_items := processedItems |}.

(** [Promise.all(orders.map(...))]: one rejection rejects the whole. *)
Fixpoint all {A B} (f : A -> Js.result B) (l : list A) : Js.result (list B) :=
  match l with
  | [] => Js.Ok []
  | x :: l' =>
      y <- f x ;;
      ys <- all f l' ;;
      Js.Ok (y :: ys)
  end.

(** GET - Fetch user orders *)
Definition GET (E : Externals) (req : Request OrderBody) (db : Db)
  : Response Body * Db :=
  match getUserFromToken E (authorization req) with
  | None => (unauthorized, db)
  | Some user =>
      let orders :=
        map (select_order E)
            (order_by_desc o_created_at
               (filter (owner_is (user_id_of user)) (orders db))) in
      match all (list_order E db) orders with
      | Js.Throw => (internal_error, db)
      | Js.Ok ordersWithItems => (reply 200 (BListed ordersWithItems), db)
      end
  end.

(** POST - Create new order *)
Definition POST (E : Externals) (now : Z) (req : Request OrderBody) (db : Db)
  : Response Body * Db * list Event :=
  (* Get user from JWT token *)
  match getUserFromToken E (authorization req) with
  | None => (unauthorized, db, [])
  | Some user =>
      match json_body req with
      | Js.Throw => (internal_error, db, [])
      | Js.Ok b =>
          (* Validate required fields *)
          match items b with
          | Some (i :: its) =>
              if no_total_or_email b then (total_and_email_required, db, [])
              else create_order E now (authorization req)
                     (Some (user_id_of user))
                     (Js.or_null (payment_screenshot b)) b (i :: its) db
          | _ => (items_required, db, [])
          end
      end
  end.

(** PUT - Update order status *)
Definition PUT := OrderData.PUT.

End Orders.

(* ================================================================== *)
(** ** The orders route that takes the buyer from the request body
       (src/app/api/orders/route.ts, first half) *)

Module OrdersByBody.
Import OrderData.

(** GET - Fetch user orders: the rows as selected. *)
Definition GET (E : Externals) (req : Request OrderBody) (db : Db)
  : Response Body * Db :=
  match getUserFromToken E (authorization req) with
  | None => (unauthorized, db)
  | Some user =>
      let orders :=
        map (select_order E)
            (order_by_desc o_created_at
               (filter (Orders.owner_is (user_id_of user)) (orders db))) in
      (reply 200 (BRows orders), db)
  end.

(** POST - Create new order.  No token is read; [user_id] comes off the
    body, and the INSERT names no [payment_screenshot]. *)
Definition POST (E : Externals) (now : Z) (req : Request OrderBody) (db : Db)
  : Response Body * Db * list Event :=
  match json_body req with
  | Js.Throw => (internal_error, db, [])
  | Js.Ok b =>
      (* Validate required fields *)
      match items b with
      | Some (i :: its) =>
          if no_total_or_email b then (total_and_email_required, db, [])
          else create_order E now (authorization req)
                 (Js.or_null (user_id b)) None b (i :: its) db
      | _ => (items_required, db, [])
      end
  end.

(** PUT - Update order status *)
Definition PUT := OrderData.PUT.

End OrdersByBody.


(* ================================================================== *)
(** ** A small shop to run the handlers on *)

Module Shop.
Import OrderData.

(** Modelled from the spec: the stock-adjustment endpoint
    (/api/products/stock, whose route file is not among the sources).  It
    accepts [{color, size, quantity}] for a product id and takes
    [quantity] off [variants[color][size]]; on insufficient stock or any
    other failure it answers not-OK with a [message].  The facts below hold
    for every stock endpoint; this one is what the examples run on. *)
Definition take_stock (call : StockCall) (p : Product) : option Product :=
  match p_variants p with
  | Some text =>
      match JSON.parse text with
      | Some (JSON.JObj m) =>
          match JSON.get_member (sc_color call) m with
          | Some (JSON.JObj sizes) =>
              match JSON.get_member (sc_size call) sizes with
              | Some (JSON.JNum n) =>
                  if n <? sc_quantity call then None
                  else
                    let sizes' := JSON.set_member (sc_size call)
                                    (JSON.JNum (n - sc_quantity call)) sizes in
                    let m' :=
                      JSON.set_member (sc_color call) (JSON.JObj sizes') m in
                    Some {| p_id := p_id p; p_name := p_name p;
                            p_brand := p_brand p;
                            p_image_url := p_image_url p;
                            p_variants := Some (JSON.stringify (JSON.JObj m'));
                            p_stock_quantity :=
                              p_stock_quantity p - sc_quantity call |}
              | _ => None
              end
          | _ => None
          end
      | _ => None
      end
  | None => None
  end.

(** The body of a not-OK answer that carries a message. *)
Definition with_message (m : string) : JSON.json :=
  JSON.JObj [("message"%string, JSON.JStr m)].

(** Modelled from the spec: the endpoint's answer to one call, on the
    products table it keeps the stock in. *)
Fixpoint stock_endpoint (call : StockCall) (ps : list Product)
  : StockResponse * list Product :=
  match ps with
  | [] => (StockFailed (with_message "Product not found"), [])
  | p :: ps' =>
      if p_id p =? sc_product_id call then
        match take_stock call p with
        | Some p' => (StockOk, p' :: ps')
        | None => (StockFailed (with_message "Insufficient stock"), p :: ps')
        end
      else
        let '(r, ps'') := stock_endpoint call ps' in (r, p :: ps'')
  end.

Definition alice : Claims := {| userId := "u1"; claim_email := "a@b.com" |}.
Definition bob : Claims := {| userId := "u2"; claim_email := "bob@b.com" |}.

(** The functions every JavaScript object inherits from Object.prototype,
    by the name they are reached under, each with its own [name]. *)
Definition object_prototype : list (string * string) :=
  [("constructor", "Object"); ("hasOwnProperty", "hasOwnProperty");
   ("isPrototypeOf", "isPrototypeOf");
   ("propertyIsEnumerable", "propertyIsEnumerable");
   ("toLocaleString", "toLocaleString"); ("toString", "toString");
   ("valueOf", "valueOf"); ("__defineGetter__", "__defineGetter__");
   ("__defineSetter__", "__defineSetter__");
   ("__lookupGetter__", "__lookupGetter__");
   ("__lookupSetter__", "__lookupSetter__")]%string.

Fixpoint assoc (k : string) (l : list (string * string)) : option string :=
  match l with
  | [] => None
  | (k', v) :: l' => if String.eqb k k' then Some v else assoc k l'
  end.

(** The part of JavaScript's property lookup the examples reach: a plain
    object inherits the functions of Object.prototype, a function has its
    [name], a string and an array have their [length]. *)
Definition lookup (v : JSON.json) (k : string) : option JSON.json :=
  match v with
  | JSON.JObj _ =>
      match assoc k object_prototype with
      | Some f => Some (JSON.JBuiltin f)
      | None => None
      end
  | JSON.JBuiltin f => if String.eqb k "name" then Some (JSON.JStr f) else None
  | JSON.JStr s =>
      if String.eqb k "length" then Some (JSON.JNum (Z.of_nat (String.length s)))
      else None
  | JSON.JArr l =>
      if String.eqb k "length" then Some (JSON.JNum (Z.of_nat (List.length l)))
      else None
  | _ => None
  end.

(** [v < n] as the examples need it: [true] and [false] count as 1 and 0,
    a string of digits as its number, and what converts to no number (NaN)
    is below nothing. *)
Definition less_than (v : JSON.json) (n : Z) : bool :=
  match v with
  | JSON.JBool b => (if b then 1 else 0) <? n
  | JSON.JStr s =>
      match JSON.parse s with
      | Some (JSON.JNum k) => k <? n
      | _ => false
      end
  | _ => false
  end.

(** A value in a template literal, as the examples need it: a string is
    itself.  (The examples reach no array and no function here; they are
    written as an object is.) *)
Definition in_text (v : JSON.json) : string :=
  match v with
  | JSON.JStr s => s
  | JSON.JReal text => text
  | JSON.JBool true => "true"
  | JSON.JBool false => "false"
  | JSON.JNull => "null"
  | JSON.JNum z => num_to_string z
  | _ => "[object Object]"
  end.

(** The shop behind a given stock endpoint.  Two tokens verify, everything
    else makes [jwt.verify] throw; JSON is read and written by the codec
    above. *)
Definition behind (stock : StockCall -> list Product -> StockResponse * list Product)
  : Externals :=
  {| jwt_verify := fun token =>
       if String.eqb token "alice-token" then Js.Ok alice
       else if String.eqb token "bob-token" then Js.Ok bob
       else Js.Throw;
     stock_put := stock;
     sql_id_eq := fun text key => String.eqb text (num_to_string key);
     sql_decimal := fun v => match v with JSON.JNum z => Some z | _ => None end;
     decimal_as_text := true;
     default_payment_status := Some "pending"%string;
     default_amount := Some 0;
     json_parse := JSON.parse;
     json_stringify := JSON.stringify;
     inherited := lookup;
     coerced_lt := less_than;
     to_text := in_text |}.

Definition externals : Externals := behind stock_endpoint.

(** The same shop behind a stock endpoint that refuses every call and
    gives no message. *)
Definition refusing : Externals :=
  behind (fun _ ps => (StockFailed (JSON.JObj []), ps)).

(** The same shop behind a stock endpoint whose refusals are no JSON (the
    page of a proxy, say). *)
Definition garbled : Externals := behind (fun _ ps => (StockThrows, ps)).

Definition red_M (n : Z) : JSON.json :=
  JSON.JObj [("red"%string, JSON.JObj [("M"%string, JSON.JNum n)])].

Definition shoe : Product :=
  {| p_id := 1; p_name := "Runner"; p_brand := "Gkicks"; p_image_url := "/r.png";
     p_variants := Some (JSON.stringify (red_M 5)); p_stock_quantity := 10 |}.

(** A product whose [variants] is no JSON. *)
Definition corrupt : Product :=
  {| p_id := 2; p_name := "Broken"; p_brand := "Gkicks"; p_image_url := "/b.png";
     p_variants := Some "{bad"%string; p_stock_quantity := 3 |}.

Definition db0 : Db :=
  {| products := [shoe; corrupt]; orders := []; order_items := [];
     next_order_id := 1; next_item_id := 1 |}.

Definition item (pid qty : Z) : Item :=
  {| product_id := pid; product_name := "Runner"; color := "red"; size := "M";
     quantity := qty; price := 500 |}.


Definition home : JSON.json :=
  JSON.JObj [("line1"%string, JSON.JStr "12 Mabini St");
             ("city"%string, JSON.JStr "Manila");
             ("zip"%string, JSON.JNum 1000)].

Definition order_body (its : list Item) (tot : option JSON.json) : OrderBody :=
  {| user_id := None; items := Some its; total := tot;
     customer_email := Some "a@b.com"%string;
     shipping_address := Some home; payment_method := Some "gcash"%string;
     payment_screenshot := None; status := None; tracking_number := None |}.

Definition request {B} (auth : option string) (qid : option string) (b : B)
  : Request B :=
  {| authorization := auth; query_id := qid; json_body := Js.Ok b |}.

Definition as_alice : option string := Some "Bearer alice-token"%string.
Definition as_bob : option string := Some "Bearer bob-token"%string.

(** The example of the specification: two red/M pairs of product 1. *)
Definition example_request : Request OrderBody :=
  request as_alice None (order_body [item 1 2] (Some (JSON.JNum 1000))).

End Shop.


(** The shop after Alice's example order, and its addresses. *)
Module ShopLater.
Import OrderData.

Definition db1 : Db :=
  Eval vm_compute in
    snd (fst (Orders.POST Shop.externals 1700000000000 Shop.example_request Shop.db0)).

Definition status_body (st : string) : OrderBody :=
  {| user_id := None; items := None; total := None; customer_email := None;
     shipping_address := None; payment_method := None;
     payment_screenshot := None; status := Some st;
     tracking_number := Some "TRK-1"%string |}.

Definition address (aid : Z) (uid : string) (dflt : bool) : Addresses.Address :=
  {| Addresses.a_id := aid; Addresses.a_user_id := uid;
     Addresses.a_first_name := "Ana"; Addresses.a_last_name := "Cruz";
     Addresses.a_address_line_1 := "12 Mabini St";
     Addresses.a_address_line_2 := "";
     Addresses.a_city := "Manila"; Addresses.a_state := "";
     Addresses.a_postal_code := "1000"; Addresses.a_country := "Philippines";
     Addresses.a_phone := ""; Addresses.a_is_default := dflt;
     Addresses.a_created_at := 5 |}.

(** Alice holds two addresses both flagged default, Bob one. *)
Definition book : Addresses.Db :=
  {| Addresses.addresses :=
       [address 1 "u1" true; address 2 "u1" true; address 3 "u2" true];
     Addresses.next_address_id := 4 |}.

(** Alice's book once it has a single default, address 1. *)
Definition tidy_book : Addresses.Db :=
  {| Addresses.addresses :=
       [address 1 "u1" true; address 2 "u1" false; address 3 "u2" true];
     Addresses.next_address_id := 4 |}.

Definition address_body (aid : option Z) (dflt : option JSON.json)
  : Addresses.AddressBody :=
  {| Addresses.id := aid;
     Addresses.address_line_1 := Some "7 Rizal Ave"%string;
     Addresses.address_line_2 := None;
     Addresses.city := Some "Cebu"%string;
     Addresses.state := None;
     Addresses.postal_code := None;
     Addresses.country := None;
     Addresses.first_name := Some "Ana"%string;
     Addresses.last_name := Some "Cruz"%string;
     Addresses.phone := None;
     Addresses.is_default := dflt |}.

End ShopLater.


(* ================================================================== *)
(** ** What the facts about listings, address books and order tables are
       stated with *)

(** The order ORDER BY key DESC leaves rows in, with [then_by] between
    rows of equal key. *)
Definition desc_then {A} (key : A -> Z) (then_by : A -> A -> Prop) (a b : A)
  : Prop :=
  key b < key a \/ (key a = key b /\ then_by a b).

Module AddressBook.
Import Addresses.

(** [is_default] as ORDER BY compares it. *)
Definition default_key (a : Address) : Z := if a_is_default a then 1 else 0.

(** ORDER BY is_default DESC, created_at DESC *)
Definition default_first_then_newest : Address -> Address -> Prop :=
  desc_then default_key (fun a a' => a_created_at a' <= a_created_at a).

(** The rows of everyone but [uid], in table order. *)
Definition of_others (uid : string) (db : Db) : list Address :=
  filter (fun a => negb (owned_by uid a)) (addresses db).

(** [id] is a key, and AUTO_INCREMENT has yet to hand out its next
    value. *)
Definition well_keyed (db : Db) : Prop :=
  NoDup (map a_id (addresses db))
  /\ Forall (fun a => a_id a < next_address_id db) (addresses db).

(** No user has two addresses flagged default. *)
Definition single_default (db : Db) : Prop :=
  forall uid, (List.length (defaults_of uid db) <= 1)%nat.

Definition tidy (db : Db) : Prop := well_keyed db /\ single_default db.

(** WHERE id = ? AND user_id = ?, as DELETE binds it. *)
Definition to_delete (E : Externals) (addressId uid : string) (a : Address)
  : bool :=
  sql_id_eq E addressId (a_id a) && owned_by uid a.

(** WHERE id = ? AND user_id = ?, as PUT binds it. *)
Definition to_update (aid : Z) (uid : string) (a : Address) : bool :=
  (a_id a =? aid) && owned_by uid a.

End AddressBook.


(** An address book written over time: Alice's addresses 1, 3 and 4, of
    which 3 is her default, and Bob's address 2. *)
Module Streets.

Definition written (aid : Z) (uid : string) (dflt : bool) (created : Z)
  : Addresses.Address :=
  {| Addresses.a_id := aid; Addresses.a_user_id := uid;
     Addresses.a_first_name := "Ana"; Addresses.a_last_name := "Cruz";
     Addresses.a_address_line_1 := "12 Mabini St";
     Addresses.a_address_line_2 := "";
     Addresses.a_city := "Manila"; Addresses.a_state := "";
     Addresses.a_postal_code := "1000"; Addresses.a_country := "Philippines";
     Addresses.a_phone := ""; Addresses.a_is_default := dflt;
     Addresses.a_created_at := created |}.

Definition book : Addresses.Db :=
  {| Addresses.addresses :=
       [written 1 "u1" false 10; written 2 "u2" true 20;
        written 3 "u1" true 30; written 4 "u1" false 40];
     Addresses.next_address_id := 5 |}.

Definition ana : User := {| user_id_of := "u1"; user_email := "a@b.com" |}.

(** A request of Alice's: the [id] query parameter and the body. *)
Definition from_alice (qid : option string) (b : Addresses.AddressBody)
  : Request Addresses.AddressBody :=
  Shop.request Shop.as_alice qid b.

End Streets.


Module OrderBook.
Import OrderData.

(** [Number] of a DECIMAL column, whatever the driver hands back: NULL
    counts as 0. *)
Definition amount (v : option Z) : Z :=
  match v with
  | Some z => z
  | None => 0
  end.

(** ORDER BY created_at DESC *)
Definition newest_first {N A} (o o' : OrderCols N A) : Prop :=
  o_created_at o' <= o_created_at o.

(** Two rows of [orders] that agree on every column other than [status],
    [tracking_number] and [updated_at]. *)
Definition same_but_status (o o' : Order) : Prop :=
  o_id o' = o_id o
  /\ o_user_id o' = o_user_id o
  /\ o_order_number o' = o_order_number o
  /\ o_payment_status o' = o_payment_status o
  /\ o_payment_method o' = o_payment_method o
  /\ o_payment_screenshot o' = o_payment_screenshot o
  /\ o_subtotal o' = o_subtotal o
  /\ o_tax_amount o' = o_tax_amount o
  /\ o_shipping_amount o' = o_shipping_amount o
  /\ o_discount_amount o' = o_discount_amount o
  /\ o_total_amount o' = o_total_amount o
  /\ o_shipping_address o' = o_shipping_address o
  /\ o_billing_address o' = o_billing_address o
  /\ o_notes o' = o_notes o
  /\ o_created_at o' = o_created_at o.

(** A stored [shipping_address] and what is shown for it: the value the
    engine parses the text to, and [null] for NULL and for the empty
    text. *)
Definition address_shown (E : Externals) (stored : option string)
  (shown : option JSON.json) : Prop :=
  match stored with
  | None => shown = None
  | Some t =>
      if String.eqb t EmptyString then shown = None
      else exists v, json_parse E t = Some v /\ shown = Some v
  end.

(** A stored [shipping_address] that the engine's JSON.parse throws on. *)
Definition unreadable (E : Externals) (stored : option string) : Prop :=
  exists t, stored = Some t /\ t <> EmptyString /\ json_parse E t = None.

(** What the listing of the token route shows of a stored order. *)
Definition shown_as (E : Externals) (db : Db) (o : Order) (lo : ListedOrder)
  : Prop :=
  lo_id lo = o_id o
  /\ lo_order_number lo = o_order_number o
  /\ lo_status lo = o_status o
  /\ lo_created_at lo = o_created_at o
  /\ lo_subtotal lo = amount (o_subtotal o)
  /\ lo_tax_amount lo = amount (o_tax_amount o)
  /\ lo_shipping_amount lo = amount (o_shipping_amount o)
  /\ lo_discount_amount lo = amount (o_discount_amount o)
  /\ lo_total lo = amount (o_total_amount o)
  /\ address_shown E (o_shipping_address o) (lo_shipping_address lo)
  /\ lo_items lo = Orders.listed_items E db (o_id o).

(** The order [orderId] shows in the listing of exactly the user
    [buyer]: of nobody when [buyer] is NULL. *)
Definition listed_only_for (E : Externals) (buyer : option string) (orderId : Z)
  (db : Db) : Prop :=
  forall (reader : Request OrderBody) user,
    getUserFromToken E (authorization reader) = Some user ->
    exists rows,
      OrdersByBody.GET E reader db = (reply 200 (BRows rows), db)
      /\ (Exists (fun r : OrderRow => o_id r = orderId) rows
          <-> buyer = Some (user_id_of user)).

(** The same of the listing of the route that reads the token, whenever
    that listing is answered 200. *)
Definition shown_only_to (E : Externals) (buyer : option string) (orderId : Z)
  (db : Db) : Prop :=
  forall (reader : Request OrderBody) user listed,
    getUserFromToken E (authorization reader) = Some user ->
    Orders.GET E reader db = (reply 200 (BListed listed), db) ->
    (Exists (fun lo => lo_id lo = orderId) listed
     <-> buyer = Some (user_id_of user)).

(** An item row whose product is in [products]. *)
Definition has_product (db : Db) (oi : OrderItem) : bool :=
  existsb (fun p => p_id p =? oi_product_id oi) (products db).

End OrderBook.

(** More of the shop: a product whose [variants] column holds the JSON
    text of [null], and requests that ask for it. *)
Module Backroom.
Import OrderData.

Definition voided : Product :=
  {| p_id := 3; p_name := "Ghost"; p_brand := "Gkicks"; p_image_url := "/g.png";
     p_variants := Some "null"%string; p_stock_quantity := 4 |}.

Definition db : Db :=
  {| products := [Shop.shoe; Shop.corrupt; voided]; orders := [];
     order_items := []; next_order_id := 1; next_item_id := 1 |}.

(** An order body that names its buyer. *)
Definition for_buyer (buyer : option string) (its : list Item) : OrderBody :=
  {| user_id := buyer; items := Some its;
     total := Some (JSON.JNum 1000);
     customer_email := Some "a@b.com"%string;
     shipping_address := Some Shop.home; payment_method := Some "gcash"%string;
     payment_screenshot := None; status := None; tracking_number := None |}.

(** The shop after Alice's example order and a second one a little
    later. *)
Definition db2 : Db :=
  Eval vm_compute in
    snd (fst (Orders.POST Shop.externals 1700000000500 Shop.example_request
                ShopLater.db1)).

End Backroom.


Module OrderJoin.
Import OrderData.

(** A listed line item made of the item row [oi] and the product row [p]
    that the JOIN pairs it with. *)
Definition joined (oid : Z) (oi : OrderItem) (p : Product) (li : ListedItem)
  : Prop :=
  oi_order_id oi = oid
  /\ p_id p = oi_product_id oi
  /\ li_id li = oi_id oi
  /\ li_quantity li = oi_quantity oi
  /\ li_price li = OrderBook.amount (oi_price oi)
  /\ li_size li = oi_size oi
  /\ li_color li = oi_color oi
  /\ li_name li = p_name p
  /\ li_brand li = p_brand p
  /\ li_image_url li = p_image_url p.

End OrderJoin.


(* ================================================================== *)
(** * Facts *)

(** ** JSON.parse after JSON.stringify *)

Module JSONFacts.
Import JSON.

Lemma json_ind' (P : json -> Prop) :
  P JNull -> (forall b, P (JBool b)) -> (forall z, P (JNum z)) ->
  (forall s, P (JStr s)) ->
  (forall l, Forall P l -> P (JArr l)) ->
  (forall m, Forall (fun kv => P (snd kv)) m -> P (JObj m)) ->
  (forall text, P (JReal text)) -> (forall name, P (JBuiltin name)) ->
  forall v, P v.
Proof.
  intros Hnull Hbool Hnum Hstr Harr Hobj Hreal Hbuiltin.
  fix IH 1.
  intros [ | b | z | s | l | m | text | name ];
    [ | | | | | | apply Hreal | apply Hbuiltin ].
  - exact Hnull.
  - apply Hbool.
  - apply Hnum.
  - apply Hstr.
  - apply Harr. induction l as [ | x l IHl ]; constructor.
    + apply IH.
    + exact IHl.
  - apply Hobj. induction m as [ | kv m IHm ]; constructor.
    + apply IH.
    + exact IHm.
Qed.

Ltac ascii_cases c :=
  destruct c as [[|] [|] [|] [|] [|] [|] [|] [|]].

Lemma escape_parse c r acc :
  parse_chars (escape_char c ++ r) acc = parse_chars r (c :: acc).
Proof. ascii_cases c; reflexivity. Qed.

Lemma parse_chars_print cs r acc :
  parse_chars (flat_map escape_char cs ++ dquote :: r) acc
  = Some (List.rev acc ++ cs, r).
Proof.
  revert acc. induction cs as [ | c cs IH ]; intros acc.
  - simpl. now rewrite app_nil_r.
  - simpl flat_map. rewrite <- app_assoc, escape_parse, IH.
    simpl. now rewrite <- app_assoc.
Qed.

Lemma parse_string_print str r :
  parse_string (flat_map escape_char (list_ascii_of_string str) ++ dquote :: r)
  = Some (str, r).
Proof.
  unfold parse_string. rewrite parse_chars_print. simpl.
  now rewrite string_of_list_ascii_of_string.
Qed.

(** *** Numbers *)

Lemma read_digits_print d r :
  num_end r = true -> read_digits (chars_of_uint d ++ r) = (d, r).
Proof.
  intros Hr. induction d as [ | d IH | d IH | d IH | d IH | d IH | d IH
                            | d IH | d IH | d IH | d IH ];
    try (simpl; rewrite IH; reflexivity).
  destruct r as [ | c r ]; [ reflexivity | ].
  simpl in *. destruct (digit_of c); [ discriminate | reflexivity ].
Qed.

Lemma nzhead_canonical d :
  Decimal.nzhead d = Decimal.Nil \/ canonical (Decimal.nzhead d) = true.
Proof.
  induction d; simpl; auto.
Qed.

Lemma canonical_unorm d : canonical (Decimal.unorm d) = true.
Proof.
  unfold Decimal.unorm.
  destruct (nzhead_canonical d) as [H | H].
  - now rewrite H.
  - destruct (Decimal.nzhead d); try discriminate; exact H.
Qed.

Lemma canonical_pos p : canonical (Pos.to_uint p) = true.
Proof.
  pose proof (DecimalPos.Unsigned.to_of (Pos.to_uint p)) as H.
  rewrite DecimalPos.Unsigned.of_to in H. simpl in H.
  rewrite H. apply canonical_unorm.
Qed.

Lemma num_end_continues r : num_end r = true -> continues_number r = false.
Proof.
  destruct r as [ | c r ]; [ reflexivity | ].
  unfold num_end. destruct (digit_of c); [ discriminate | ].
  now destruct (continues_number (c :: r)).
Qed.

(** A canonical digit string starts with a digit, which is no minus sign
    and no white space. *)
Lemma canonical_head d :
  canonical d = true ->
  exists c t, chars_of_uint d = c :: t
              /\ is_num_start c = true /\ (c =? "-")%char = false
              /\ is_ws c = false.
Proof.
  destruct d; try discriminate; intros _; simpl; eauto 10.
Qed.

Lemma parse_number_uint d r :
  canonical d = true -> num_end r = true ->
  parse_number (chars_of_uint d ++ r) = Some (JNum (Z.of_int (Decimal.Pos d)), r)
  /\ parse_number ("-"%char :: chars_of_uint d ++ r)
     = Some (JNum (Z.of_int (Decimal.Neg d)), r).
Proof.
  intros Hd Hr. split.
  - destruct (canonical_head d Hd) as (c & t & E & _ & Hm & _).
    unfold parse_number. rewrite E. cbn [app]. rewrite Hm.
    change (c :: t ++ r) with ((c :: t) ++ r). rewrite <- E.
    rewrite read_digits_print by exact Hr.
    now rewrite Hd, (num_end_continues r Hr).
  - unfold parse_number. change ("-" =? "-")%char with true. cbv iota.
    rewrite read_digits_print by exact Hr.
    now rewrite Hd, (num_end_continues r Hr).
Qed.

Lemma print_Z_head z :
  exists c t, print_Z z = c :: t /\ is_num_start c = true /\ is_ws c = false.
Proof.
  unfold print_Z. destruct z as [ | p | p ]; simpl.
  - eauto.
  - destruct (canonical_head _ (canonical_pos p)) as (c & t & E & H1 & _ & H2).
    eauto.
  - eauto.
Qed.

Lemma parse_number_print z r :
  num_end r = true -> parse_number (print_Z z ++ r) = Some (JNum z, r).
Proof.
  intros Hr. rewrite <- (DecimalZ.of_to z) at 2.
  unfold print_Z. destruct z as [ | p | p ]; simpl Z.to_int.
  - exact (proj1 (parse_number_uint (Decimal.D0 Decimal.Nil) r eq_refl Hr)).
  - exact (proj1 (parse_number_uint _ r (canonical_pos p) Hr)).
  - exact (proj2 (parse_number_uint _ r (canonical_pos p) Hr)).
Qed.

(** *** Values *)

Lemma value_start_facts c :
  is_value_start c = true ->
  is_ws c = false /\ (c =? "]")%char = false /\ (c =? "}")%char = false.
Proof. ascii_cases c; intros H; try discriminate H; repeat split. Qed.

Lemma print_head v r :
  exists c t, print v ++ r = c :: t /\ is_value_start c = true.
Proof.
  destruct v as [ | [ | ] | z | s | l | m | text | name ]; simpl; eauto.
  destruct (print_Z_head z) as (c & t & E & H & _). rewrite E. simpl.
  exists c, (t ++ r). split; [ reflexivity | ].
  unfold is_value_start. now rewrite H.
Qed.

Lemma skip_ws_start c t : is_ws c = false -> skip_ws (c :: t) = c :: t.
Proof. intros H. simpl. now rewrite H. Qed.

Lemma parse_value_num f c t :
  is_num_start c = true -> is_ws c = false ->
  parse_value (S f) (c :: t) = parse_number (c :: t).
Proof.
  intros H1 H2. cbn [parse_value]. rewrite (skip_ws_start c t H2).
  now rewrite H1.
Qed.

Lemma parse_value_str f r :
  parse_value (S f) (dquote :: r)
  = match parse_string r with
    | Some (str, r') => Some (JStr str, r')
    | None => None
    end.
Proof. reflexivity. Qed.

Lemma parse_value_arr f r :
  parse_value (S f) ("["%char :: r)
  = match skip_ws r with
    | [] => None
    | c' :: r' =>
        if (c' =? "]")%char then Some (JArr [], r')
        else parse_elems f (c' :: r') []
    end.
Proof. reflexivity. Qed.

Lemma parse_value_obj f r :
  parse_value (S f) ("{"%char :: r)
  = match skip_ws r with
    | [] => None
    | c' :: r' =>
        if (c' =? "}")%char then Some (JObj [], r')
        else parse_members f (c' :: r') []
    end.
Proof. reflexivity. Qed.

Lemma parse_elems_step f s acc :
  parse_elems (S f) s acc
  = match parse_value f s with
    | None => None
    | Some (v, r) =>
        match skip_ws r with
        | [] => None
        | c :: r' =>
            if (c =? ",")%char then parse_elems f r' (acc ++ [v])
            else if (c =? "]")%char then Some (JArr (acc ++ [v]), r')
            else None
        end
    end.
Proof. reflexivity. Qed.

Lemma parse_members_step f r acc :
  parse_members (S f) (dquote :: r) acc
  = match parse_string r with
    | None => None
    | Some (k, r1) =>
        match skip_ws r1 with
        | [] => None
        | c1 :: r2 =>
            if (c1 =? ":")%char then
              match parse_value f r2 with
              | None => None
              | Some (v, r3) =>
                  match skip_ws r3 with
                  | [] => None
                  | c3 :: r4 =>
                      if (c3 =? ",")%char
                      then parse_members f r4 (set_member k v acc)
                      else if (c3 =? "}")%char
                      then Some (JObj (set_member k v acc), r4)
                      else None
                  end
              end
            else None
        end
    end.
Proof. reflexivity. Qed.

Lemma sep_by_cons {A} (f : A -> list ascii) x l :
  sep_by f (x :: l)
  = f x ++ match l with [] => [] | _ :: _ => ","%char :: sep_by f l end.
Proof. reflexivity. Qed.

Lemma parse_elems_print l :
  Forall (fun x => wf x -> roundtrips x) l -> Forall wf l -> l <> [] ->
  forall fuel acc rest,
    (list_sum (map (fun x => S (jsize x)) l) <= fuel)%nat ->
    parse_elems fuel (sep_by print l ++ "]"%char :: rest) acc
    = Some (JArr (acc ++ l), rest).
Proof.
  induction l as [ | x l IH ]; intros HP Hwf Hne fuel acc rest Hfuel;
    [ congruence | ].
  inversion HP as [ | ? ? Hx HPl ]; subst.
  inversion Hwf as [ | ? ? Hwx Hwl ]; subst.
  destruct fuel as [ | f ]; [ simpl in Hfuel; lia | ].
  simpl in Hfuel.
  rewrite parse_elems_step, sep_by_cons, <- app_assoc.
  rewrite (Hx Hwx) by (try lia; now destruct l).
  destruct l as [ | y l' ].
  - reflexivity.
  - cbn [app skip_ws]. change (is_ws ",") with false. cbv iota.
    change (("," =? ",")%char) with true. cbv iota.
    rewrite IH; try assumption; try discriminate.
    + now rewrite <- app_assoc.
    + simpl in *. lia.
Qed.

Lemma set_member_fresh k v acc :
  ~ In k (map fst acc) -> set_member k v acc = acc ++ [(k, v)].
Proof.
  induction acc as [ | [k' v'] acc IH ]; intros Hk; [ reflexivity | ].
  simpl in *. destruct (String.eqb_spec k k') as [ -> | _ ].
  - exfalso. auto.
  - rewrite IH; auto.
Qed.

Lemma parse_members_print m :
  Forall (fun kv => wf (snd kv) -> roundtrips (snd kv)) m ->
  Forall (fun kv => wf (snd kv)) m -> m <> [] ->
  forall fuel acc rest,
    NoDup (map fst (acc ++ m)) ->
    (list_sum (map (fun kv => S (jsize (snd kv))) m) <= fuel)%nat ->
    parse_members fuel (sep_by print_member m ++ "}"%char :: rest) acc
    = Some (JObj (acc ++ m), rest).
Proof.
  induction m as [ | [k x] m IH ]; intros HP Hwf Hne fuel acc rest Hnd Hfuel;
    [ congruence | ].
  inversion HP as [ | ? ? Hx HPm ]; subst.
  inversion Hwf as [ | ? ? Hwx Hwm ]; subst.
  destruct fuel as [ | f ]; [ simpl in Hfuel; lia | ].
  simpl in Hfuel, Hx, Hwx.
  rewrite sep_by_cons. unfold print_member at 1. cbn [fst snd].
  unfold print_string. cbn [app]. rewrite parse_members_step.
  repeat rewrite <- app_assoc. cbn [app].
  rewrite parse_string_print.
  cbn [skip_ws]. change (is_ws ":") with false. cbv iota.
  change ((":" =? ":")%char) with true. cbv iota.
  rewrite (Hx Hwx) by (try lia; now destruct m).
  assert (Hk : ~ In k (map fst acc)).
  { rewrite map_app in Hnd. simpl in Hnd.
    apply NoDup_remove_2 in Hnd. rewrite in_app_iff in Hnd. tauto. }
  rewrite (set_member_fresh k x acc Hk).
  destruct m as [ | kv m' ].
  - reflexivity.
  - cbn [app skip_ws]. change (is_ws ",") with false. cbv iota.
    change (("," =? ",")%char) with true. cbv iota.
    rewrite IH; try assumption; try discriminate.
    + now rewrite <- app_assoc.
    + now rewrite <- app_assoc.
    + simpl in *. lia.
Qed.

Lemma parse_print v : wf v -> roundtrips v.
Proof.
  induction v as [ | b | z | s | l IH | m IH | text | name ] using json_ind';
    intros Hwf fuel rest Hfuel Hrest;
    [ | | | | | | inversion Hwf | inversion Hwf ];
    (destruct fuel as [ | f ]; [ simpl in Hfuel; lia | ]).
  - reflexivity.
  - destruct b; reflexivity.
  - destruct (print_Z_head z) as (c & t & E & H1 & H2).
    simpl print. pose proof (parse_number_print z rest Hrest) as Hn.
    rewrite E in *. cbn [app] in *. now rewrite parse_value_num.
  - simpl print. unfold print_string. cbn [app].
    rewrite parse_value_str, <- app_assoc. cbn [app].
    now rewrite parse_string_print.
  - inversion Hwf as [ | | | | ? Hl | ]; subst.
    simpl print. cbn [app]. rewrite parse_value_arr, <- app_assoc. cbn [app].
    destruct l as [ | x l' ]; [ reflexivity | ].
    destruct (print_head x (match l' with [] => [] | _ :: _ => ","%char :: sep_by print l' end
                            ++ "]"%char :: rest))
      as (c & t & E & Hc).
    destruct (value_start_facts c Hc) as (Hws & Hb & _).
    pose proof (parse_elems_print (x :: l') IH Hl ltac:(discriminate) f [] rest)
      as Hp.
    rewrite sep_by_cons, <- app_assoc in *. rewrite E in *.
    rewrite (skip_ws_start c t Hws), Hb. apply Hp. simpl in *. lia.
  - inversion Hwf as [ | | | | | ? Hnd Hm ]; subst.
    change (print (JObj m) ++ rest)
      with ("{"%char :: (sep_by print_member m ++ ["}"%char]) ++ rest).
    rewrite parse_value_obj, <- app_assoc. cbn [app].
    destruct m as [ | [k x] m' ]; [ reflexivity | ].
    pose proof (parse_members_print ((k, x) :: m') IH Hm ltac:(discriminate)
                  f [] rest Hnd) as Hp.
    assert (E : exists t,
               sep_by print_member ((k, x) :: m') ++ "}"%char :: rest
               = dquote :: t) by (eexists; reflexivity).
    destruct E as [t E]. rewrite E in *.
    rewrite skip_ws_start by reflexivity.
    change ((dquote =? "}")%char) with false. cbv iota.
    apply Hp. simpl in *. lia.
Qed.

(** *** Fuel: twice the length of the text is enough *)

Lemma length_sep_by {A} (f : A -> list ascii) l :
  (list_sum (map (fun x => List.length (f x)) l) <= List.length (sep_by f l))%nat.
Proof.
  induction l as [ | x l IH ]; [ apply Nat.le_refl | ].
  rewrite sep_by_cons, length_app. cbn [map list_sum].
  destruct l; simpl in *; lia.
Qed.

Lemma list_sum_twice {A} (g h : A -> nat) l :
  Forall (fun x => g x <= 2 * h x)%nat l ->
  (list_sum (map g l) <= 2 * list_sum (map h l))%nat.
Proof.
  induction 1; simpl in *; lia.
Qed.

Lemma jsize_bound v : (S (jsize v) <= 2 * List.length (print v))%nat.
Proof.
  induction v as [ | b | z | s | l IH | m IH | text | name ] using json_ind';
    [ | | | | | | simpl; lia | simpl; lia ].
  - simpl. lia.
  - destruct b; simpl; lia.
  - destruct (print_Z_head z) as (c & t & E & _). simpl. rewrite E. simpl. lia.
  - simpl. rewrite length_app. simpl. lia.
  - pose proof (list_sum_twice _ (fun x => List.length (print x)) l IH) as H1.
    pose proof (length_sep_by print l) as H2.
    simpl. rewrite length_app. simpl. lia.
  - change (print (JObj m))
      with ("{"%char :: sep_by print_member m ++ ["}"%char]).
    assert (IH' : Forall (fun kv => S (jsize (snd kv))
                                    <= 2 * List.length (print_member kv))%nat m).
    { eapply Forall_impl; [ | exact IH ]. intros [k x] Hx. simpl in *.
      unfold print_member. rewrite length_app. simpl. lia. }
    pose proof (list_sum_twice _ (fun kv => List.length (print_member kv)) m IH') as H1.
    pose proof (length_sep_by print_member m) as H2.
    simpl. rewrite length_app. simpl. lia.
Qed.

(** JSON.parse(JSON.stringify(v)) is [v]. *)
Theorem parse_stringify v : wf v -> parse (stringify v) = Some v.
Proof.
  intros Hwf. unfold parse, stringify.
  rewrite list_ascii_of_string_of_list_ascii.
  pose proof (parse_print v Hwf (2 * List.length (print v) + 2)%nat [] ) as H.
  rewrite app_nil_r in H. rewrite H; [ reflexivity | | reflexivity ].
  pose proof (jsize_bound v). lia.
Qed.

End JSONFacts.

(* ================================================================== *)
(** ** The token check *)

Module AuthFacts.

Lemma getUserFromToken_rejects E auth :
  no_credential E auth -> getUserFromToken E auth = None.
Proof.
  intros [ -> | [ (h & -> & Hp) | (h & -> & Hv) ] ]; unfold getUserFromToken.
  - reflexivity.
  - rewrite Hp, orb_true_r. reflexivity.
  - destruct (negb _ || negb _); [ reflexivity | ].
    now rewrite Hv.
Qed.

(** A user comes back only from a header that starts with the scheme and
    whose token verifies. *)
Lemma getUserFromToken_accepts E auth user :
  getUserFromToken E auth = Some user ->
  exists h decoded,
    auth = Some h /\ String.prefix "Bearer " h = true
    /\ jwt_verify E (String.substring 7 (String.length h - 7) h) = Js.Ok decoded
    /\ user = {| user_id_of := userId decoded; user_email := claim_email decoded |}.
Proof.
  unfold getUserFromToken. destruct auth as [ h | ]; [ | discriminate ].
  destruct (String.prefix "Bearer " h) eqn:Hp;
    [ | rewrite orb_true_r; discriminate ].
  destruct (negb (Js.truthy_str (Some h))); [ discriminate | ].
  simpl. destruct (jwt_verify E _) as [ decoded | ] eqn:Hv; [ | discriminate ].
  simpl. intros [= <-]. eauto 10.
Qed.

(** Every handler that reads the token answers 401 with
    [{error: "Unauthorized"}] and writes nothing when the check fails. *)
Lemma protected_handlers_reject E now auth :
  no_credential E auth ->
  (forall q b db,
      let req := {| authorization := auth; query_id := q; json_body := b |} in
      Addresses.GET E req db = (Addresses.unauthorized, db)
      /\ Addresses.POST E now req db = (Addresses.unauthorized, db)
      /\ Addresses.PUT E req db = (Addresses.unauthorized, db)
      /\ Addresses.DELETE E req db = (Addresses.unauthorized, db))
  /\ (forall q b db,
         let req := {| authorization := auth; query_id := q; json_body := b |} in
         Orders.GET E req db = (OrderData.unauthorized, db)
         /\ Orders.POST E now req db = (OrderData.unauthorized, db, [])
         /\ Orders.PUT E now req db = (OrderData.unauthorized, db)
         /\ OrdersByBody.GET E req db = (OrderData.unauthorized, db)
         /\ OrdersByBody.PUT E now req db = (OrderData.unauthorized, db)).
Proof.
  intros H. apply getUserFromToken_rejects in H.
  split; intros q b db req; subst req;
    unfold Addresses.GET, Addresses.POST, Addresses.PUT, Addresses.DELETE,
      Orders.GET, Orders.POST, Orders.PUT, OrdersByBody.GET, OrdersByBody.PUT,
      OrderData.PUT; simpl; rewrite H; repeat split.
Qed.

End AuthFacts.

(* ================================================================== *)
(** ** Order creation: the required fields *)

Module RequiredFieldsFacts.
Import OrderData.

(** C9, as stated, fails: with an empty [items] array and a total of zero
    the answer is the one about the items. *)
Lemma zero_total_empty_items_counterexample :
  let req := Shop.request Shop.as_alice None
               (Shop.order_body [] (Some (JSON.JNum 0))) in
  JSON.truthy (JSON.JNum 0) = false
  /\ fst (fst (Orders.POST Shop.externals 1700000000000 req Shop.db0))
     = reply 400 (BError "Order items are required")
  /\ fst (fst (OrdersByBody.POST Shop.externals 1700000000000 req Shop.db0))
     = reply 400 (BError "Order items are required").
Proof. vm_compute. repeat split. Qed.

(** C9, amended: a request that gets as far as the check of [total] (its
    body is JSON and its [items] a non-empty array; on the route that reads
    the token, the token is good) and whose [total] is missing or falsy is
    answered 400 with "Total amount and customer email are required";
    nothing is looked up, called or inserted. *)
Theorem falsy_total_rejected E now req db b i its :
  json_body req = Js.Ok b ->
  items b = Some (i :: its) ->
  (forall t, total b = Some t -> JSON.truthy t = false) ->
  OrdersByBody.POST E now req db
  = (reply 400 (BError "Total amount and customer email are required"), db, [])
  /\ (forall user,
         getUserFromToken E (authorization req) = Some user ->
         Orders.POST E now req db
         = (reply 400 (BError "Total amount and customer email are required"),
            db, [])).
Proof.
  intros Hb Hi Ht.
  assert (Hn : no_total_or_email b = true).
  { unfold no_total_or_email. destruct (total b) as [ t | ]; [ | reflexivity ].
    now rewrite (Ht t eq_refl). }
  split; [ | intros user Hu ]; unfold OrdersByBody.POST, Orders.POST;
    try rewrite Hu; rewrite Hb, Hi, Hn; reflexivity.
Qed.

Lemma falsy_total_rejected_witness :
  (let req := Shop.request Shop.as_alice None
                (Shop.order_body [Shop.item 1 2] (Some (JSON.JNum 0))) in
   OrdersByBody.POST Shop.externals 5 req Shop.db0
   = (reply 400 (BError "Total amount and customer email are required"),
      Shop.db0, []))
  /\ (let req := Shop.request Shop.as_alice None
                   (Shop.order_body [Shop.item 1 2] (Some (JSON.JStr ""))) in
      Orders.POST Shop.externals 5 req Shop.db0
      = (reply 400 (BError "Total amount and customer email are required"),
         Shop.db0, [])).
Proof.
  split.
  - refine (proj1 (falsy_total_rejected Shop.externals 5
                     (Shop.request Shop.as_alice None
                        (Shop.order_body [Shop.item 1 2] (Some (JSON.JNum 0))))
                     Shop.db0
                     (Shop.order_body [Shop.item 1 2] (Some (JSON.JNum 0)))
                     (Shop.item 1 2) [] eq_refl eq_refl _)).
    intros t [= <-]. reflexivity.
  - refine (proj2 (falsy_total_rejected Shop.externals 5
                     (Shop.request Shop.as_alice None
                        (Shop.order_body [Shop.item 1 2] (Some (JSON.JStr ""))))
                     Shop.db0
                     (Shop.order_body [Shop.item 1 2] (Some (JSON.JStr "")))
                     (Shop.item 1 2) [] eq_refl eq_refl _) _ eq_refl).
    intros t [= <-]. reflexivity.
Defined.

End RequiredFieldsFacts.


(* ================================================================== *)
(** ** Order creation: the stock check and the stock calls *)

Module StockFacts.
Import OrderData.

(** *** The validation loop *)

Lemma validate_step E ps item rest :
  validate_stock E ps (item :: rest)
  = match stock_of E ps item with
    | None =>
        (Js.Ok (Some (reply 400
           (BError (cat ["Product not found: "%string; product_name item])))),
         [select_event item])
    | Some Js.Throw => (Js.Throw, [select_event item])
    | Some (Js.Ok a) =>
        if below E a (quantity item)
        then (Js.Ok (Some (insufficient E item a)), [select_event item])
        else let '(r, evs) := validate_stock E ps rest in
             (r, select_event item :: evs)
    end.
Proof.
  unfold stock_of. cbn [validate_stock].
  destruct (filter _ ps) as [ | product ? ]; [ reflexivity | ].
  destruct (availableStock_of _ _ item); reflexivity.
Qed.

(** The loop runs to its end exactly when every item is in stock. *)
Lemma validate_passed E ps its evs :
  validate_stock E ps its = (Js.Ok None, evs) ->
  Forall (in_stock E ps) its /\ evs = map select_event its.
Proof.
  revert evs. induction its as [ | item rest IH ]; intros evs.
  - simpl. intros [= <-]. split; constructor.
  - rewrite validate_step.
    destruct (stock_of E ps item) as [ [ a | ] | ] eqn:Hs; try discriminate.
    destruct (below E a (quantity item)) eqn:Hlt; [ discriminate | ].
    destruct (validate_stock E ps rest) as [r evs'] eqn:Hv.
    intros [= -> <-]. destruct (IH evs' eq_refl) as [Hall ->].
    split; [ | reflexivity ].
    constructor; [ | exact Hall ].
    exists a. split; [ exact Hs | exact Hlt ].
Qed.

Lemma validate_in_stock E ps its :
  Forall (in_stock E ps) its ->
  validate_stock E ps its = (Js.Ok None, map select_event its).
Proof.
  induction 1 as [ | item rest (a & Hs & Hq) _ IH ]; [ reflexivity | ].
  rewrite validate_step, Hs. now rewrite Hq, IH.
Qed.


(** Whatever the loop returns early is a 400, and what it did is one
    product query per item it reached. *)
Lemma validate_early E ps its r evs :
  validate_stock E ps its = (Js.Ok (Some r), evs) -> resp_status r = 400.
Proof.
  revert evs. induction its as [ | item rest IH ]; intros evs;
    [ discriminate | ].
  rewrite validate_step.
  destruct (stock_of E ps item) as [ [ a | ] | ]; try discriminate.
  - destruct (below E a (quantity item)).
    + intros [= <- _]. reflexivity.
    + destruct (validate_stock E ps rest) as [r' evs'].
      intros [= -> _]. now apply (IH evs').
  - intros [= <- _]. reflexivity.
Qed.

Lemma validate_events E ps its :
  exists n, snd (validate_stock E ps its) = map select_event (firstn n its).
Proof.
  induction its as [ | item rest (n & IH) ]; [ now exists 0%nat | ].
  rewrite validate_step.
  destruct (stock_of E ps item) as [ [ a | ] | ];
    try (now exists 1%nat).
  destruct (below E a (quantity item)); [ now exists 1%nat | ].
  destruct (validate_stock E ps rest) as [r evs]. simpl in *.
  exists (S n). simpl. now rewrite IH.
Qed.


(** When every product is there and readable, some item short of stock
    means there is a first one. *)
Lemma first_short E ps its :
  Forall (fun i => exists a, stock_of E ps i = Some (Js.Ok a)) its ->
  Exists (fun i => exists a, short_by E ps i a) its ->
  exists pre it post a,
    its = pre ++ it :: post /\ Forall (in_stock E ps) pre /\ short_by E ps it a.
Proof.
  induction its as [ | item rest IH ]; intros Hall Hex;
    [ inversion Hex | ].
  inversion Hall as [ | ? ? (a & Ha) Hall' ]; subst.
  destruct (below E a (quantity item)) eqn:Hlt.
  - exists [], item, rest, a. unfold short_by. auto.
  - assert (Hrest : Exists (fun i => exists a, short_by E ps i a) rest).
    { inversion Hex as [ ? ? (c & Hc & Hq) | ]; subst; [ | assumption ].
      rewrite Ha in Hc. injection Hc as <-. congruence. }
    destruct (IH Hall' Hrest) as (pre & it & post & c & -> & Hpre & Hc).
    exists (item :: pre), it, post, c.
    split; [ reflexivity | ]. split; [ | exact Hc ].
    constructor; [ | exact Hpre ]. exists a. auto.
Qed.

(** *** What the check reads *)

Lemma truthy_text text :
  text <> EmptyString -> Js.truthy_str (Some text) = true.
Proof.
  intros H. unfold Js.truthy_str.
  destruct (String.eqb_spec text EmptyString); [ contradiction | reflexivity ].
Qed.

Lemma parse_variants_parsed E product text v :
  p_variants product = Some text -> text <> EmptyString ->
  json_parse E text = Some v -> parse_variants E product = v.
Proof.
  intros Hv Ht Hp. unfold parse_variants.
  now rewrite Hv, (truthy_text text Ht), Hp.
Qed.


Lemma or_zero_count n : or_zero (Some (JSON.JNum n)) = JSON.JNum n.
Proof.
  unfold or_zero, JSON.truthy. destruct (Z.eqb_spec n 0) as [ -> | ]; reflexivity.
Qed.

(** In a mapping that holds the count, the check finds it; where the
    mapping holds and inherits nothing, it finds 0. *)
Lemma availableStock_counted E m item sizes n :
  JSON.get_member (color item) m = Some (JSON.JObj sizes) ->
  JSON.get_member (size item) sizes = Some (JSON.JNum n) ->
  availableStock_of E (JSON.JObj m) item = Js.Ok (JSON.JNum n).
Proof.
  intros Hc Hz. unfold availableStock_of. cbn [get_prop read_prop Js.bind].
  rewrite Hc. cbn [optional_get read_prop]. rewrite Hz.
  now rewrite or_zero_count.
Qed.

Lemma availableStock_without_color E m item :
  JSON.get_member (color item) m = None ->
  inherited E (JSON.JObj m) (color item) = None ->
  availableStock_of E (JSON.JObj m) item = Js.Ok (JSON.JNum 0).
Proof.
  intros Hc Hi. unfold availableStock_of. cbn [get_prop read_prop Js.bind].
  now rewrite Hc, Hi.
Qed.

Lemma availableStock_without_size E m item sizes :
  JSON.get_member (color item) m = Some (JSON.JObj sizes) ->
  JSON.get_member (size item) sizes = None ->
  inherited E (JSON.JObj sizes) (size item) = None ->
  availableStock_of E (JSON.JObj m) item = Js.Ok (JSON.JNum 0).
Proof.
  intros Hc Hz Hi. unfold availableStock_of. cbn [get_prop read_prop Js.bind].
  rewrite Hc. cbn [optional_get read_prop]. now rewrite Hz, Hi.
Qed.

(** The check finds the stock the specification computes. *)
Lemma spec_stock_found E ps item n :
  spec_stock E ps item n -> stock_of E ps item = Some (Js.Ok (JSON.JNum n)).
Proof.
  intros [ product others text m sizes k Hf Hv Ht Hp Hc Hz
         | product others text m Hf Hv Ht Hp Hc Hi
         | product others text m sizes Hf Hv Ht Hp Hc Hz Hi ];
    unfold stock_of; rewrite Hf;
    rewrite (parse_variants_parsed E product text _ Hv Ht Hp); f_equal.
  - exact (availableStock_counted E m item sizes k Hc Hz).
  - exact (availableStock_without_color E m item Hc Hi).
  - exact (availableStock_without_size E m item sizes Hc Hz Hi).
Qed.


Lemma spec_stock_enough E ps item n :
  spec_stock E ps item n -> quantity item <= n -> in_stock E ps item.
Proof.
  intros Hs Hq. exists (JSON.JNum n). split; [ now apply spec_stock_found | ].
  cbn [below]. now apply Z.ltb_ge.
Qed.

(** *** The stock calls *)

Lemma reduce_stock_shape E auth its : forall ps,
  match reduce_stock E auth ps its with
  | (None, ps', evs) => evs = map (ok_event auth) its /\ ps' = replay E evs ps
  | (Some resp, ps', evs) =>
      exists pre it post answer,
        its = pre ++ it :: post
        /\ answer <> StockOk
        /\ evs = map (ok_event auth) pre ++ [failed_event auth it answer]
        /\ resp = refusal E it answer
        /\ ps' = replay E evs ps
  end.
Proof.
  induction its as [ | item rest IH ]; intros ps; [ now split | ].
  cbn [reduce_stock].
  destruct (stock_put E (stock_call auth item) ps) as [answer ps1] eqn:Hput.
  destruct answer as [ | body | ].
  - specialize (IH ps1).
    destruct (reduce_stock E auth ps1 rest) as [[r ps'] evs].
    destruct r as [ resp | ].
    + destruct IH as (pre & it & post & answer & -> & Hno & -> & -> & ->).
      exists (item :: pre), it, post, answer. repeat split; [ exact Hno | ].
      simpl. now rewrite Hput.
    + destruct IH as [-> ->]. split; [ reflexivity | ].
      simpl. now rewrite Hput.
  - exists [], item, rest, (StockFailed body).
    repeat split; [ discriminate | ]. simpl. now rewrite Hput.
  - exists [], item, rest, StockThrows.
    repeat split; [ discriminate | ]. simpl. now rewrite Hput.
Qed.

Lemma refusal_status E item answer :
  resp_status (refusal E item answer) = 400
  \/ resp_status (refusal E item answer) = 500.
Proof.
  unfold refusal. destruct answer as [ | body | ]; auto.
  destruct (get_prop E body "message"); auto.
Qed.

Lemma replay_app E evs1 evs2 ps :
  replay E (evs1 ++ evs2) ps = replay E evs2 (replay E evs1 ps).
Proof.
  revert ps. induction evs1 as [ | ev evs1 IH ]; intros ps; [ reflexivity | ].
  destruct ev; simpl; apply IH.
Qed.

Lemma replay_selects E its ps : replay E (map select_event its) ps = ps.
Proof. induction its; simpl; auto. Qed.

Lemma replay_inserts E oid (its : list Item) ps :
  replay E (map (fun i => EvInsertItem oid (product_id i)) its) ps = ps.
Proof. induction its; simpl; auto. Qed.

End StockFacts.


Module CreationFacts.
Import OrderData StockFacts.

Lemma create_order_outcome E now auth buyer screenshot b its db :
  outcome E now auth buyer screenshot b its db
    (create_order E now auth buyer screenshot b its db).
Proof.
  unfold create_order.
  destruct (validate_events E (products db) its) as [n Hn].
  destruct (validate_stock E (products db) its) as [checked evs1] eqn:Hv.
  simpl in Hn. subst evs1.
  destruct checked as [ [ r | ] | ].
  - apply refused; [ | exact Hv ]. eapply validate_early; exact Hv.
  - apply validate_passed in Hv as Hp. destruct Hp as [Hall Hevs].
    rewrite Hevs.
    pose proof (reduce_stock_shape E (Js.or_str auth "") its (products db)) as Hs.
    destruct (reduce_stock E (Js.or_str auth "") (products db) its)
      as [[failed ps'] evs2] eqn:Hr.
    destruct failed as [ r | ].
    + destruct Hs as (pre & it & post & answer & Hits & Hno & -> & -> & _).
      now apply stock_refused with (post := post).
    + destruct Hs as [-> _]. now apply inserted.
  - apply crashed.
Qed.

(** The products table after order creation is what the stock calls of
    the trace left. *)
Lemma create_order_replay E now auth buyer screenshot b its db :
  let '(_, db', evs) := create_order E now auth buyer screenshot b its db in
  products db' = replay E evs (products db).
Proof.
  destruct (create_order_outcome E now auth buyer screenshot b its db)
    as [ r n _ _ | n | pre it post answer ps' _ _ _ Hr | ps' _ Hr ];
    cbv beta iota zeta; cbn [products with_products with_order].
  - now rewrite replay_selects.
  - now rewrite replay_selects.
  - rewrite replay_app, replay_selects.
    pose proof (reduce_stock_shape E (Js.or_str auth "") its (products db)) as Hs.
    rewrite Hr in Hs. destruct Hs as (? & ? & ? & ? & _ & _ & _ & _ & ->).
    reflexivity.
  - rewrite !replay_app, replay_selects.
    pose proof (reduce_stock_shape E (Js.or_str auth "") its (products db)) as Hs.
    rewrite Hr in Hs. destruct Hs as [_ ->].
    unfold insert_events. simpl. now rewrite replay_inserts.
Qed.

Lemma no_stock_put_in_selects call answer (its : list Item) :
  ~ In (EvStockPut call answer) (map select_event its).
Proof. rewrite in_map_iff. intros (? & [=] & _). Qed.

Lemma no_stock_put_in_inserts call answer oid (its : list Item) :
  ~ In (EvStockPut call answer) (insert_events oid its).
Proof.
  unfold insert_events. simpl. rewrite in_map_iff.
  intros [ [=] | (? & [=] & _) ].
Qed.

Lemma stock_put_in_oks auth call answer (its : list Item) :
  In (EvStockPut call answer) (map (ok_event auth) its) ->
  answer = StockOk /\ exists item, In item its /\ call = stock_call auth item.
Proof.
  rewrite in_map_iff. intros (item & [= <- <-] & Hin). eauto.
Qed.

End CreationFacts.


Module StockCallFacts.
Import OrderData StockFacts CreationFacts.

Lemma calls_disciplined_quiet E auth its db resp evs :
  (forall call answer, ~ In (EvStockPut call answer) evs) ->
  replay E evs (products db) = products db ->
  calls_disciplined E auth its db (resp, db, evs).
Proof.
  intros Hno Hre. split; [ | split ].
  - intros call answer Hin. now apply Hno in Hin.
  - intros call answer Hin. now apply Hno in Hin.
  - symmetry. exact Hre.
Qed.

Lemma create_order_disciplined E now auth buyer screenshot b its db :
  calls_disciplined E (Js.or_str auth "") its db
    (create_order E now auth buyer screenshot b its db).
Proof.
  pose proof (create_order_replay E now auth buyer screenshot b its db) as Hre.
  destruct (create_order_outcome E now auth buyer screenshot b its db)
    as [ r n _ _ | n | pre it post failing ps' Hall Hits Hno Hr | ps' Hall Hr ].
  - apply calls_disciplined_quiet.
    + intros call answer. apply no_stock_put_in_selects.
    + apply replay_selects.
  - apply calls_disciplined_quiet.
    + intros call answer. apply no_stock_put_in_selects.
    + apply replay_selects.
  - split; [ | split; [ | exact Hre ] ].
    + intros call answer Hin. split; [ exact Hall | ]. split; [ eauto | ].
      apply in_app_or in Hin as [ Hin | Hin ];
        [ now apply no_stock_put_in_selects in Hin | ].
      apply in_app_or in Hin as [ Hin | [ Hin | [] ] ].
      * apply stock_put_in_oks in Hin as (_ & item & Hi & ->).
        exists item. split; [ | reflexivity ].
        rewrite Hits. apply in_or_app. now left.
      * injection Hin as <- <-. exists it. split; [ | reflexivity ].
        rewrite Hits. apply in_or_app. right. now left.
    + intros call answer Hin Hbad.
      apply in_app_or in Hin as [ Hin | Hin ];
        [ now apply no_stock_put_in_selects in Hin | ].
      apply in_app_or in Hin as [ Hin | [ Hin | [] ] ];
        [ apply stock_put_in_oks in Hin as (Hok & _); contradiction | ].
      injection Hin as <- <-.
      split; [ | split; [ | split; reflexivity ] ].
      * exists (map select_event its ++ map (ok_event (Js.or_str auth "")) pre).
        now rewrite <- app_assoc.
      * exists it. split; [ | split; reflexivity ].
        rewrite Hits. apply in_or_app. right. now left.
  - cbv zeta in *. split; [ | split; [ | exact Hre ] ].
    + intros call answer Hin. split; [ exact Hall | ]. split; [ eauto | ].
      apply in_app_or in Hin as [ Hin | Hin ];
        [ now apply no_stock_put_in_selects in Hin | ].
      apply in_app_or in Hin as [ Hin | Hin ];
        [ | now apply no_stock_put_in_inserts in Hin ].
      apply stock_put_in_oks in Hin as (_ & item & Hi & ->). eauto.
    + intros call answer Hin Hbad.
      apply in_app_or in Hin as [ Hin | Hin ];
        [ now apply no_stock_put_in_selects in Hin | ].
      apply in_app_or in Hin as [ Hin | Hin ];
        [ | now apply no_stock_put_in_inserts in Hin ].
      apply stock_put_in_oks in Hin as (Hok & _). contradiction.
Qed.

(** The header a request was let in with is what [|| ''] hands on. *)
Lemma accepted_header E auth user :
  getUserFromToken E auth = Some user ->
  auth = Some (Js.or_str auth "").
Proof.
  intros Hu.
  destruct (AuthFacts.getUserFromToken_accepts E auth user Hu)
    as (h & decoded & -> & Hp & _).
  destruct h as [ | c h ]; [ discriminate | reflexivity ].
Qed.

(** What the handler answers to a refusal it can read. *)
Lemma refusal_with_message E item members m :
  JSON.get_member "message" members = Some m -> JSON.truthy m = true ->
  refusal E item (StockFailed (JSON.JObj members))
  = reply 400 (BStockFailure
      {| fl_error := "Stock update failed";
         fl_message := m;
         fl_product := product_name item |}).
Proof.
  intros Hm Ht. unfold refusal, stock_failed. cbn [get_prop read_prop].
  now rewrite Hm, Ht.
Qed.

Lemma refusal_without_message E item members :
  (JSON.get_member "message" members = None
   /\ inherited E (JSON.JObj members) "message" = None)
  \/ (exists m, JSON.get_member "message" members = Some m
                /\ JSON.truthy m = false) ->
  refusal E item (StockFailed (JSON.JObj members))
  = reply 400 (BStockFailure
      {| fl_error := "Stock update failed";
         fl_message :=
           JSON.JStr (cat ["Failed to update stock for "%string;
                           product_name item]);
         fl_product := product_name item |}).
Proof.
  unfold refusal, stock_failed. cbn [get_prop read_prop].
  intros [ [Hm Hi] | (m & Hm & Ht) ]; rewrite Hm.
  - now rewrite Hi.
  - now rewrite Ht.
Qed.

(** C3, as stated, fails: the stock endpoint refuses with a body that is
    no JSON; reading the body throws, and the request ends with the 500 of
    the handler's catch, not with a 400 that carries a message. *)
Lemma unreadable_refusal_counterexample :
  let out := Orders.POST Shop.garbled 1700000000000 Shop.example_request
               Shop.db0 in
  snd out
  = [EvSelectProduct 1;
     EvStockPut {| sc_product_id := 1;
                   sc_authorization := "Bearer alice-token";
                   sc_color := "red"; sc_size := "M"; sc_quantity := 2 |}
                StockThrows]
  /\ fst (fst out) = reply 500 (BError "Internal server error")
  /\ orders (snd (fst out)) = [].
Proof. vm_compute. repeat split. Qed.

(** C3, amended.  In every run of POST /orders:
    (1) a stock call is only ever made once every item has passed the
    stock check, and all the product queries of the check come before it
    in the trace; the call names the product of one item of the request
    and carries that item's color, size and quantity and the request's
    Authorization header;
    (2) when a call is not answered OK it is the last thing the handler
    does, and [orders] and [order_items] are as before; if the answer's
    body is a JSON object with a truthy [message], the request ends with
    the 400 "Stock update failed" carrying that message; if it is an
    object with no message, or a falsy one, the 400 carries the fallback
    text; if there is no body to read (it is no JSON, or the call itself
    failed) or the body is [null], the request ends with the 500
    "Internal server error";
    (3) the products table is left as the calls that were made left it:
    what earlier calls took off is not put back. *)
Theorem stock_calls_follow_validation E now req db :
  let '(resp, db', evs) := Orders.POST E now req db in
  (forall call answer,
      In (EvStockPut call answer) evs ->
      exists b its rest item,
        json_body req = Js.Ok b /\ items b = Some its
        /\ Forall (in_stock E (products db)) its
        /\ evs = map (fun i => EvSelectProduct (product_id i)) its ++ rest
        /\ In item its
        /\ sc_product_id call = product_id item
        /\ sc_color call = color item
        /\ sc_size call = size item
        /\ sc_quantity call = quantity item
        /\ authorization req = Some (sc_authorization call)
        /\ (answer <> StockOk ->
            (exists pre, evs = pre ++ [EvStockPut call answer])
            /\ orders db' = orders db /\ order_items db' = order_items db
            /\ resp = refusal E item answer
            /\ (forall members m,
                   answer = StockFailed (JSON.JObj members) ->
                   JSON.get_member "message" members = Some m ->
                   JSON.truthy m = true ->
                   resp = reply 400 (BStockFailure
                            {| fl_error := "Stock update failed";
                               fl_message := m;
                               fl_product := product_name item |}))
            /\ (forall members,
                   answer = StockFailed (JSON.JObj members) ->
                   (JSON.get_member "message" members = None
                    /\ inherited E (JSON.JObj members) "message" = None)
                   \/ (exists m, JSON.get_member "message" members = Some m
                                 /\ JSON.truthy m = false) ->
                   resp = reply 400 (BStockFailure
                            {| fl_error := "Stock update failed";
                               fl_message :=
                                 JSON.JStr
                                   (cat ["Failed to update stock for "%string;
                                         product_name item]);
                               fl_product := product_name item |}))
            /\ (answer = StockThrows \/ answer = StockFailed JSON.JNull ->
                resp = reply 500 (BError "Internal server error"))))
  /\ products db' = replay E evs (products db).
Proof.
  assert (Hquiet : forall resp,
             let '(resp, db', evs) := (resp, db, @nil Event) in
             (forall call answer,
                 In (EvStockPut call answer) evs ->
                 exists b its rest item,
                   json_body req = Js.Ok b /\ items b = Some its
                   /\ Forall (in_stock E (products db)) its
                   /\ evs = map (fun i => EvSelectProduct (product_id i)) its
                            ++ rest
                   /\ In item its
                   /\ sc_product_id call = product_id item
                   /\ sc_color call = color item
                   /\ sc_size call = size item
                   /\ sc_quantity call = quantity item
                   /\ authorization req = Some (sc_authorization call)
                   /\ (answer <> StockOk ->
                       (exists pre, evs = pre ++ [EvStockPut call answer])
                       /\ orders db' = orders db
                       /\ order_items db' = order_items db
                       /\ resp = refusal E item answer
                       /\ (forall members m,
                              answer = StockFailed (JSON.JObj members) ->
                              JSON.get_member "message" members = Some m ->
                              JSON.truthy m = true ->
                              resp = reply 400 (BStockFailure
                                       {| fl_error := "Stock update failed";
                                          fl_message := m;
                                          fl_product := product_name item |}))
                       /\ (forall members,
                              answer = StockFailed (JSON.JObj members) ->
                              (JSON.get_member "message" members = None
                               /\ inherited E (JSON.JObj members) "message"
                                  = None)
                              \/ (exists m,
                                     JSON.get_member "message" members = Some m
                                     /\ JSON.truthy m = false) ->
                              resp = reply 400 (BStockFailure
                                       {| fl_error := "Stock update failed";
                                          fl_message :=
                                            JSON.JStr
                                              (cat ["Failed to update stock for "%string;
                                                    product_name item]);
                                          fl_product := product_name item |}))
                       /\ (answer = StockThrows
                           \/ answer = StockFailed JSON.JNull ->
                           resp = reply 500 (BError "Internal server error"))))
             /\ products db' = replay E evs (products db)).
  { intros resp. cbv beta iota zeta. split; [ intros ? ? [] | reflexivity ]. }
  unfold Orders.POST.
  destruct (getUserFromToken E (authorization req)) as [ user | ] eqn:Hu;
    [ | apply Hquiet ].
  destruct (json_body req) as [ b | ] eqn:Hb; [ | apply Hquiet ].
  destruct (items b) as [ [ | i its ] | ] eqn:Hi; try apply Hquiet.
  destruct (no_total_or_email b); [ apply Hquiet | ].
  pose proof (create_order_disciplined E now (authorization req)
                (Some (user_id_of user)) (Js.or_null (payment_screenshot b))
                b (i :: its) db) as H.
  pose proof (accepted_header E (authorization req) user Hu) as Hauth.
  destruct (create_order _ _ _ _ _ _ _ _) as [[resp db'] evs].
  destruct H as (Ha & Hf & Hp). cbv zeta.
  split; [ | exact Hp ].
  intros call answer Hin.
  destruct (Ha call answer Hin) as (Hall & (rest & Hevs) & (item & Hitem & Hc)).
  assert (Hdec : answer = StockOk \/ answer <> StockOk)
    by (destruct answer; [ now left | right; discriminate .. ]).
  destruct Hdec as [ Hok | Hbad ].
  - exists b, (i :: its), rest, item. subst call.
    repeat (split; [ first [ reflexivity | assumption ] | ]).
    intros Hbad. contradiction.
  - destruct (Hf call answer Hin Hbad)
      as (Hlast & (item' & Hitem' & Hc' & Hr) & Ho & Hoi).
    exists b, (i :: its), rest, item'. subst call. rewrite Hc' in *.
    repeat (split; [ first [ reflexivity | assumption ] | ]).
    subst resp. split; [ | split ].
    + intros members m -> Hm Ht. now apply refusal_with_message.
    + intros members -> Hm. now apply refusal_without_message.
    + intros [ -> | -> ]; reflexivity.
Qed.

Lemma stock_calls_follow_validation_witness :
  let req := Shop.request Shop.as_alice None
               (Shop.order_body [Shop.item 1 2; Shop.item 1 4]
                  (Some (JSON.JNum 1000))) in
  let out := Orders.POST Shop.externals 1700000000000 req Shop.db0 in
  let second :=
    {| sc_product_id := 1; sc_authorization := "Bearer alice-token";
       sc_color := "red"; sc_size := "M"; sc_quantity := 4 |} in
  In (EvStockPut second (StockFailed (Shop.with_message "Insufficient stock")))
     (snd out)
  /\ Forall (in_stock Shop.externals (products Shop.db0))
            [Shop.item 1 2; Shop.item 1 4]
  /\ fst (fst out)
     = reply 400 (BStockFailure
         {| fl_error := "Stock update failed";
            fl_message := JSON.JStr "Insufficient stock";
            fl_product := "Runner" |})
  /\ orders (snd (fst out)) = orders Shop.db0
  /\ order_items (snd (fst out)) = order_items Shop.db0
  /\ products (snd (fst out)) = replay Shop.externals (snd out) (products Shop.db0)
  /\ map p_variants (products (snd (fst out)))
     = [Some (JSON.stringify (Shop.red_M 3)); Some "{bad"%string].
Proof.
  cbv zeta.
  pose proof (stock_calls_follow_validation Shop.externals 1700000000000
                (Shop.request Shop.as_alice None
                   (Shop.order_body [Shop.item 1 2; Shop.item 1 4]
                      (Some (JSON.JNum 1000))))
                Shop.db0) as H.
  destruct (Orders.POST _ _ _ _) as [[resp db'] evs] eqn:Hout.
  cbv zeta in H. destruct H as (Ha & Hp).
  assert (Hevs : evs
                 = [EvSelectProduct 1; EvSelectProduct 1;
                    EvStockPut
                      {| sc_product_id := 1;
                         sc_authorization := "Bearer alice-token";
                         sc_color := "red"; sc_size := "M"; sc_quantity := 2 |}
                      StockOk;
                    EvStockPut
                      {| sc_product_id := 1;
                         sc_authorization := "Bearer alice-token";
                         sc_color := "red"; sc_size := "M"; sc_quantity := 4 |}
                      (StockFailed (Shop.with_message "Insufficient stock"))]).
  { vm_compute in Hout. injection Hout as _ _ <-. reflexivity. }
  assert (Hin : In (EvStockPut
                      {| sc_product_id := 1;
                         sc_authorization := "Bearer alice-token";
                         sc_color := "red"; sc_size := "M"; sc_quantity := 4 |}
                      (StockFailed (Shop.with_message "Insufficient stock")))
                   evs).
  { rewrite Hevs. right. right. right. left. reflexivity. }
  destruct (Ha _ _ Hin)
    as (b & its & rest & item & Hb & Hi & Hall & _ & Hitem & _ & _ & _ & _ & _ & Hf).
  injection Hb as <-. injection Hi as <-.
  destruct (Hf ltac:(discriminate)) as (_ & Ho & Hoi & _ & Hm & _).
  specialize (Hm [("message"%string, JSON.JStr "Insufficient stock")]
                 (JSON.JStr "Insufficient stock") eq_refl eq_refl eq_refl).
  assert (Hname : product_name item = "Runner"%string)
    by (destruct Hitem as [ <- | [ <- | [] ] ]; reflexivity).
  rewrite Hname in Hm.
  cbn [fst snd].
  split; [ exact Hin | ]. split; [ exact Hall | ].
  split; [ exact Hm | ]. split; [ exact Ho | ]. split; [ exact Hoi | ].
  split; [ exact Hp | ].
  rewrite Hp, Hevs. vm_compute. reflexivity.
Defined.

(** A stock endpoint that refuses without a message: the answer carries
    the fallback text. *)
Example silent_refusal_gets_fallback_text :
  fst (fst (Orders.POST Shop.refusing 1700000000000 Shop.example_request Shop.db0))
  = reply 400 (BStockFailure
      {| fl_error := "Stock update failed";
         fl_message := JSON.JStr "Failed to update stock for Runner";
         fl_product := "Runner" |}).
Proof. reflexivity. Qed.

End StockCallFacts.


Module StockCheckFacts.
Import OrderData StockFacts CreationFacts.








End StockCheckFacts.


Module CreatedOrderFacts.
Import OrderData StockFacts CreationFacts.

(** The codec of the shop reads back what it wrote. *)
Lemma stringify_truthy v : JSON.stringify v <> EmptyString.
Proof.
  unfold JSON.stringify.
  destruct (JSONFacts.print_head v []) as (c & t & E & _).
  rewrite app_nil_r in E. now rewrite E.
Qed.

Lemma shop_reads_back stock v : JSON.wf v -> reads_back (Shop.behind stock) v.
Proof.
  intros Hwf. split; [ apply stringify_truthy | ].
  exact (JSONFacts.parse_stringify v Hwf).
Qed.

(** A stored address that the engine wrote and reads back parses to the
    value. *)
Lemma parse_address_stringify E v :
  reads_back E v -> parse_address E (Some (json_stringify E v)) = Js.Ok (Some v).
Proof.
  intros [Hne Hp]. unfold parse_address.
  now rewrite (StockFacts.truthy_text _ Hne), Hp.
Qed.

Lemma insert_items_order_id oid next its :
  Forall (fun i : OrderItem => oi_order_id i = oid) (insert_items oid next its).
Proof.
  revert next. induction its as [ | it its IH ]; intros next; simpl;
    constructor; auto.
Qed.

Lemma length_insert_items oid next its :
  List.length (insert_items oid next its) = List.length its.
Proof.
  revert next. induction its as [ | it its IH ]; intros next; simpl; auto.
Qed.

Lemma insert_items_quantities E oid next its :
  map oi_quantity (map (select_item E) (insert_items oid next its))
  = map quantity its.
Proof.
  revert next. induction its as [ | it its IH ]; intros next; simpl;
    [ | rewrite IH ]; reflexivity.
Qed.

Lemma filter_none {A} (p : A -> bool) l :
  Forall (fun x => p x = false) l -> filter p l = [].
Proof.
  induction 1 as [ | x l Hx _ IH ]; simpl; [ | rewrite Hx ]; auto.
Qed.

Lemma filter_all {A} (p : A -> bool) l :
  Forall (fun x => p x = true) l -> filter p l = l.
Proof.
  induction 1 as [ | x l Hx _ IH ]; simpl; [ | rewrite Hx, IH ]; auto.
Qed.

(** On a database whose ids are fresh, the re-read after the inserts finds
    the new row and exactly the new items. *)
Lemma fetch_created_fresh E now buyer screenshot b its db ps' :
  fresh db -> reads_back E (address_or_empty b) ->
  fetch_created E (next_order_id db)
    (with_order db ps' (new_order E now buyer screenshot b (next_order_id db))
       (insert_items (next_order_id db) (next_item_id db) its))
  = reply 201 (BOrder
      {| wi_order :=
           convert_order (render_decimal E)
             (fun _ => Some (address_or_empty b))
             (new_order E now buyer screenshot b (next_order_id db));
         wi_items :=
           map (select_item E)
               (insert_items (next_order_id db) (next_item_id db) its) |}).
Proof.
  intros [Ho Hi] Hwf. unfold fetch_created, with_order. cbn [orders order_items].
  rewrite !filter_app.
  rewrite (filter_none _ (orders db)), (filter_none _ (order_items db)).
  - cbn [filter new_order o_id app]. rewrite Z.eqb_refl.
    change (o_shipping_address
              (new_order E now buyer screenshot b (next_order_id db)))
      with (Some (json_stringify E (address_or_empty b))).
    rewrite (parse_address_stringify _ _ Hwf).
    rewrite filter_all; [ reflexivity | ].
    eapply Forall_impl; [ | apply insert_items_order_id ].
    intros i ->. apply Z.eqb_refl.
  - eapply Forall_impl; [ | exact Hi ]. intros i Hlt. cbv beta in *.
    apply Z.eqb_neq. lia.
  - eapply Forall_impl; [ | exact Ho ]. intros o Hlt. cbv beta in *.
    apply Z.eqb_neq. lia.
Qed.

End CreatedOrderFacts.


Module ListingFacts.
Import OrderData StockFacts CreationFacts CreatedOrderFacts.

Lemma In_insert_desc {A} (key : A -> Z) x y l :
  In y (insert_desc key x l) <-> y = x \/ In y l.
Proof.
  induction l as [ | z l IH ]; simpl.
  - intuition.
  - destruct (key z <=? key x); simpl; rewrite ?IH; intuition.
Qed.

(** ORDER BY keeps the rows it is given. *)
Lemma In_order_by_desc {A} (key : A -> Z) y l :
  In y (order_by_desc key l) <-> In y l.
Proof.
  unfold order_by_desc. induction l as [ | x l IH ]; simpl; [ tauto | ].
  rewrite In_insert_desc, IH. intuition.
Qed.



(** What a 201 from POST tells: the token was good, the fields were there,
    every item passed the check, every stock call was answered OK, and the
    order and its items went in. *)
Lemma POST_created E now req db resp db' evs :
  Orders.POST E now req db = (resp, db', evs) ->
  resp_status resp = 201 ->
  exists user b its ps',
    getUserFromToken E (authorization req) = Some user
    /\ json_body req = Js.Ok b
    /\ items b = Some its
    /\ db' = with_order db ps'
               (new_order E now (Some (user_id_of user))
                  (Js.or_null (payment_screenshot b)) b (next_order_id db))
               (insert_items (next_order_id db) (next_item_id db) its)
    /\ resp = fetch_created E (next_order_id db) db'.
Proof.
  unfold Orders.POST.
  destruct (getUserFromToken E (authorization req)) as [ user | ];
    [ | intros [= <- _ _]; discriminate ].
  destruct (json_body req) as [ b | ]; [ | intros [= <- _ _]; discriminate ].
  destruct (items b) as [ [ | i its ] | ] eqn:Hi;
    try (intros [= <- _ _]; discriminate).
  destruct (no_total_or_email b); [ intros [= <- _ _]; discriminate | ].
  intros Hc Hs.
  pose proof (create_order_outcome E now (authorization req)
                (Some (user_id_of user)) (Js.or_null (payment_screenshot b))
                b (i :: its) db) as Ho.
  rewrite Hc in Ho.
  inversion Ho as [ r n Hr _ | n | pre it post answer ps' _ _ _ _ | ps' _ _ ];
    subst.
  - rewrite Hr in Hs. discriminate.
  - discriminate.
  - destruct (refusal_status E it answer) as [ H | H ]; rewrite H in Hs;
      discriminate.
  - exists user, b, (i :: its), ps'. auto.
Qed.



End ListingFacts.

(* ================================================================== *)
(** ** Where the code parts from the specification *)

Module DivergenceFacts.
Import OrderData StockFacts CreationFacts CreatedOrderFacts.

Lemma fetch_created_status E oid db :
  resp_status (fetch_created E oid db) = 500
  \/ resp_status (fetch_created E oid db) = 201.
Proof.
  unfold fetch_created.
  match goal with
  | |- context [filter ?p (orders db)] =>
      destruct (filter p (orders db)) as [ | order ? ]
  end; [ left; reflexivity | ].
  destruct (parse_address _); [ right | left ]; reflexivity.
Qed.

Lemma create_order_status E now auth buyer screenshot b its db :
  let st := resp_status (fst (fst (create_order E now auth buyer screenshot b its db))) in
  st = 400 \/ st = 500 \/ st = 201.
Proof.
  destruct (create_order_outcome E now auth buyer screenshot b its db)
    as [ r n Hr _ | n | pre it post answer ps' _ _ _ _ | ps' _ _ ];
    cbv zeta; cbn [fst].
  - auto.
  - auto.
  - destruct (refusal_status E it answer); auto.
  - destruct (fetch_created_status E (next_order_id db)
                (with_order db ps'
                   (new_order E now buyer screenshot b (next_order_id db))
                   (insert_items (next_order_id db) (next_item_id db) its)));
      auto.
Qed.

(** C2, evaluated on the route that takes the buyer from the body.  A POST
    with no Authorization header at all is not answered 401: the order is
    created, owned by nobody.  That POST never reads the token, so it
    answers 401 to no request whatever. *)
Theorem order_created_without_credential :
  (let req := Shop.request None None
                (Shop.order_body [Shop.item 1 2] (Some (JSON.JNum 1000))) in
   getUserFromToken Shop.externals (authorization req) = None
   /\ resp_status (fst (fst (OrdersByBody.POST Shop.externals 1700000000000
                               req Shop.db0)))
      = 201
   /\ map o_user_id
          (orders (snd (fst (OrdersByBody.POST Shop.externals 1700000000000
                               req Shop.db0))))
      = [None])
  /\ forall E now req db,
      resp_status (fst (fst (OrdersByBody.POST E now req db))) <> 401.
Proof.
  split; [ vm_compute; repeat split | ].
  intros E now req db. unfold OrdersByBody.POST.
  destruct (json_body req) as [ b | ]; [ | discriminate ].
  destruct (items b) as [ [ | i its ] | ]; try discriminate.
  destruct (no_total_or_email b); [ discriminate | ].
  destruct (create_order_status E now (authorization req)
              (Js.or_null (user_id b)) None b (i :: its) db)
    as [ H | [ H | H ] ]; rewrite H; discriminate.
Qed.

Lemma render_decimal_text E v :
  decimal_as_text E = true -> is_number (render_decimal E v) = false.
Proof. intros H. unfold render_decimal. destruct v; [ rewrite H | ]; reflexivity. Qed.

(** C5, evaluated on the example of the specification with a driver that
    hands DECIMAL columns back as text (what the coercions in GET are there
    for).  The answer is a 201 with one item for the one item sent and a
    numeric [quantity]; but [total_amount], [subtotal] and the item's
    [price] come back as they were read, as text, since POST does not pass
    them through [Number].  With such a driver no 201 of POST ever carries
    a numeric amount or price. *)
Theorem created_order_amounts_are_text :
  (decimal_as_text Shop.externals = true
   /\ exists o,
       fst (fst (Orders.POST Shop.externals 1700000000000
                   Shop.example_request Shop.db0))
       = reply 201 (BOrder o)
       /\ List.length (wi_items o) = 1%nat
       /\ map oi_quantity (wi_items o) = [2]
       /\ o_total_amount (wi_order o) = CText 1000
       /\ o_subtotal (wi_order o) = CText 0
       /\ map oi_price (wi_items o) = [CText 500])
  /\ forall E now req db o,
      decimal_as_text E = true ->
      fst (fst (Orders.POST E now req db)) = reply 201 (BOrder o) ->
      is_number (o_total_amount (wi_order o)) = false
      /\ is_number (o_subtotal (wi_order o)) = false
      /\ Forall (fun i => is_number (oi_price i) = false) (wi_items o).
Proof.
  split.
  { split; [ reflexivity | ]. eexists. vm_compute. repeat split. }
  intros E now req db o Htext Hresp.
  destruct (Orders.POST E now req db) as [[resp db'] evs] eqn:Hpost.
  cbn [fst] in Hresp. subst resp.
  destruct (ListingFacts.POST_created _ _ _ _ _ _ _ Hpost eq_refl)
    as (user & b & its & ps' & _ & _ & _ & _ & Hf).
  unfold fetch_created in Hf.
  match type of Hf with
  | context [filter ?p (orders db')] =>
      destruct (filter p (orders db')) as [ | order ? ]
  end; [ discriminate | ].
  destruct (parse_address _) as [ parsed | ]; [ | discriminate ].
  injection Hf as ->. cbn [wi_order wi_items convert_order o_total_amount o_subtotal].
  repeat split; try now apply render_decimal_text.
  apply Forall_forall. intros i Hi. apply in_map_iff in Hi as (x & <- & _).
  now apply render_decimal_text.
Qed.

End DivergenceFacts.


(* ================================================================== *)
(** ** Updating an order's status *)

Module StatusUpdateFacts.
Import OrderData.

Lemma truthy_str_some s : s <> EmptyString -> Js.truthy_str (Some s) = true.
Proof.
  intros Hs. simpl. destruct (String.eqb_spec s EmptyString); [ contradiction | reflexivity ].
Qed.

Lemma count_rows_zero {A} (p : A -> bool) l :
  count_rows p l = 0 <-> Forall (fun x => p x = false) l.
Proof.
  unfold count_rows. induction l as [ | x l IH ]; simpl.
  - split; constructor.
  - destruct (p x) eqn:Hx; simpl.
    + split; [ lia | ]. intros H. inversion H. congruence.
    + rewrite IH. split; [ now constructor | now inversion 1 ].
Qed.

Lemma update_where_none {A} (p : A -> bool) f l :
  Forall (fun x => p x = false) l -> update_where p f l = l.
Proof.
  unfold update_where.
  induction 1 as [ | x l Hx _ IH ]; simpl; [ | rewrite Hx, IH ]; reflexivity.
Qed.

Lemma update_where_rows {A} (p : A -> bool) f l :
  Forall2 (fun x x' => x' = if p x then f x else x) l (update_where p f l).
Proof.
  unfold update_where. induction l; simpl; constructor; auto.
Qed.

Lemma with_orders_same db : with_orders db (orders db) = db.
Proof. now destruct db. Qed.

Lemma id_and_owner_spec E id uid (o : Order) :
  id_and_owner E id uid o = true
  <-> sql_id_eq E id (o_id o) = true /\ o_user_id o = Some uid.
Proof.
  unfold id_and_owner. rewrite andb_true_iff.
  destruct (o_user_id o) as [ u | ].
  - rewrite String.eqb_eq. split; intros [H1 H2]; split; congruence.
  - split; intros [_ H]; discriminate.
Qed.

(** C7.  Take a PUT /orders by a caller with a good token, with an [id]
    and a [status].  Whatever the answer, the only table written is
    [orders], and each row keeps every column other than [status],
    [tracking_number] and [updated_at].  A row whose id is the given one
    and whose [user_id] is the caller's now holds the [status] sent, the
    [tracking_number] sent (NULL when none, or an empty one, was sent) and
    the clock as [updated_at]; every other row is left as it was.  When no
    row matches the answer is the 404 "Order not found or unauthorized"
    and the database is as before, and when one does the answer is no 404;
    no row matches in particular when every order with that id belongs to
    someone else, whose stored status then stays what it was. *)
Theorem status_update_scoped E now req db user id b st :
  getUserFromToken E (authorization req) = Some user ->
  query_id req = Some id -> id <> EmptyString ->
  json_body req = Js.Ok b -> status b = Some st -> st <> EmptyString ->
  let matches := fun o : Order =>
    sql_id_eq E id (o_id o) = true /\ o_user_id o = Some (user_id_of user) in
  let '(resp, db') := OrderData.PUT E now req db in
  products db' = products db /\ order_items db' = order_items db
  /\ next_order_id db' = next_order_id db /\ next_item_id db' = next_item_id db
  /\ Forall2 (fun o o' =>
                OrderBook.same_but_status o o'
                /\ (matches o ->
                    o_status o' = st
                    /\ o_updated_at o' = now
                    /\ (forall t, tracking_number b = Some t ->
                                  t <> EmptyString ->
                                  o_tracking_number o' = Some t)
                    /\ (tracking_number b = None
                        \/ tracking_number b = Some EmptyString ->
                        o_tracking_number o' = None))
                /\ (~ matches o -> o' = o))
             (orders db) (orders db')
  /\ (Forall (fun o => ~ matches o) (orders db) ->
      resp = reply 404 (BError "Order not found or unauthorized") /\ db' = db)
  /\ (Exists matches (orders db) -> resp_status resp <> 404)
  /\ ((forall o, In o (orders db) -> sql_id_eq E id (o_id o) = true ->
                 o_user_id o <> Some (user_id_of user)) ->
      resp = reply 404 (BError "Order not found or unauthorized")
      /\ db' = db
      /\ map o_status (orders db') = map o_status (orders db)).
Proof.
  intros Hu Hq Hid Hb Hst Hne matches.
  unfold OrderData.PUT.
  rewrite Hu, Hq, Hb, Hst, (truthy_str_some id Hid), (truthy_str_some st Hne).
  cbn [negb].
  set (mine := id_and_owner E id (user_id_of user)).
  set (tracking := Js.or_null (tracking_number b)).
  set (db2 := with_orders db
                (update_where mine (set_status st tracking now) (orders db))).
  assert (Hmine : forall o, mine o = true <-> matches o)
    by (intros o; apply id_and_owner_spec).
  assert (Htr : (forall t, tracking_number b = Some t -> t <> EmptyString ->
                           tracking = Some t)
                /\ (tracking_number b = None
                    \/ tracking_number b = Some EmptyString ->
                    tracking = None)).
  { unfold tracking, Js.or_null. split.
    - intros t -> Ht. now rewrite (truthy_str_some t Ht).
    - intros [ -> | -> ]; reflexivity. }
  assert (Hrows : Forall2 (fun o o' =>
                     OrderBook.same_but_status o o'
                     /\ (matches o ->
                         o_status o' = st
                         /\ o_updated_at o' = now
                         /\ (forall t, tracking_number b = Some t ->
                                       t <> EmptyString ->
                                       o_tracking_number o' = Some t)
                         /\ (tracking_number b = None
                             \/ tracking_number b = Some EmptyString ->
                             o_tracking_number o' = None))
                     /\ (~ matches o -> o' = o))
                    (orders db) (orders db2)).
  { eapply Forall2_impl; [ | apply update_where_rows ].
    intros o o' ->. destruct (mine o) eqn:Hm.
    - split; [ repeat split | ]. split.
      + intros _. cbn [set_status o_status o_updated_at o_tracking_number].
        split; [ reflexivity | ]. split; [ reflexivity | exact Htr ].
      + intros Hno. destruct Hno. now apply Hmine.
    - split; [ repeat split | ]. split; [ | reflexivity ].
      intros Hyes. apply Hmine in Hyes. congruence. }
  assert (Hzero : count_rows mine (orders db) = 0 -> db2 = db).
  { intros Hc. unfold db2.
    rewrite update_where_none by now apply count_rows_zero.
    apply with_orders_same. }
  assert (Hnone : Forall (fun o => ~ matches o) (orders db) ->
                  count_rows mine (orders db) = 0).
  { intros Hno. apply count_rows_zero.
    eapply Forall_impl; [ | exact Hno ]. intros o Ho. cbv beta in Ho.
    destruct (mine o) eqn:Hm; [ | reflexivity ].
    destruct Ho. now apply Hmine. }
  assert (Hsome : Exists matches (orders db) ->
                  count_rows mine (orders db) <> 0).
  { intros Hex Hc. apply count_rows_zero in Hc.
    apply Exists_exists in Hex as (o & Ho & Hm).
    rewrite Forall_forall in Hc. apply Hmine in Hm.
    rewrite (Hc o Ho) in Hm. discriminate. }
  assert (Hother :
            (forall o, In o (orders db) -> sql_id_eq E id (o_id o) = true ->
                       o_user_id o <> Some (user_id_of user)) ->
            count_rows mine (orders db) = 0).
  { intros Hno. apply Hnone, Forall_forall. intros o Ho [Hm Hown].
    exact (Hno o Ho Hm Hown). }
  destruct (count_rows mine (orders db) =? 0) eqn:Hc.
  - apply Z.eqb_eq in Hc. rewrite (Hzero Hc) in *.
    repeat (split; [ solve [ reflexivity | exact Hrows ] | ]).
    split; [ now intros _ | ].
    split; [ intros Hex; now destruct (Hsome Hex) | now intros _ ].
  - apply Z.eqb_neq in Hc.
    assert (Hfound : filter mine (orders db2) <> []).
    { unfold db2. cbn [with_orders orders].
      intros Hnil. apply Hc, count_rows_zero, Forall_forall. intros o Ho.
      destruct (mine o) eqn:Hm; [ exfalso | reflexivity ].
      assert (Hin : In (set_status st tracking now o)
                       (filter mine
                          (update_where mine (set_status st tracking now)
                             (orders db)))).
      { apply filter_In. split.
        - unfold update_where. apply in_map_iff. exists o. now rewrite Hm.
        - exact Hm. }
      rewrite Hnil in Hin. destruct Hin. }
    destruct (filter mine (orders db2)) as [ | order ? ];
      [ now destruct Hfound | ].
    destruct (parse_address E (o_shipping_address order));
      (repeat (split; [ solve [ reflexivity | exact Hrows ] | ]);
       split; [ intros H0; now destruct (Hc (Hnone H0)) | ];
       split; [ intros _; discriminate
              | intros Hno; now destruct (Hc (Hother Hno)) ]).
Qed.

Lemma status_update_scoped_witness :
  let by_bob := Shop.request Shop.as_bob (Some "1"%string)
                  (ShopLater.status_body "shipped") in
  let by_alice := Shop.request Shop.as_alice (Some "1"%string)
                    (ShopLater.status_body "shipped") in
  let after := snd (OrderData.PUT Shop.externals 1700000000001 by_alice
                      ShopLater.db1) in
  map o_user_id (orders ShopLater.db1) = [Some "u1"%string]
  /\ map o_status (orders ShopLater.db1) = ["pending"%string]
  /\ OrderData.PUT Shop.externals 1700000000001 by_bob ShopLater.db1
     = (reply 404 (BError "Order not found or unauthorized"), ShopLater.db1)
  /\ map o_status (orders after) = ["shipped"%string]
  /\ map o_tracking_number (orders after) = [Some "TRK-1"%string]
  /\ map o_updated_at (orders after) = [1700000000001]
  /\ map o_order_number (orders after)
     = map o_order_number (orders ShopLater.db1).
Proof.
  cbv zeta. split; [ reflexivity | ]. split; [ reflexivity | ]. split.
  - pose proof (status_update_scoped Shop.externals 1700000000001
                  (Shop.request Shop.as_bob (Some "1"%string)
                     (ShopLater.status_body "shipped"))
                  ShopLater.db1
                  {| user_id_of := "u2"; user_email := "bob@b.com" |}
                  "1" (ShopLater.status_body "shipped") "shipped"
                  eq_refl eq_refl ltac:(discriminate) eq_refl eq_refl
                  ltac:(discriminate)) as H.
    cbv zeta in H.
    destruct (OrderData.PUT _ _ _ _) as [resp db'].
    destruct H as (_ & _ & _ & _ & _ & _ & _ & H).
    destruct H as (-> & -> & _); [ | reflexivity ].
    intros o [ <- | [] ] _. discriminate.
  - pose proof (status_update_scoped Shop.externals 1700000000001
                  (Shop.request Shop.as_alice (Some "1"%string)
                     (ShopLater.status_body "shipped"))
                  ShopLater.db1
                  {| user_id_of := "u1"; user_email := "a@b.com" |}
                  "1" (ShopLater.status_body "shipped") "shipped"
                  eq_refl eq_refl ltac:(discriminate) eq_refl eq_refl
                  ltac:(discriminate)) as H.
    cbv zeta in H.
    destruct (OrderData.PUT _ _ _ _) as [resp db']. cbn [snd].
    destruct H as (_ & _ & _ & _ & Hrows & _).
    assert (Hone : exists row,
               orders ShopLater.db1 = [row]
               /\ sql_id_eq Shop.externals "1" (o_id row) = true
               /\ o_user_id row = Some "u1"%string)
      by (eexists; split; [ reflexivity | split; reflexivity ]).
    destruct Hone as (row & Hone & Hm1 & Hm2). rewrite Hone in *.
    inversion Hrows as [ | ? o' ? rest' HR Hnil ]; subst.
    inversion Hnil; subst.
    destruct HR as (Hsame & Hmatch & _).
    destruct (Hmatch (conj Hm1 Hm2)) as (Hs & Hup & Ht & _).
    cbn [map]. rewrite Hs, Hup, (Ht "TRK-1"%string eq_refl ltac:(discriminate)).
    repeat split.
    destruct Hsame as (_ & _ & Hn & _). now rewrite Hn.
Defined.

End StatusUpdateFacts.


(* ================================================================== *)
(** ** Default addresses *)

Module AddressFacts.
Import Addresses.

Lemma filter_map_swap {A B} (p : B -> bool) (g : A -> B) l :
  filter p (map g l) = map g (filter (fun x => p (g x)) l).
Proof.
  induction l as [ | x l IH ]; simpl; [ reflexivity | ].
  destruct (p (g x)); simpl; now rewrite IH.
Qed.

Lemma owned_by_refl uid a : a_user_id a = uid -> owned_by uid a = true.
Proof. intros <-. apply String.eqb_refl. Qed.

(** After UPDATE addresses SET is_default = 0 WHERE user_id = ?, the user
    has no default left. *)
Lemma cleared_defaults uid rows :
  filter (is_default_of uid)
         (update_where (owned_by uid) (set_default false) rows) = [].
Proof.
  unfold update_where. rewrite filter_map_swap.
  rewrite CreatedOrderFacts.filter_none; [ reflexivity | ].
  apply Forall_forall. intros a _. unfold is_default_of.
  destruct (owned_by uid a) eqn:Ho; simpl.
  - unfold owned_by in *. simpl. now rewrite Ho.
  - now rewrite Ho.
Qed.

(** A key held by one row at most selects one row at most. *)
Lemma at_most_one_by_id aid uid rows :
  NoDup (map a_id rows) ->
  (List.length (filter (fun a => (a_id a =? aid)%Z && owned_by uid a) rows)
   <= 1)%nat.
Proof.
  induction rows as [ | a rows IH ]; intros Hnd; [ simpl; lia | ].
  inversion Hnd as [ | ? ? Hnotin Hnd' ]; subst. simpl.
  destruct (a_id a =? aid) eqn:Hid; simpl; [ | auto ].
  destruct (owned_by uid a); simpl; [ | auto ].
  rewrite CreatedOrderFacts.filter_none; [ simpl; lia | ].
  apply Forall_forall. intros a' Hin.
  destruct (a_id a' =? aid) eqn:Hid'; [ | reflexivity ].
  exfalso. apply Hnotin. apply Z.eqb_eq in Hid, Hid'.
  rewrite Hid, <- Hid'. now apply in_map.
Qed.

(** What a 200 from PUT tells. *)
Lemma PUT_updated E req db :
  resp_status (fst (PUT E req db)) = 200 ->
  exists user b aid,
    getUserFromToken E (authorization req) = Some user
    /\ json_body req = Js.Ok b
    /\ id b = Some aid
    /\ filter (fun a => (a_id a =? aid) && owned_by (user_id_of user) a)
              (addresses db) <> []
    /\ addresses (snd (PUT E req db))
       = map (updated_row (user_id_of user) aid b) (addresses db).
Proof.
  unfold PUT.
  destruct (getUserFromToken E (authorization req)) as [ user | ];
    [ | discriminate ].
  destruct (json_body req) as [ b | ]; [ | discriminate ].
  destruct (id b) as [ aid | ] eqn:Hid; [ | discriminate ].
  destruct (negb (Js.truthy_num (Some aid))); [ discriminate | ].
  destruct (missing_required b); [ discriminate | ].
  destruct (filter _ (addresses db)) as [ | a0 l0 ] eqn:Hex; [ discriminate | ].
  match goal with
  | |- resp_status (fst (if ?c then _ else _)) = _ -> _ =>
      destruct c; [ discriminate | ]
  end.
  intros _. exists user, b, aid.
  split; [ reflexivity | ]. split; [ reflexivity | ].
  split; [ exact Hid | ]. split; [ rewrite Hex; discriminate | ].
  cbn [snd addresses]. unfold update_where, updated_row.
  destruct (default_flag b); [ rewrite map_map | ]; reflexivity.
Qed.

(** A row counts as a default of the caller after the PUT exactly when it
    is the row the PUT addressed and the new flag is on, or it was a
    default before, is another row, and the new flag is off. *)
Lemma updated_row_default uid aid b a :
  is_default_of uid (updated_row uid aid b a)
  = if (a_id a =? aid) && owned_by uid a then default_flag b
    else is_default_of uid a && negb (default_flag b).
Proof.
  unfold updated_row, is_default_of, owned_by.
  destruct (default_flag b) eqn:Hd;
    destruct (a_id a =? aid) eqn:Hid;
    destruct (String.eqb (a_user_id a) uid) eqn:Ho;
    cbn [andb negb set_default a_id a_user_id a_is_default bound_row];
    rewrite ?Hid, ?Ho, ?Hd; cbn [andb negb bound_row a_user_id a_is_default];
    rewrite ?Ho, ?Hd, ?andb_true_r, ?andb_false_r; reflexivity.
Qed.

Lemma updated_row_keeps uid aid b a :
  a_id (updated_row uid aid b a) = a_id a
  /\ a_user_id (updated_row uid aid b a) = a_user_id a
  /\ ((a_id a =? aid) && owned_by uid a = true ->
      a_is_default (updated_row uid aid b a) = default_flag b).
Proof.
  unfold updated_row, owned_by.
  destruct (default_flag b) eqn:Hd;
    destruct (a_id a =? aid) eqn:Hid;
    destruct (String.eqb (a_user_id a) uid) eqn:Ho;
    cbn [andb negb set_default a_id a_user_id a_is_default bound_row];
    rewrite ?Hid, ?Ho; cbn [andb negb bound_row a_id a_user_id a_is_default];
    repeat split; auto; discriminate.
Qed.

(** C4.  Take a request with a good token whose [is_default] is truthy.
    If it is a Create answered 201, or an Update answered 200 on a table
    where [id] is a key, then afterwards exactly one address of the caller
    is flagged default, however many were flagged before. *)
Theorem one_default_after_flagged_write E now req db b user :
  getUserFromToken E (authorization req) = Some user ->
  json_body req = Js.Ok b ->
  default_flag b = true ->
  (resp_status (fst (POST E now req db)) = 201 ->
   List.length (defaults_of (user_id_of user) (snd (POST E now req db))) = 1%nat)
  /\ (NoDup (map a_id (addresses db)) ->
      resp_status (fst (PUT E req db)) = 200 ->
      List.length (defaults_of (user_id_of user) (snd (PUT E req db))) = 1%nat).
Proof.
  intros Hu Hb Hd. split.
  - unfold POST. rewrite Hu, Hb, Hd.
    destruct (missing_required b); [ discriminate | ]. intros _.
    unfold defaults_of. cbn [snd addresses].
    rewrite filter_app, cleared_defaults. cbn [app filter].
    unfold is_default_of at 1. cbn [bound_row a_is_default].
    rewrite Hd, owned_by_refl by reflexivity. reflexivity.
  - intros Hnd Hs.
    destruct (PUT_updated E req db Hs) as (user' & b' & aid & Hu' & Hb' & Hid & Hex & Hrows).
    rewrite Hu in Hu'. injection Hu' as <-.
    rewrite Hb in Hb'. injection Hb' as <-.
    unfold defaults_of. rewrite Hrows.
    rewrite filter_map_swap, length_map.
    rewrite (filter_ext _ (fun a => (a_id a =? aid) && owned_by (user_id_of user) a)).
    + pose proof (at_most_one_by_id aid (user_id_of user) _ Hnd) as Hle.
      destruct (filter _ (addresses db)) as [ | a0 [ | a1 l ] ];
        [ contradiction | reflexivity | simpl in Hle; lia ].
    + intros a. rewrite updated_row_default, Hd.
      destruct ((a_id a =? aid) && owned_by (user_id_of user) a);
        [ reflexivity | apply andb_false_r ].
Qed.

Lemma one_default_after_flagged_write_witness :
  let create := Shop.request Shop.as_alice None
                  (ShopLater.address_body None (Some (JSON.JBool true))) in
  let update := Shop.request Shop.as_alice None
                  (ShopLater.address_body (Some 2) (Some (JSON.JBool true))) in
  List.length (defaults_of "u1" ShopLater.book) = 2%nat
  /\ List.length (defaults_of "u1"
                    (snd (POST Shop.externals 9 create ShopLater.book))) = 1%nat
  /\ List.length (defaults_of "u1"
                    (snd (PUT Shop.externals update ShopLater.book))) = 1%nat.
Proof.
  split; [ reflexivity | ].
  split.
  - refine (proj1 (one_default_after_flagged_write Shop.externals 9
                     (Shop.request Shop.as_alice None
                        (ShopLater.address_body None (Some (JSON.JBool true))))
                     ShopLater.book
                     (ShopLater.address_body None (Some (JSON.JBool true)))
                     {| user_id_of := "u1"; user_email := "a@b.com" |}
                     eq_refl eq_refl eq_refl) eq_refl).
  - refine (proj2 (one_default_after_flagged_write Shop.externals 9
                     (Shop.request Shop.as_alice None
                        (ShopLater.address_body (Some 2) (Some (JSON.JBool true))))
                     ShopLater.book
                     (ShopLater.address_body (Some 2) (Some (JSON.JBool true)))
                     {| user_id_of := "u1"; user_email := "a@b.com" |}
                     eq_refl eq_refl eq_refl) _ eq_refl).
    simpl. repeat constructor; simpl; intuition discriminate.
Defined.

(** C10.  An Update answered 200 found a row of the caller under the id
    sent, and leaves every such row with [is_default] equal to the
    truthiness of the [is_default] it was sent: on for a truthy value, off
    for a falsy one and off when the field is absent.  So when the
    addressed row was the caller's only default and the request carries no
    truthy [is_default], the caller has no default address afterwards. *)
Theorem update_overwrites_default_flag E req db :
  resp_status (fst (PUT E req db)) = 200 ->
  exists user b aid,
    getUserFromToken E (authorization req) = Some user
    /\ json_body req = Js.Ok b
    /\ id b = Some aid
    /\ (exists a, In a (addresses (snd (PUT E req db)))
                  /\ a_id a = aid /\ a_user_id a = user_id_of user)
    /\ (forall a, In a (addresses (snd (PUT E req db))) ->
                  a_id a = aid -> a_user_id a = user_id_of user ->
                  (forall v, is_default b = Some v ->
                             a_is_default a = JSON.truthy v)
                  /\ (is_default b = None -> a_is_default a = false))
    /\ (is_default b = None
        \/ (exists v, is_default b = Some v /\ JSON.truthy v = false) ->
        (forall a, In a (defaults_of (user_id_of user) db) -> a_id a = aid) ->
        defaults_of (user_id_of user) (snd (PUT E req db)) = []).
Proof.
  intros Hs.
  destruct (PUT_updated E req db Hs) as (user & b & aid & Hu & Hb & Hid & Hex & Hrows).
  exists user, b, aid. repeat (split; [ assumption | ]).
  assert (Hflag : (forall v, is_default b = Some v ->
                             default_flag b = JSON.truthy v)
                  /\ (is_default b = None -> default_flag b = false)).
  { unfold default_flag. split; [ intros v -> | intros -> ]; reflexivity. }
  split; [ | split ].
  - destruct (filter _ (addresses db)) as [ | a0 l0 ] eqn:Hf;
      [ contradiction | ].
    assert (Hin : In a0 (filter (fun a => (a_id a =? aid)
                                          && owned_by (user_id_of user) a)
                           (addresses db)))
      by (rewrite Hf; now left).
    apply filter_In in Hin as [Hin Hm]. apply andb_prop in Hm as [Hm Ho].
    destruct (updated_row_keeps (user_id_of user) aid b a0) as (Hi & Hown & _).
    exists (updated_row (user_id_of user) aid b a0).
    split; [ rewrite Hrows; now apply in_map | ].
    split; [ rewrite Hi; now apply Z.eqb_eq | ].
    rewrite Hown. unfold owned_by in Ho. now apply String.eqb_eq.
  - intros a' Hin Ha Hown. rewrite Hrows in Hin.
    apply in_map_iff in Hin as (a & <- & _).
    destruct (updated_row_keeps (user_id_of user) aid b a) as (Hi & Ho & Hf).
    rewrite Hf.
    + split; [ intros v Hv; now apply Hflag | intros Hn; now apply Hflag ].
    + rewrite Hi in Ha. rewrite Ho in Hown.
      rewrite Ha, Z.eqb_refl. now apply owned_by_refl.
  - intros Hoff Honly.
    assert (Hd : default_flag b = false).
    { destruct Hoff as [ Hn | (v & Hv & Ht) ];
        [ now apply Hflag | rewrite (proj1 Hflag v Hv); exact Ht ]. }
    unfold defaults_of. rewrite Hrows.
    rewrite filter_map_swap, CreatedOrderFacts.filter_none; [ reflexivity | ].
    apply Forall_forall. intros a Hin. rewrite updated_row_default, Hd.
    destruct ((a_id a =? aid) && owned_by (user_id_of user) a) eqn:Hm;
      [ reflexivity | ].
    rewrite andb_true_r.
    destruct (is_default_of (user_id_of user) a) eqn:Hdef; [ | reflexivity ].
    assert (Hin' : In a (defaults_of (user_id_of user) db)).
    { unfold defaults_of. apply filter_In. split; [ exact Hin | exact Hdef ]. }
    apply Honly in Hin'. unfold is_default_of in Hdef.
    apply andb_prop in Hdef as [Hown _].
    rewrite Hin', Z.eqb_refl, Hown in Hm. discriminate.
Qed.

Lemma update_overwrites_default_flag_witness :
  let plain := Shop.request Shop.as_alice None
                 (ShopLater.address_body (Some 1) None) in
  let flagged := Shop.request Shop.as_alice None
                   (ShopLater.address_body (Some 2) (Some (JSON.JNum 1))) in
  map a_id (defaults_of "u1" ShopLater.tidy_book) = [1]
  /\ defaults_of "u1" (snd (PUT Shop.externals plain ShopLater.tidy_book)) = []
  /\ exists a,
      In a (addresses (snd (PUT Shop.externals flagged ShopLater.tidy_book)))
      /\ a_id a = 2
      /\ a_is_default a = true
      /\ map a_is_default
             (filter (fun a => a_id a =? 2) (addresses ShopLater.tidy_book))
         = [false].
Proof.
  split; [ reflexivity | ]. split.
  - destruct (update_overwrites_default_flag Shop.externals
                (Shop.request Shop.as_alice None
                   (ShopLater.address_body (Some 1) None))
                ShopLater.tidy_book eq_refl)
      as (user & b & aid & Hu & Hb & Hid & _ & _ & H).
    injection Hu as <-. injection Hb as <-. injection Hid as <-.
    apply H; [ now left | ].
    intros a [ <- | [] ]. reflexivity.
  - destruct (update_overwrites_default_flag Shop.externals
                (Shop.request Shop.as_alice None
                   (ShopLater.address_body (Some 2) (Some (JSON.JNum 1))))
                ShopLater.tidy_book eq_refl)
      as (user & b & aid & Hu & Hb & Hid & (a & Hin & Ha & Hown) & H & _).
    injection Hu as <-. injection Hb as <-. injection Hid as <-.
    exists a. split; [ exact Hin | ]. split; [ exact Ha | ].
    split; [ | reflexivity ].
    exact (proj1 (H a Hin Ha Hown) (JSON.JNum 1) eq_refl).
Defined.

End AddressFacts.


(* ================================================================== *)
(** ** Further facts: the token check, the JSON codec, and a successful
       order *)

Module FurtherFacts.
Import OrderData StockFacts CreationFacts CreatedOrderFacts.

(** The token check never throws, and gives no user when the header is
    absent, does not start with "Bearer ", or holds a token that
    [jwt.verify] refuses. *)
Theorem token_verifier_rejects E auth :
  no_credential E auth -> getUserFromToken E auth = None.
Proof. apply AuthFacts.getUserFromToken_rejects. Qed.

Lemma token_verifier_rejects_witness :
  getUserFromToken Shop.externals None = None
  /\ getUserFromToken Shop.externals (Some "Basic alice-token"%string) = None
  /\ getUserFromToken Shop.externals (Some "Bearer mallory"%string) = None.
Proof.
  split; [ | split ]; apply token_verifier_rejects.
  - now left.
  - right. left. now exists "Basic alice-token"%string.
  - right. right. now exists "Bearer mallory"%string.
Defined.

(** Every handler that reads the token answers 401 {error: "Unauthorized"}
    and leaves the database alone when the request carries no valid bearer
    credential: all four address handlers, GET, POST and PUT of the orders
    route that takes the buyer from the token, and GET and PUT of the one
    that takes it from the body. *)
Theorem without_credential_401 E now auth :
  no_credential E auth ->
  (forall q b db,
      let req := {| authorization := auth; query_id := q; json_body := b |} in
      Addresses.GET E req db = (Addresses.unauthorized, db)
      /\ Addresses.POST E now req db = (Addresses.unauthorized, db)
      /\ Addresses.PUT E req db = (Addresses.unauthorized, db)
      /\ Addresses.DELETE E req db = (Addresses.unauthorized, db))
  /\ (forall q b db,
         let req := {| authorization := auth; query_id := q; json_body := b |} in
         Orders.GET E req db = (unauthorized, db)
         /\ Orders.POST E now req db = (unauthorized, db, [])
         /\ Orders.PUT E now req db = (unauthorized, db)
         /\ OrdersByBody.GET E req db = (unauthorized, db)
         /\ OrdersByBody.PUT E now req db = (unauthorized, db)).
Proof. apply AuthFacts.protected_handlers_reject. Qed.

Lemma without_credential_401_witness :
  let req := Shop.request (Some "Bearer mallory"%string) None
               (Shop.order_body [Shop.item 1 2] (Some (JSON.JNum 1000))) in
  Orders.POST Shop.externals 1700000000000 req Shop.db0
  = (reply 401 (BError "Unauthorized"), Shop.db0, []).
Proof.
  refine (proj1 (proj2 (proj2 (without_credential_401 Shop.externals
                                 1700000000000 (Some "Bearer mallory"%string) _)
                          None _ Shop.db0))).
  right. right. now exists "Bearer mallory"%string.
Defined.

(** JSON.parse(JSON.stringify(v)) is [v], for every value that holds no
    key twice in one object. *)
Theorem stringify_then_parse v :
  JSON.wf v -> JSON.parse (JSON.stringify v) = Some v.
Proof. apply JSONFacts.parse_stringify. Qed.

Lemma stringify_then_parse_witness :
  JSON.parse (JSON.stringify Shop.home) = Some Shop.home.
Proof.
  apply stringify_then_parse. constructor.
  - repeat constructor; simpl; intuition discriminate.
  - repeat constructor.
Defined.

(** When the token is good, the required fields are there, every item is
    in stock, every stock call is answered OK, the ids of the database are
    fresh and the engine reads back the address it writes, POST /orders
    answers 201 and the order it returns has as many items as were sent,
    each with the quantity sent, as a number, and the address sent. *)
Theorem sufficient_stock_creates E now req db user b its :
  getUserFromToken E (authorization req) = Some user ->
  json_body req = Js.Ok b ->
  items b = Some its -> its <> [] ->
  no_total_or_email b = false ->
  Forall (in_stock E (products db)) its ->
  fst (fst (reduce_stock E (Js.or_str (authorization req) "") (products db) its))
  = None ->
  fresh db -> reads_back E (address_or_empty b) ->
  exists o,
    fst (fst (Orders.POST E now req db)) = reply 201 (BOrder o)
    /\ List.length (wi_items o) = List.length its
    /\ map oi_quantity (wi_items o) = map quantity its
    /\ o_shipping_address (wi_order o) = Some (address_or_empty b).
Proof.
  intros Hu Hb Hi Hne Hn Hall Hok Hfresh Hwf.
  unfold Orders.POST. rewrite Hu, Hb, Hi, Hn.
  destruct its as [ | i its' ]; [ contradiction | ].
  unfold create_order. rewrite (validate_in_stock _ _ _ Hall).
  destruct (reduce_stock _ _ _ _) as [[failed ps'] evs2].
  simpl in Hok. subst failed. cbn [fst].
  rewrite (fetch_created_fresh _ _ _ _ _ _ _ _ Hfresh Hwf).
  eexists. split; [ reflexivity | ]. cbn [wi_items wi_order].
  split; [ now rewrite length_map, length_insert_items | ].
  split; [ apply insert_items_quantities | reflexivity ].
Qed.

Lemma sufficient_stock_creates_witness :
  exists o,
    fst (fst (Orders.POST Shop.externals 1700000000000
                Shop.example_request Shop.db0))
    = reply 201 (BOrder o)
    /\ List.length (wi_items o) = 1%nat
    /\ map oi_quantity (wi_items o) = [2]
    /\ o_shipping_address (wi_order o) = Some Shop.home.
Proof.
  refine (sufficient_stock_creates Shop.externals 1700000000000
            Shop.example_request Shop.db0
            {| user_id_of := "u1"; user_email := "a@b.com" |}
            (Shop.order_body [Shop.item 1 2] (Some (JSON.JNum 1000)))
            [Shop.item 1 2] eq_refl eq_refl eq_refl _ eq_refl _ eq_refl _ _).
  - discriminate.
  - constructor; [ | constructor ].
    exists (JSON.JNum 5). split; reflexivity.
  - split; constructor.
  - apply (shop_reads_back Shop.stock_endpoint). constructor.
    + repeat constructor; simpl; intuition discriminate.
    + repeat constructor.
Defined.

End FurtherFacts.


(* ================================================================== *)
(** ** What the order routes keep true of the database *)

Module InvariantFacts.
Import OrderData StockFacts CreationFacts CreatedOrderFacts.

Lemma consistent_with_products E db ps :
  consistent E db -> consistent E (with_products db ps).
Proof. intros H. exact H. Qed.

Lemma consistent_with_order E now buyer screenshot b its db ps :
  consistent E db -> reads_back E (address_or_empty b) ->
  consistent E
    (with_order db ps (new_order E now buyer screenshot b (next_order_id db))
       (insert_items (next_order_id db) (next_item_id db) its)).
Proof.
  intros [[Ho Hi] Hp] Hwf. split; [ split | ]; cbn [with_order orders order_items
                                                    next_order_id].
  - apply Forall_app. split.
    + eapply Forall_impl; [ | exact Ho ]. intros o Hlt. cbv beta in *. lia.
    + constructor; [ | constructor ]. cbn [new_order o_id]. lia.
  - apply Forall_app. split.
    + eapply Forall_impl; [ | exact Hi ]. intros i Hlt. cbv beta in *. lia.
    + eapply Forall_impl; [ | apply insert_items_order_id ].
      intros i ->. lia.
  - intros o Hin. apply in_app_or in Hin as [ Hin | [ <- | [] ] ].
    + now apply Hp.
    + cbn [new_order o_shipping_address].
      rewrite (parse_address_stringify _ _ Hwf). discriminate.
Qed.

Lemma create_order_consistent E now auth buyer screenshot b its db :
  consistent E db -> reads_back E (address_or_empty b) ->
  consistent E (snd (fst (create_order E now auth buyer screenshot b its db))).
Proof.
  intros Hc Hwf.
  destruct (create_order_outcome E now auth buyer screenshot b its db)
    as [ r n _ _ | n | pre it post answer ps' _ _ _ _ | ps' _ _ ];
    cbv zeta; cbn [fst snd]; auto using consistent_with_order.
Qed.

(** Order creation, on either route, and the status update keep the
    database consistent, as long as the engine reads back the
    [shipping_address] it is sent (as JavaScript does for a parsed request
    body). *)
Theorem order_routes_keep_consistent E now req db :
  consistent E db ->
  (forall b, json_body req = Js.Ok b -> reads_back E (address_or_empty b)) ->
  consistent E (snd (fst (Orders.POST E now req db)))
  /\ consistent E (snd (fst (OrdersByBody.POST E now req db)))
  /\ consistent E (snd (OrderData.PUT E now req db)).
Proof.
  intros Hc Hwf. split; [ | split ].
  - unfold Orders.POST.
    destruct (getUserFromToken E (authorization req)); [ | exact Hc ].
    destruct (json_body req) as [ b | ]; [ | exact Hc ].
    destruct (items b) as [ [ | i its ] | ]; try exact Hc.
    destruct (no_total_or_email b); [ exact Hc | ].
    apply create_order_consistent; auto.
  - unfold OrdersByBody.POST.
    destruct (json_body req) as [ b | ]; [ | exact Hc ].
    destruct (items b) as [ [ | i its ] | ]; try exact Hc.
    destruct (no_total_or_email b); [ exact Hc | ].
    apply create_order_consistent; auto.
  - assert (Hset : forall p st tr,
               consistent E (with_orders db
                             (update_where p (set_status st tr now) (orders db)))).
    { intros p st tr. destruct Hc as [[Ho Hi] Hp].
      split; [ split | ]; cbn [with_orders orders order_items next_order_id].
      - unfold update_where. apply Forall_map.
        eapply Forall_impl; [ | exact Ho ]. intros o Hlt.
        destruct (p o); exact Hlt.
      - exact Hi.
      - intros o Hin. unfold update_where in Hin.
        apply in_map_iff in Hin as (o0 & <- & Hin0).
        destruct (p o0); [ | now apply Hp ].
        apply (Hp o0 Hin0). }
    unfold OrderData.PUT.
    destruct (getUserFromToken E (authorization req)); [ | exact Hc ].
    destruct (query_id req); [ | exact Hc ].
    destruct (negb (Js.truthy_str _)); [ exact Hc | ].
    destruct (json_body req) as [ b | ]; [ | exact Hc ].
    destruct (status b); [ | exact Hc ].
    destruct (negb (Js.truthy_str _)); [ exact Hc | ].
    destruct (_ =? 0); [ apply Hset | ].
    destruct (filter _ _); [ apply Hset | ].
    destruct (parse_address _); apply Hset.
Qed.

Lemma order_routes_keep_consistent_witness :
  consistent Shop.externals ShopLater.db1
  /\ consistent Shop.externals
       (snd (OrderData.PUT Shop.externals 1700000000001
               (Shop.request Shop.as_alice (Some "1"%string)
                  (ShopLater.status_body "shipped"))
               ShopLater.db1)).
Proof.
  assert (H0 : consistent Shop.externals Shop.db0).
  { split; [ split; constructor | intros o [] ]. }
  assert (Hwf : forall b, b = Shop.order_body [Shop.item 1 2] (Some (JSON.JNum 1000)) ->
                          reads_back Shop.externals (address_or_empty b)).
  { intros b ->. apply (shop_reads_back Shop.stock_endpoint). constructor.
    - repeat constructor; simpl; intuition discriminate.
    - repeat constructor. }
  assert (H1 : consistent Shop.externals ShopLater.db1).
  { refine (proj1 (order_routes_keep_consistent Shop.externals 1700000000000
                     Shop.example_request Shop.db0 H0 _)).
    intros b [= <-]. now apply Hwf. }
  split; [ exact H1 | ].
  refine (proj2 (proj2 (order_routes_keep_consistent Shop.externals 1700000000001
                          (Shop.request Shop.as_alice (Some "1"%string)
                             (ShopLater.status_body "shipped"))
                          ShopLater.db1 H1 _))).
  intros b [= <-]. apply (shop_reads_back Shop.stock_endpoint).
  repeat constructor.
Defined.

End InvariantFacts.

(* ================================================================== *)
(** ** ORDER BY *)

Module SortFacts.

Lemma Permutation_insert_desc {A} (key : A -> Z) x l :
  Permutation (insert_desc key x l) (x :: l).
Proof.
  induction l as [ | y l IH ]; simpl; [ reflexivity | ].
  destruct (key y <=? key x); [ reflexivity | ].
  rewrite IH. apply perm_swap.
Qed.

(** ORDER BY returns the rows it is given, each as often as it came. *)
Lemma Permutation_order_by_desc {A} (key : A -> Z) l :
  Permutation (order_by_desc key l) l.
Proof.
  unfold order_by_desc. induction l as [ | x l IH ]; simpl; [ reflexivity | ].
  rewrite Permutation_insert_desc. now constructor.
Qed.

Lemma insert_desc_sorted {A} (key : A -> Z) (R : A -> A -> Prop) x l :
  StronglySorted (desc_then key R) l -> Forall (R x) l ->
  StronglySorted (desc_then key R) (insert_desc key x l).
Proof.
  induction 1 as [ | y l Hs IH Hy ]; intros Hx; simpl.
  - repeat constructor.
  - inversion Hx as [ | ? ? Hxy Hxl ]; subst.
    rewrite Forall_forall in Hy, Hxl.
    destruct (key y <=? key x) eqn:Hk.
    + apply Z.leb_le in Hk.
      constructor; [ constructor; [ exact Hs | now apply Forall_forall ] | ].
      constructor.
      * unfold desc_then.
        destruct (Z.eq_dec (key x) (key y)); [ right; auto | left; lia ].
      * apply Forall_forall. intros z Hz.
        specialize (Hy z Hz). specialize (Hxl z Hz). unfold desc_then in *.
        destruct (Z.eq_dec (key x) (key z)); [ right; auto | left; lia ].
    + apply Z.leb_gt in Hk. constructor; [ now apply IH, Forall_forall | ].
      apply Forall_forall. intros z Hz.
      apply ListingFacts.In_insert_desc in Hz as [ -> | Hz ]; [ left; lia | auto ].
Qed.

(** The sort is stable: rows that came in the order [R] leave in
    descending order of the key, and in the order [R] where keys are
    equal. *)
Lemma order_by_desc_sorted {A} (key : A -> Z) (R : A -> A -> Prop) l :
  StronglySorted R l ->
  StronglySorted (desc_then key R) (order_by_desc key l).
Proof.
  unfold order_by_desc.
  induction 1 as [ | x l Hs IH Hx ]; simpl; [ constructor | ].
  apply insert_desc_sorted; [ exact IH | ].
  rewrite Forall_forall in *. intros z Hz.
  apply (ListingFacts.In_order_by_desc key z l) in Hz. auto.
Qed.

Lemma StronglySorted_weaken {A} (R R' : A -> A -> Prop) l :
  (forall a b, R a b -> R' a b) -> StronglySorted R l -> StronglySorted R' l.
Proof.
  intros HR. induction 1 as [ | x l Hs IH Hx ]; constructor; [ exact IH | ].
  eapply Forall_impl; [ apply HR | exact Hx ].
Qed.

Lemma StronglySorted_any {A} (l : list A) : StronglySorted (fun _ _ => True) l.
Proof.
  induction l; constructor; [ assumption | ]. now apply Forall_forall.
Qed.

(** ORDER BY key DESC leaves the rows in descending order of the key. *)
Lemma order_by_desc_descending {A} (key : A -> Z) l :
  StronglySorted (fun a b => key b <= key a) (order_by_desc key l).
Proof.
  apply StronglySorted_weaken with (R := desc_then key (fun _ _ => True)).
  - intros a b [ H | [H _] ]; lia.
  - apply order_by_desc_sorted, StronglySorted_any.
Qed.

Lemma StronglySorted_map {A B} (f : A -> B) (R : B -> B -> Prop) l :
  StronglySorted (fun a b => R (f a) (f b)) l -> StronglySorted R (map f l).
Proof.
  induction 1 as [ | x l Hs IH Hx ]; simpl; constructor; [ exact IH | ].
  apply Forall_map. exact Hx.
Qed.

End SortFacts.

(* ================================================================== *)
(** ** The address book *)

Module AddressRowFacts.
Import Addresses AddressBook.

Lemma filter_map_fix {A} (q : A -> bool) (g : A -> A) l :
  (forall a, q (g a) = q a) -> (forall a, q a = true -> g a = a) ->
  filter q (map g l) = filter q l.
Proof.
  intros Hq Hg. induction l as [ | a l IH ]; simpl; [ reflexivity | ].
  rewrite Hq. destruct (q a) eqn:Ha; [ rewrite (Hg a Ha), IH | ]; auto.
Qed.

Lemma filter_length_le_map {A} (p q : A -> bool) (g : A -> A) l :
  (forall a, q (g a) = true -> p a = true) ->
  (List.length (filter q (map g l)) <= List.length (filter p l))%nat.
Proof.
  intros H. induction l as [ | a l IH ]; simpl; [ lia | ].
  destruct (q (g a)) eqn:Hq.
  - rewrite (H a Hq). simpl. lia.
  - destruct (p a); simpl; lia.
Qed.

Lemma filter_filter_le {A} (p q : A -> bool) l :
  (List.length (filter q (filter p l)) <= List.length (filter q l))%nat.
Proof.
  induction l as [ | a l IH ]; simpl; [ lia | ].
  destruct (p a); simpl; destruct (q a); simpl; lia.
Qed.

Lemma filter_split_length {A} (p : A -> bool) l :
  (List.length (filter p l) + List.length (filter (fun a => negb (p a)) l)
   = List.length l)%nat.
Proof.
  induction l as [ | a l IH ]; simpl; [ reflexivity | ].
  destruct (p a); simpl; lia.
Qed.

Lemma NoDup_map_filter {A B} (f : A -> B) (p : A -> bool) l :
  NoDup (map f l) -> NoDup (map f (filter p l)).
Proof.
  induction l as [ | a l IH ]; simpl; [ auto | ].
  intros Hnd. inversion Hnd as [ | ? ? Hnotin Hnd' ]; subst.
  destruct (p a); [ | auto ]. simpl. constructor; [ | auto ].
  intros Hin. apply Hnotin. apply in_map_iff in Hin as (x & <- & Hx).
  apply in_map. apply filter_In in Hx. tauto.
Qed.

(** *** What each handler makes of the table *)

Lemma POST_rows E now req db :
  snd (POST E now req db) = db
  \/ exists user b,
       getUserFromToken E (authorization req) = Some user
       /\ json_body req = Js.Ok b
       /\ missing_required b = false
       /\ POST E now req db
          = (reply 201
               (BAddress
                  (hd_error
                     (filter (fun a => a_id a =? next_address_id db)
                        ((if default_flag b
                          then update_where (owned_by (user_id_of user))
                                 (set_default false) (addresses db)
                          else addresses db)
                         ++ [bound_row (next_address_id db) (user_id_of user)
                               now b])))),
             {| addresses :=
                  (if default_flag b
                   then update_where (owned_by (user_id_of user))
                          (set_default false) (addresses db)
                   else addresses db)
                  ++ [bound_row (next_address_id db) (user_id_of user) now b];
                next_address_id := next_address_id db + 1 |}).
Proof.
  unfold POST.
  destruct (getUserFromToken E (authorization req)) as [ user | ]; [ | now left ].
  destruct (json_body req) as [ b | ]; [ | now left ].
  destruct (missing_required b) eqn:Hm; [ now left | ].
  right. exists user, b. auto.
Qed.

Lemma PUT_rows E req db :
  snd (PUT E req db) = db
  \/ exists user b aid,
       getUserFromToken E (authorization req) = Some user
       /\ json_body req = Js.Ok b
       /\ id b = Some aid
       /\ snd (PUT E req db)
          = {| addresses := map (updated_row (user_id_of user) aid b) (addresses db);
               next_address_id := next_address_id db |}.
Proof.
  unfold PUT.
  destruct (getUserFromToken E (authorization req)) as [ user | ]; [ | now left ].
  destruct (json_body req) as [ b | ]; [ | now left ].
  destruct (id b) as [ aid | ] eqn:Hid; [ | now left ].
  destruct (negb (Js.truthy_num (Some aid))); [ now left | ].
  destruct (missing_required b); [ now left | ].
  destruct (filter _ (addresses db)) as [ | a0 l0 ]; [ now left | ].
  right. exists user, b, aid.
  split; [ reflexivity | ]. split; [ reflexivity | ]. split; [ exact Hid | ].
  assert (Hrows : update_where
                    (fun a => (a_id a =? aid) && owned_by (user_id_of user) a)
                    (fun a => bound_row (a_id a) (a_user_id a) (a_created_at a) b)
                    (if default_flag b
                     then update_where
                            (fun a => owned_by (user_id_of user) a
                                      && negb (a_id a =? aid))
                            (set_default false) (addresses db)
                     else addresses db)
                  = map (updated_row (user_id_of user) aid b) (addresses db)).
  { unfold update_where, updated_row.
    destruct (default_flag b); [ rewrite map_map | ]; reflexivity. }
  match goal with
  | |- snd (if ?c then _ else _) = _ => destruct c
  end; cbn [snd]; now rewrite Hrows.
Qed.

Lemma DELETE_rows E req db :
  snd (DELETE E req db) = db
  \/ exists user addressId,
       getUserFromToken E (authorization req) = Some user
       /\ query_id req = Some addressId
       /\ addressId <> EmptyString
       /\ snd (DELETE E req db)
          = {| addresses :=
                 filter (fun a => negb (to_delete E addressId (user_id_of user) a))
                        (addresses db);
               next_address_id := next_address_id db |}.
Proof.
  unfold DELETE.
  destruct (getUserFromToken E (authorization req)) as [ user | ]; [ | now left ].
  destruct (query_id req) as [ addressId | ]; [ | now left ].
  destruct addressId as [ | c s ]; [ now left | ].
  right. exists user, (String c s). repeat (split; [ easy | ]).
  cbn [Js.truthy_str String.eqb negb].
  match goal with
  | |- snd (if ?c then _ else _) = _ => destruct c
  end; reflexivity.
Qed.

Lemma updated_row_foreign uid aid b a :
  owned_by uid a = false -> updated_row uid aid b a = a.
Proof.
  intros Ho. unfold updated_row. rewrite Ho. cbn [andb].
  destruct (default_flag b); now rewrite Ho, andb_false_r.
Qed.

Lemma cleared_row_foreign uid a :
  owned_by uid a = false ->
  (if owned_by uid a then set_default false a else a) = a.
Proof. now intros ->. Qed.

Lemma GET_answer E req db user :
  getUserFromToken E (authorization req) = Some user ->
  GET E req db
  = (reply 200
       (BAddresses
          (order_by_desc default_key
             (order_by_desc a_created_at
                (filter (owned_by (user_id_of user)) (addresses db))))),
     db).
Proof. intros Hu. unfold GET. now rewrite Hu. Qed.

(** The two sorts of the listing, the second stable, give the order of
    ORDER BY is_default DESC, created_at DESC. *)
Lemma listing_sorted rows :
  StronglySorted default_first_then_newest
    (order_by_desc default_key (order_by_desc a_created_at rows)).
Proof.
  apply (SortFacts.order_by_desc_sorted default_key).
  apply SortFacts.order_by_desc_descending.
Qed.

Lemma listing_permuted (rows : list Address) :
  Permutation (order_by_desc default_key (order_by_desc a_created_at rows)) rows.
Proof. now rewrite !SortFacts.Permutation_order_by_desc. Qed.

End AddressRowFacts.

Module AddressBookFacts.
Import Addresses AddressBook AddressRowFacts.

(** GET /addresses by a caller with a good token answers 200 with exactly
    the caller's rows, each once, the default ones first and, among rows
    of equal flag, the newest first; the table is left as it was. *)
Theorem address_listing_sorted E req db user :
  getUserFromToken E (authorization req) = Some user ->
  exists rows,
    GET E req db = (reply 200 (BAddresses rows), db)
    /\ Permutation rows (filter (owned_by (user_id_of user)) (addresses db))
    /\ StronglySorted default_first_then_newest rows.
Proof.
  intros Hu. eexists. split; [ exact (GET_answer E req db user Hu) | ]. split.
  - apply listing_permuted.
  - apply listing_sorted.
Qed.

Lemma address_listing_sorted_witness :
  exists rows,
    GET Shop.externals (Streets.from_alice None (ShopLater.address_body None None))
        Streets.book
    = (reply 200 (BAddresses rows), Streets.book)
    /\ Permutation rows
         (filter (owned_by "u1") (addresses Streets.book))
    /\ StronglySorted default_first_then_newest rows.
Proof.
  exact (address_listing_sorted Shop.externals
           (Streets.from_alice None (ShopLater.address_body None None))
           Streets.book Streets.ana eq_refl).
Defined.

(** Whatever an authenticated caller sends to the addresses route, the
    rows of every other user stay as they were, in the order they were:
    no handler changes, adds or removes an address of someone else. *)
Theorem other_users_addresses_untouched E now req db user :
  getUserFromToken E (authorization req) = Some user ->
  of_others (user_id_of user) (snd (GET E req db))
  = of_others (user_id_of user) db
  /\ of_others (user_id_of user) (snd (POST E now req db))
     = of_others (user_id_of user) db
  /\ of_others (user_id_of user) (snd (PUT E req db))
     = of_others (user_id_of user) db
  /\ of_others (user_id_of user) (snd (DELETE E req db))
     = of_others (user_id_of user) db.
Proof.
  intros Hu. unfold of_others. repeat split.
  - unfold GET. now rewrite Hu.
  - destruct (POST_rows E now req db) as [ -> | (u & b & Hu' & _ & _ & ->) ];
      [ reflexivity | ].
    rewrite Hu in Hu'. injection Hu' as <-. cbn [snd addresses].
    rewrite filter_app. cbn [filter].
    rewrite AddressFacts.owned_by_refl by reflexivity. cbn [negb].
    rewrite app_nil_r.
    destruct (default_flag b); [ | reflexivity ].
    unfold update_where. apply filter_map_fix.
    + intros a. destruct (owned_by (user_id_of user) a) eqn:Ho; [ | now rewrite Ho ].
      unfold owned_by in *. cbn [set_default a_user_id]. now rewrite Ho.
    + intros a Ha. now destruct (owned_by (user_id_of user) a).
  - destruct (PUT_rows E req db) as [ -> | (u & b & aid & Hu' & _ & _ & ->) ];
      [ reflexivity | ].
    rewrite Hu in Hu'. injection Hu' as <-. cbn [addresses].
    apply filter_map_fix.
    + intros a. unfold owned_by.
      now destruct (AddressFacts.updated_row_keeps (user_id_of user) aid b a)
        as (_ & -> & _).
    + intros a Ha. apply updated_row_foreign.
      now destruct (owned_by (user_id_of user) a).
  - destruct (DELETE_rows E req db) as [ -> | (u & i & Hu' & _ & _ & ->) ];
      [ reflexivity | ].
    rewrite Hu in Hu'. injection Hu' as <-. cbn [addresses].
    induction (addresses db) as [ | a l IH ]; [ reflexivity | ].
    cbn [filter]. unfold to_delete at 1.
    destruct (owned_by (user_id_of user) a) eqn:Ho; cbn [negb].
    + destruct (negb _); cbn [filter]; rewrite ?Ho; exact IH.
    + rewrite andb_false_r. cbn [negb filter]. rewrite Ho. cbn [negb].
      now rewrite IH.
Qed.

Lemma other_users_addresses_untouched_witness :
  let clear_all := Streets.from_alice (Some "2"%string)
                     (ShopLater.address_body (Some 2) (Some (JSON.JBool true))) in
  of_others "u1" (snd (GET Shop.externals clear_all Streets.book))
  = of_others "u1" Streets.book
  /\ of_others "u1" (snd (POST Shop.externals 50 clear_all Streets.book))
     = of_others "u1" Streets.book
  /\ of_others "u1" (snd (PUT Shop.externals clear_all Streets.book))
     = of_others "u1" Streets.book
  /\ of_others "u1" (snd (DELETE Shop.externals clear_all Streets.book))
     = of_others "u1" Streets.book.
Proof.
  exact (other_users_addresses_untouched Shop.externals 50
           (Streets.from_alice (Some "2"%string)
              (ShopLater.address_body (Some 2) (Some (JSON.JBool true))))
           Streets.book Streets.ana eq_refl).
Defined.

(** *** The invariant of the address book *)

Lemma ids_after_clearing (p : Address -> bool) rows :
  map a_id (update_where p (set_default false) rows) = map a_id rows.
Proof.
  unfold update_where. rewrite map_map. apply map_ext.
  intros a. now destruct (p a).
Qed.

Lemma ids_after_update uid aid b rows :
  map a_id (map (updated_row uid aid b) rows) = map a_id rows.
Proof.
  rewrite map_map. apply map_ext. intros a.
  now destruct (AddressFacts.updated_row_keeps uid aid b a) as (-> & _).
Qed.

Lemma Forall_ids (P : Z -> Prop) (rows : list Address) :
  Forall (fun a => P (a_id a)) rows <-> Forall P (map a_id rows).
Proof. now rewrite Forall_map. Qed.

(** Clearing default flags gives no user a default it had not. *)
Lemma clearing_shrinks (p : Address -> bool) uid rows :
  (List.length (filter (is_default_of uid)
                  (update_where p (set_default false) rows))
   <= List.length (filter (is_default_of uid) rows))%nat.
Proof.
  unfold update_where. apply filter_length_le_map.
  intros a. destruct (p a); [ | auto ].
  unfold is_default_of. cbn [set_default a_is_default].
  now rewrite andb_false_r.
Qed.

Lemma POST_keeps_tidy E now req db : tidy db -> tidy (snd (POST E now req db)).
Proof.
  intros [[Hnd Hlt] Hone].
  destruct (POST_rows E now req db) as [ -> | (user & b & _ & _ & _ & ->) ];
    [ now repeat split | ].
  cbn [snd]. set (uid := user_id_of user).
  set (rows1 := if default_flag b
                then update_where (owned_by uid) (set_default false) (addresses db)
                else addresses db).
  assert (Hids : map a_id rows1 = map a_id (addresses db)).
  { unfold rows1. destruct (default_flag b); [ apply ids_after_clearing | auto ]. }
  apply (Forall_ids (fun i => i < next_address_id db)) in Hlt.
  split; [ split | ]; cbn [addresses next_address_id].
  - rewrite map_app, Hids. apply NoDup_app; [ exact Hnd | repeat constructor; easy | ].
    intros i Hi [ <- | [] ]. rewrite Forall_forall in Hlt.
    specialize (Hlt _ Hi). cbn [bound_row a_id] in Hlt. lia.
  - apply (Forall_ids (fun i => i < next_address_id db + 1)).
    rewrite map_app, Hids. apply Forall_app. split.
    + eapply Forall_impl; [ | exact Hlt ]. intros i Hi. cbv beta in *. lia.
    + repeat constructor. cbn [bound_row a_id]. lia.
  - intros u. unfold defaults_of. cbn [addresses].
    rewrite filter_app, length_app. cbn [filter].
    pose proof (Hone u) as Hu. unfold defaults_of in Hu.
    destruct (is_default_of u (bound_row (next_address_id db) uid now b))
      eqn:Hnew.
    + unfold is_default_of, owned_by in Hnew.
      cbn [bound_row a_user_id a_is_default] in Hnew.
      apply andb_prop in Hnew as [Hown Hd]. apply String.eqb_eq in Hown.
      subst u. unfold rows1. rewrite Hd, AddressFacts.cleared_defaults.
      simpl. lia.
    + assert (Hle : (List.length (filter (is_default_of u) rows1)
                     <= List.length (filter (is_default_of u) (addresses db)))%nat).
      { unfold rows1. destruct (default_flag b);
          [ apply clearing_shrinks | lia ]. }
      simpl. lia.
Qed.

Lemma PUT_keeps_tidy E req db : tidy db -> tidy (snd (PUT E req db)).
Proof.
  intros [[Hnd Hlt] Hone].
  destruct (PUT_rows E req db) as [ -> | (user & b & aid & _ & _ & _ & ->) ];
    [ now repeat split | ].
  set (uid := user_id_of user).
  split; [ split | ]; cbn [addresses next_address_id].
  - now rewrite ids_after_update.
  - apply (Forall_ids (fun i => i < next_address_id db)).
    rewrite ids_after_update.
    now apply (Forall_ids (fun i => i < next_address_id db)).
  - intros u. unfold defaults_of. cbn [addresses].
    pose proof (Hone u) as Hu. unfold defaults_of in Hu.
    destruct (String.eqb_spec u uid) as [ -> | Hne ].
    + destruct (default_flag b) eqn:Hd.
      * rewrite AddressFacts.filter_map_swap, length_map.
        rewrite (filter_ext _ (fun a => (a_id a =? aid) && owned_by uid a)).
        -- now apply AddressFacts.at_most_one_by_id.
        -- intros a. rewrite AddressFacts.updated_row_default, Hd.
           destruct ((a_id a =? aid) && owned_by uid a);
             [ reflexivity | apply andb_false_r ].
      * etransitivity; [ | exact Hu ]. apply filter_length_le_map.
        intros a. rewrite AddressFacts.updated_row_default, Hd.
        destruct ((a_id a =? aid) && owned_by uid a); [ discriminate | ].
        now rewrite andb_true_r.
    + etransitivity; [ | exact Hu ]. apply filter_length_le_map.
      intros a Ha.
      destruct (owned_by uid a) eqn:Ho;
        [ | now rewrite updated_row_foreign in Ha ].
      exfalso. apply Hne. unfold is_default_of, owned_by in Ha, Ho.
      destruct (AddressFacts.updated_row_keeps uid aid b a) as (_ & Hk & _).
      rewrite Hk in Ha. apply andb_prop in Ha as [Ha _].
      apply String.eqb_eq in Ha, Ho. congruence.
Qed.

Lemma DELETE_keeps_tidy E req db : tidy db -> tidy (snd (DELETE E req db)).
Proof.
  intros [[Hnd Hlt] Hone].
  destruct (DELETE_rows E req db) as [ -> | (user & i & _ & _ & _ & ->) ];
    [ now repeat split | ].
  split; [ split | ]; cbn [addresses next_address_id].
  - now apply NoDup_map_filter.
  - apply Forall_forall. intros a Ha. apply filter_In in Ha as [Ha _].
    rewrite Forall_forall in Hlt. auto.
  - intros u. unfold defaults_of. cbn [addresses].
    etransitivity; [ apply filter_filter_le | apply Hone ].
Qed.

(** The address handlers keep the book tidy: when [id] is a key below the
    next AUTO_INCREMENT value and no user has two default addresses, the
    same holds after any Create, Update or Delete, whatever the request. *)
Theorem address_handlers_keep_book_tidy E now req db :
  tidy db ->
  tidy (snd (POST E now req db))
  /\ tidy (snd (PUT E req db))
  /\ tidy (snd (DELETE E req db)).
Proof.
  intros H. split; [ | split ].
  - now apply POST_keeps_tidy.
  - now apply PUT_keeps_tidy.
  - now apply DELETE_keeps_tidy.
Qed.

Lemma address_handlers_keep_book_tidy_witness :
  let req := Streets.from_alice (Some "3"%string)
               (ShopLater.address_body (Some 4) (Some (JSON.JBool true))) in
  tidy Streets.book
  /\ tidy (snd (POST Shop.externals 50 req Streets.book))
  /\ tidy (snd (PUT Shop.externals req Streets.book))
  /\ tidy (snd (DELETE Shop.externals req Streets.book)).
Proof.
  assert (H : tidy Streets.book).
  { split; [ split | ].
    - simpl. repeat constructor; simpl; intuition discriminate.
    - repeat constructor.
    - intros u. unfold defaults_of, is_default_of, owned_by.
      unfold Streets.book, Streets.written.
      cbn [addresses filter a_user_id a_is_default].
      destruct (String.eqb_spec "u1" u) as [ <- | ];
        [ simpl; lia | ].
      destruct (String.eqb_spec "u2" u); simpl; lia. }
  split; [ exact H | ].
  exact (address_handlers_keep_book_tidy Shop.externals 50
           (Streets.from_alice (Some "3"%string)
              (ShopLater.address_body (Some 4) (Some (JSON.JBool true))))
           Streets.book H).
Defined.

(** *** Deleting *)

(** DELETE /addresses?id= by a caller with a good token removes the rows
    that carry the id and belong to the caller, and no other row.  When
    there is no such row (the id is unknown, or is an address of someone
    else) the answer is the 404 "Address not found or unauthorized" and
    the table is as it was; when there is one the answer is the 200
    "Address deleted successfully" and the table is shorter.  A GET by
    the caller right after lists no address with that id. *)
Theorem delete_is_scoped_to_owner E req db user addressId :
  getUserFromToken E (authorization req) = Some user ->
  query_id req = Some addressId -> addressId <> EmptyString ->
  let mine := to_delete E addressId (user_id_of user) in
  let '(resp, db') := DELETE E req db in
  (forall a, In a (addresses db') <-> In a (addresses db) /\ mine a = false)
  /\ next_address_id db' = next_address_id db
  /\ (Forall (fun a => mine a = false) (addresses db) ->
      resp = reply 404 (BError "Address not found or unauthorized")
      /\ db' = db)
  /\ (Exists (fun a => mine a = true) (addresses db) ->
      resp = reply 200 (BMessage "Address deleted successfully")
      /\ (List.length (addresses db') < List.length (addresses db))%nat)
  /\ exists rows,
      GET E req db' = (reply 200 (BAddresses rows), db')
      /\ Forall (fun a => sql_id_eq E addressId (a_id a) = false) rows.
Proof.
  intros Hu Hq Hne mine. unfold DELETE.
  rewrite Hu, Hq, (StatusUpdateFacts.truthy_str_some _ Hne). cbn [negb].
  fold (to_delete E addressId (user_id_of user)). fold mine.
  change (fun a => sql_id_eq E addressId (a_id a) && owned_by (user_id_of user) a)
    with mine.
  set (db2 := {| addresses := filter (fun a => negb (mine a)) (addresses db);
                 next_address_id := next_address_id db |}).
  assert (Hin : forall a,
             In a (addresses db2) <-> In a (addresses db) /\ mine a = false).
  { intros a. cbn [db2 addresses]. rewrite filter_In, negb_true_iff. tauto. }
  assert (Hnone : Forall (fun a => mine a = false) (addresses db) -> db2 = db).
  { intros Hall. unfold db2.
    rewrite CreatedOrderFacts.filter_all; [ now destruct db | ].
    eapply Forall_impl; [ | exact Hall ]. intros a ->. reflexivity. }
  assert (Hget : exists rows,
             GET E req db2 = (reply 200 (BAddresses rows), db2)
             /\ Forall (fun a => sql_id_eq E addressId (a_id a) = false) rows).
  { eexists. split; [ exact (GET_answer E req db2 user Hu) | ].
    apply Forall_forall. intros a Ha.
    apply ListingFacts.In_order_by_desc, ListingFacts.In_order_by_desc in Ha.
    apply filter_In in Ha as [Ha Hown]. apply Hin in Ha as [_ Hm].
    unfold mine, to_delete in Hm. rewrite Hown, andb_true_r in Hm. exact Hm. }
  pose proof (filter_split_length mine (addresses db)) as Hlen.
  destruct (count_rows mine (addresses db) =? 0) eqn:Hc.
  - apply Z.eqb_eq in Hc. apply StatusUpdateFacts.count_rows_zero in Hc as Hall.
    split; [ exact Hin | ]. split; [ reflexivity | ].
    split; [ | split; [ | exact Hget ] ].
    + intros _. split; [ reflexivity | now apply Hnone ].
    + intros Hex. exfalso. apply Exists_exists in Hex as (a & Ha & Hm).
      rewrite Forall_forall in Hall. rewrite (Hall a Ha) in Hm. discriminate.
  - apply Z.eqb_neq in Hc.
    split; [ exact Hin | ]. split; [ reflexivity | ].
    split; [ | split; [ | exact Hget ] ].
    + intros Hall. exfalso. now apply Hc, StatusUpdateFacts.count_rows_zero.
    + intros _. split; [ reflexivity | ].
      change (List.length (filter (fun a => negb (mine a)) (addresses db))
              < List.length (addresses db))%nat.
      unfold count_rows in Hc. lia.
Qed.

Lemma delete_is_scoped_to_owner_witness :
  (let '(resp, db') :=
     DELETE Shop.externals
       (Streets.from_alice (Some "2"%string) (ShopLater.address_body None None))
       Streets.book in
   resp = reply 404 (BError "Address not found or unauthorized")
   /\ db' = Streets.book)
  /\ (let '(resp, db') :=
        DELETE Shop.externals
          (Streets.from_alice (Some "3"%string) (ShopLater.address_body None None))
          Streets.book in
      resp = reply 200 (BMessage "Address deleted successfully")
      /\ map a_id (addresses db') = [1; 2; 4]).
Proof.
  split.
  - pose proof (delete_is_scoped_to_owner Shop.externals
                  (Streets.from_alice (Some "2"%string)
                     (ShopLater.address_body None None))
                  Streets.book Streets.ana "2"
                  eq_refl eq_refl ltac:(discriminate)) as H.
    cbv zeta in H. destruct (DELETE _ _ _) as [resp db'].
    destruct H as (_ & _ & H & _ & _). apply H. repeat constructor.
  - pose proof (delete_is_scoped_to_owner Shop.externals
                  (Streets.from_alice (Some "3"%string)
                     (ShopLater.address_body None None))
                  Streets.book Streets.ana "3"
                  eq_refl eq_refl ltac:(discriminate)) as H.
    cbv zeta in H.
    destruct (DELETE _ _ _) as [resp db'] eqn:Hd.
    destruct H as (_ & _ & _ & H & _). split.
    + apply H. right. right. left. reflexivity.
    + vm_compute in Hd. injection Hd as _ <-. reflexivity.
Defined.

(** *** Updating *)

(** PUT /addresses with an [id] that no address of the caller carries (an
    unknown id, or an address of someone else) is answered 404 "Address not
    found", and nothing is written. *)
Theorem update_of_unowned_address_refused E req db user b aid :
  getUserFromToken E (authorization req) = Some user ->
  json_body req = Js.Ok b -> id b = Some aid -> aid <> 0 ->
  missing_required b = false ->
  (forall a, In a (addresses db) -> a_id a = aid ->
             a_user_id a <> user_id_of user) ->
  PUT E req db = (reply 404 (BError "Address not found"), db).
Proof.
  intros Hu Hb Hid Hz Hm Hno. unfold PUT. rewrite Hu, Hb, Hid, Hm.
  cbn [Js.truthy_num]. apply Z.eqb_neq in Hz. rewrite Hz. cbn [negb].
  rewrite CreatedOrderFacts.filter_none; [ reflexivity | ].
  apply Forall_forall. intros a Ha.
  destruct (a_id a =? aid) eqn:Hi; [ | reflexivity ].
  apply Z.eqb_eq in Hi. specialize (Hno a Ha Hi). unfold owned_by.
  apply String.eqb_neq in Hno. now rewrite Hno.
Qed.

Lemma update_of_unowned_address_refused_witness :
  PUT Shop.externals
    (Streets.from_alice None (ShopLater.address_body (Some 2) None))
    Streets.book
  = (reply 404 (BError "Address not found"), Streets.book).
Proof.
  apply (update_of_unowned_address_refused Shop.externals
           (Streets.from_alice None (ShopLater.address_body (Some 2) None))
           Streets.book Streets.ana (ShopLater.address_body (Some 2) None) 2
           eq_refl eq_refl eq_refl ltac:(discriminate) eq_refl).
  intros a [ <- | [ <- | [ <- | [ <- | [] ] ] ] ]; simpl; discriminate.
Defined.

Lemma mine_after_clearing aid uid b rows :
  filter (fun a => (a_id a =? aid) && owned_by uid a)
    (if default_flag b
     then update_where (fun a => owned_by uid a && negb (a_id a =? aid))
            (set_default false) rows
     else rows)
  = filter (fun a => (a_id a =? aid) && owned_by uid a) rows.
Proof.
  destruct (default_flag b); [ | reflexivity ].
  unfold update_where. apply filter_map_fix.
  - intros a. destruct (owned_by uid a && negb (a_id a =? aid)); reflexivity.
  - intros a Ha. apply andb_prop in Ha as [-> _].
    now rewrite andb_false_r.
Qed.

Lemma mine_after_update aid uid b rows :
  filter (fun a => (a_id a =? aid) && owned_by uid a)
    (update_where (fun a => (a_id a =? aid) && owned_by uid a)
       (fun a => bound_row (a_id a) (a_user_id a) (a_created_at a) b) rows)
  = map (fun a => bound_row (a_id a) (a_user_id a) (a_created_at a) b)
      (filter (fun a => (a_id a =? aid) && owned_by uid a) rows).
Proof.
  unfold update_where.
  induction rows as [ | a rows IH ]; [ reflexivity | ]. cbn [map filter].
  destruct ((a_id a =? aid) && owned_by uid a) eqn:Ha.
  - unfold owned_by in *. cbn [bound_row a_id a_user_id].
    rewrite Ha. cbn [map]. now rewrite IH.
  - now rewrite Ha, IH.
Qed.

Lemma rows_after_update aid uid b rows :
  update_where (fun a => (a_id a =? aid) && owned_by uid a)
    (fun a => bound_row (a_id a) (a_user_id a) (a_created_at a) b)
    (if default_flag b
     then update_where (fun a => owned_by uid a && negb (a_id a =? aid))
            (set_default false) rows
     else rows)
  = map (updated_row uid aid b) rows.
Proof.
  unfold update_where, updated_row.
  destruct (default_flag b); [ rewrite map_map | ]; reflexivity.
Qed.





(** *** What a request must carry *)

(** After the token check the handlers validate before they write.  A
    body that is no JSON is a 500.  An Update whose [id] is absent or 0 is
    a 400 "Address ID is required", whatever the other fields; a Create,
    or an Update with an [id], in which one of [address_line_1], [city],
    [first_name], [last_name] is absent or the empty string is the 400
    that names the four fields; a Delete whose [id] query parameter is
    absent or empty is a 400.  In each case the table is as it was. *)
Theorem address_requests_are_validated E now req db user :
  getUserFromToken E (authorization req) = Some user ->
  (json_body req = Js.Throw ->
   POST E now req db = (internal_error, db)
   /\ PUT E req db = (internal_error, db))
  /\ (forall b,
         json_body req = Js.Ok b ->
         (id b = None \/ id b = Some 0 ->
          PUT E req db = (reply 400 (BError "Address ID is required"), db))
         /\ (Exists (fun field => field = None \/ field = Some EmptyString)
                    [address_line_1 b; city b; first_name b; last_name b] ->
             POST E now req db
             = (reply 400 (BError "Address line 1, city, first name, and last name are required"),
                db)
             /\ forall aid,
                 id b = Some aid -> aid <> 0 ->
                 PUT E req db
                 = (reply 400 (BError "Address line 1, city, first name, and last name are required"),
                    db)))
  /\ (query_id req = None \/ query_id req = Some EmptyString ->
      DELETE E req db = (reply 400 (BError "Address ID is required"), db)).
Proof.
  intros Hu. split; [ | split ].
  - intros Hb. unfold POST, PUT. now rewrite Hu, Hb.
  - intros b Hb. split.
    + unfold PUT. rewrite Hu, Hb. now intros [ -> | -> ].
    + intros Hex.
      assert (Hm : missing_required b = true).
      { unfold missing_required.
        assert (Hf : forall f, f = None \/ f = Some EmptyString ->
                               negb (Js.truthy_str f) = true)
          by (now intros f [ -> | -> ]).
        inversion Hex as [ ? ? H | ? ? Hex1 ]; subst;
          [ now rewrite (Hf _ H) | ].
        inversion Hex1 as [ ? ? H | ? ? Hex2 ]; subst;
          [ now rewrite (Hf _ H), orb_true_r | ].
        inversion Hex2 as [ ? ? H | ? ? Hex3 ]; subst;
          [ now rewrite (Hf _ H), !orb_true_r | ].
        inversion Hex3 as [ ? ? H | ? ? Hex4 ]; subst;
          [ now rewrite (Hf _ H), !orb_true_r | inversion Hex4 ]. }
      split.
      * unfold POST. now rewrite Hu, Hb, Hm.
      * intros aid Hid Hz. unfold PUT. rewrite Hu, Hb, Hid, Hm.
        cbn [Js.truthy_num]. apply Z.eqb_neq in Hz. now rewrite Hz.
  - unfold DELETE. rewrite Hu. now intros [ -> | -> ].
Qed.

Lemma address_requests_are_validated_witness :
  let nameless :=
    {| id := Some 4; address_line_1 := Some "7 Rizal Ave"%string;
       address_line_2 := None; city := Some "Cebu"%string; state := None;
       postal_code := None; country := None;
       first_name := Some EmptyString; last_name := Some "Cruz"%string;
       phone := None; is_default := None |} in
  POST Shop.externals 50 (Streets.from_alice None nameless) Streets.book
  = (reply 400 (BError "Address line 1, city, first name, and last name are required"),
     Streets.book)
  /\ PUT Shop.externals (Streets.from_alice None nameless) Streets.book
     = (reply 400 (BError "Address line 1, city, first name, and last name are required"),
        Streets.book)
  /\ PUT Shop.externals
       (Streets.from_alice None (ShopLater.address_body (Some 0) None))
       Streets.book
     = (reply 400 (BError "Address ID is required"), Streets.book)
  /\ DELETE Shop.externals
       (Streets.from_alice (Some EmptyString) (ShopLater.address_body None None))
       Streets.book
     = (reply 400 (BError "Address ID is required"), Streets.book).
Proof.
  intros nameless.
  destruct (address_requests_are_validated Shop.externals 50
              (Streets.from_alice None nameless) Streets.book Streets.ana eq_refl)
    as (_ & H & _).
  destruct (H nameless eq_refl) as (_ & H1).
  destruct H1 as [Hpost Hput];
    [ right; right; left; right; reflexivity | ].
  split; [ exact Hpost | ].
  split; [ exact (Hput 4 eq_refl ltac:(discriminate)) | ].
  split.
  - destruct (address_requests_are_validated Shop.externals 50
                (Streets.from_alice None (ShopLater.address_body (Some 0) None))
                Streets.book Streets.ana eq_refl) as (_ & H0 & _).
    destruct (H0 _ eq_refl) as (H2 & _). apply H2. now right.
  - destruct (address_requests_are_validated Shop.externals 50
                (Streets.from_alice (Some EmptyString)
                   (ShopLater.address_body None None))
                Streets.book Streets.ana eq_refl) as (_ & _ & H3).
    apply H3. now right.
Defined.

(** *** A Create, then the listing *)





End AddressBookFacts.

(* ================================================================== *)
(** ** Order creation: the other ways out of the stock check *)

Module StockCheckExitFacts.
Import OrderData StockFacts.

(** Items that pass the check are walked over. *)
Lemma validate_prefix E ps pre rest :
  Forall (in_stock E ps) pre ->
  validate_stock E ps (pre ++ rest)
  = (fst (validate_stock E ps rest),
     map select_event pre ++ snd (validate_stock E ps rest)).
Proof.
  induction 1 as [ | item pre' (a & Hs & Hq) _ IH ].
  - simpl. now destruct (validate_stock E ps rest).
  - simpl app. rewrite validate_step, Hs.
    rewrite Hq, IH. reflexivity.
Qed.

Lemma stock_of_missing E ps item :
  Forall (fun p => p_id p <> product_id item) ps -> stock_of E ps item = None.
Proof.
  intros H. unfold stock_of. rewrite CreatedOrderFacts.filter_none; [ reflexivity | ].
  eapply Forall_impl; [ | exact H ]. intros p Hp. now apply Z.eqb_neq.
Qed.

Lemma stock_of_null E ps item product others text :
  filter (fun p => p_id p =? product_id item) ps = product :: others ->
  p_variants product = Some text -> text <> EmptyString ->
  json_parse E text = Some JSON.JNull ->
  stock_of E ps item = Some Js.Throw.
Proof.
  intros Hf Hv Ht Hp. unfold stock_of. rewrite Hf. f_equal.
  now rewrite (parse_variants_parsed E product text _ Hv Ht Hp).
Qed.

Lemma POST_reaches_the_check E now req db b its :
  json_body req = Js.Ok b -> items b = Some its -> its <> [] ->
  no_total_or_email b = false ->
  OrdersByBody.POST E now req db
  = create_order E now (authorization req) (Js.or_null (user_id b)) None b its db
  /\ forall user,
      getUserFromToken E (authorization req) = Some user ->
      Orders.POST E now req db
      = create_order E now (authorization req) (Some (user_id_of user))
          (Js.or_null (payment_screenshot b)) b its db.
Proof.
  intros Hb Hi Hne Hn. destruct its as [ | i its ]; [ contradiction | ].
  split; [ | intros user Hu ]; unfold OrdersByBody.POST, Orders.POST;
    try rewrite Hu; now rewrite Hb, Hi, Hn.
Qed.

Lemma app_cons_not_nil {A} (pre : list A) it post : pre ++ it :: post <> [].
Proof. now destruct pre. Qed.

(** An item whose product is not in [products] stops order creation at
    the stock check, once the items before it have passed: the answer is
    the 400 "Product not found: " followed by the item's [product_name];
    only product queries were made, up to that item, and nothing is
    written.  So it is on both order routes. *)
Theorem missing_product_rejected E now req db b pre it post :
  json_body req = Js.Ok b ->
  items b = Some (pre ++ it :: post) ->
  no_total_or_email b = false ->
  Forall (in_stock E (products db)) pre ->
  Forall (fun p => p_id p <> product_id it) (products db) ->
  let answer :=
    (reply 400 (BError (cat ["Product not found: "%string; product_name it])),
     db, map select_event (pre ++ [it])) in
  OrdersByBody.POST E now req db = answer
  /\ forall user,
      getUserFromToken E (authorization req) = Some user ->
      Orders.POST E now req db = answer.
Proof.
  intros Hb Hi Hn Hpre Hmiss answer.
  destruct (POST_reaches_the_check E now req db b _ Hb Hi
              (app_cons_not_nil pre it post) Hn) as [H1 H2].
  assert (Hv : validate_stock E (products db) (pre ++ it :: post)
               = (Js.Ok (Some (reply 400
                    (BError (cat ["Product not found: "%string; product_name it])))),
                  map select_event (pre ++ [it]))).
  { rewrite (validate_prefix _ _ _ _ Hpre), validate_step.
    rewrite (stock_of_missing _ _ _ Hmiss). cbn [fst snd]. now rewrite map_app. }
  split; [ rewrite H1 | intros user Hu; rewrite (H2 user Hu) ];
    unfold create_order; now rewrite Hv.
Qed.

Lemma missing_product_rejected_witness :
  let req := Shop.request None None
               (Backroom.for_buyer None [Shop.item 1 2; Shop.item 9 1; Shop.item 1 40]) in
  OrdersByBody.POST Shop.externals 1700000000000 req Shop.db0
  = (reply 400 (BError "Product not found: Runner"), Shop.db0,
     [select_event (Shop.item 1 2); select_event (Shop.item 9 1)]).
Proof.
  refine (proj1 (missing_product_rejected Shop.externals 1700000000000
                   (Shop.request None None
                      (Backroom.for_buyer None
                         [Shop.item 1 2; Shop.item 9 1; Shop.item 1 40]))
                   Shop.db0
                   (Backroom.for_buyer None
                      [Shop.item 1 2; Shop.item 9 1; Shop.item 1 40])
                   [Shop.item 1 2] (Shop.item 9 1) [Shop.item 1 40]
                   eq_refl eq_refl eq_refl _ _)).
  - constructor; [ | constructor ].
    exists (JSON.JNum 5). split; reflexivity.
  - repeat constructor; simpl; discriminate.
Defined.

(** The tolerant parse of [variants] does not reach a text that reads as
    [null]: it parses, and reading the item's color off [null] throws
    outside the inner try.  Such a product ends order creation with the 500 "Internal
    server error" (where text that does not parse counts as no stock and
    gives a 400); nothing is written. *)
Theorem null_variants_break_the_check E now req db b pre it post
  product others text :
  json_body req = Js.Ok b ->
  items b = Some (pre ++ it :: post) ->
  no_total_or_email b = false ->
  Forall (in_stock E (products db)) pre ->
  filter (fun p => p_id p =? product_id it) (products db) = product :: others ->
  p_variants product = Some text ->
  text <> EmptyString ->
  json_parse E text = Some JSON.JNull ->
  let answer :=
    (reply 500 (BError "Internal server error"), db,
     map select_event (pre ++ [it])) in
  OrdersByBody.POST E now req db = answer
  /\ forall user,
      getUserFromToken E (authorization req) = Some user ->
      Orders.POST E now req db = answer.
Proof.
  intros Hb Hi Hn Hpre Hf Hv Ht Hp answer.
  destruct (POST_reaches_the_check E now req db b _ Hb Hi
              (app_cons_not_nil pre it post) Hn) as [H1 H2].
  assert (Hval : validate_stock E (products db) (pre ++ it :: post)
                 = (Js.Throw, map select_event (pre ++ [it]))).
  { rewrite (validate_prefix _ _ _ _ Hpre), validate_step.
    rewrite (stock_of_null _ _ _ _ _ _ Hf Hv Ht Hp). cbn [fst snd].
    now rewrite map_app. }
  split; [ rewrite H1 | intros user Hu; rewrite (H2 user Hu) ];
    unfold create_order; now rewrite Hval.
Qed.

Lemma null_variants_break_the_check_witness :
  let req := Shop.request Shop.as_alice None
               (Backroom.for_buyer None [Shop.item 3 1]) in
  Orders.POST Shop.externals 1700000000000 req Backroom.db
  = (reply 500 (BError "Internal server error"), Backroom.db,
     [select_event (Shop.item 3 1)]).
Proof.
  refine (proj2 (null_variants_break_the_check Shop.externals 1700000000000
                   (Shop.request Shop.as_alice None
                      (Backroom.for_buyer None [Shop.item 3 1]))
                   Backroom.db (Backroom.for_buyer None [Shop.item 3 1])
                   [] (Shop.item 3 1) [] Backroom.voided [] "null"
                   eq_refl eq_refl eq_refl _ eq_refl eq_refl _ eq_refl)
                {| user_id_of := "u1"; user_email := "a@b.com" |} eq_refl).
  - constructor.
  - discriminate.
Defined.

End StockCheckExitFacts.

(* ================================================================== *)
(** ** Listing orders *)

Module OrderListingFacts.
Import OrderData OrderBook OrderJoin.

Lemma Number_render E v : Number (render_decimal E v) = amount v.
Proof. destruct v; simpl; [ destruct (decimal_as_text E) | ]; reflexivity. Qed.

Lemma all_Forall2 {A B} (f : A -> Js.result B) l :
  Forall (fun x => f x <> Js.Throw) l ->
  exists ys, Orders.all f l = Js.Ok ys /\ Forall2 (fun x y => f x = Js.Ok y) l ys.
Proof.
  induction 1 as [ | x l Hx _ (ys & Hys & Hall) ].
  - exists []. split; [ reflexivity | constructor ].
  - destruct (f x) as [ y | ] eqn:Hfx; [ | contradiction ].
    exists (y :: ys). split; [ simpl; now rewrite Hfx, Hys | ].
    now constructor.
Qed.

(** One rejection rejects the whole. *)
Lemma all_throw {A B} (f : A -> Js.result B) l :
  Exists (fun x => f x = Js.Throw) l -> Orders.all f l = Js.Throw.
Proof.
  induction 1 as [ x l Hx | x l _ IH ]; simpl.
  - now rewrite Hx.
  - rewrite IH. now destruct (f x).
Qed.

(** The two ways reading a stored address ends. *)
Lemma parse_address_cases E stored :
  match parse_address E stored with
  | Js.Ok shown => address_shown E stored shown
  | Js.Throw => unreadable E stored
  end.
Proof.
  unfold parse_address, address_shown, unreadable, Js.truthy_str.
  destruct stored as [ t | ]; [ | reflexivity ].
  destruct (String.eqb_spec t EmptyString) as [ -> | Hne ]; [ reflexivity | ].
  cbn [negb]. destruct (json_parse E t) as [ v | ] eqn:Hp; eauto.
Qed.

Lemma unreadable_throws E stored :
  unreadable E stored -> parse_address E stored = Js.Throw.
Proof.
  intros (t & -> & Hne & Hp). unfold parse_address.
  now rewrite (StockFacts.truthy_text t Hne), Hp.
Qed.

Lemma parse_address_text E t v :
  t <> EmptyString -> json_parse E t = Some v ->
  parse_address E (Some t) = Js.Ok (Some v).
Proof.
  intros Hne Hp. unfold parse_address.
  now rewrite (StockFacts.truthy_text t Hne), Hp.
Qed.

Lemma list_order_shows E db (o : Order) :
  match Orders.list_order E db (select_order E o) with
  | Js.Ok lo => shown_as E db o lo
  | Js.Throw => unreadable E (o_shipping_address o)
  end.
Proof.
  unfold Orders.list_order.
  change (o_shipping_address (select_order E o)) with (o_shipping_address o).
  pose proof (parse_address_cases E (o_shipping_address o)) as Hp.
  destruct (parse_address E (o_shipping_address o)) as [ parsed | ];
    [ | exact Hp ].
  cbn [Js.bind]. unfold shown_as, select_order.
  cbn [lo_id lo_order_number lo_status lo_created_at lo_subtotal lo_tax_amount
       lo_shipping_amount lo_discount_amount lo_total lo_shipping_address
       lo_items convert_order o_id o_order_number o_status o_created_at
       o_subtotal o_tax_amount o_shipping_amount o_discount_amount
       o_total_amount].
  rewrite !Number_render. repeat split. exact Hp.
Qed.

Lemma Forall2_map_l {A B C} (P : B -> C -> Prop) (g : A -> B) l ys :
  Forall2 P (map g l) ys <-> Forall2 (fun a y => P (g a) y) l ys.
Proof.
  revert ys. induction l as [ | a l IH ]; intros ys; simpl.
  - split; inversion 1; constructor.
  - split; inversion 1; subst; constructor; auto; now apply IH.
Qed.

Lemma GET_rows E req db user :
  getUserFromToken E (authorization req) = Some user ->
  exists rows,
    OrdersByBody.GET E req db = (reply 200 (BRows rows), db)
    /\ Permutation rows
         (map (select_order E)
            (filter (Orders.owner_is (user_id_of user)) (orders db)))
    /\ StronglySorted newest_first rows.
Proof.
  intros Hu. unfold OrdersByBody.GET. rewrite Hu.
  eexists. split; [ reflexivity | ]. split.
  - apply Permutation_map, SortFacts.Permutation_order_by_desc.
  - apply SortFacts.StronglySorted_map.
    apply (SortFacts.order_by_desc_descending o_created_at).
Qed.

Lemma all_ok_Forall2 {A B} (f : A -> Js.result B) l ys :
  Orders.all f l = Js.Ok ys -> Forall2 (fun x y => f x = Js.Ok y) l ys.
Proof.
  revert ys. induction l as [ | x l IH ]; intros ys; simpl.
  - intros [= <-]. constructor.
  - destruct (f x) as [ y | ] eqn:Hx; [ | discriminate ]. cbn [Js.bind].
    destruct (Orders.all f l) as [ ys' | ]; [ | discriminate ].
    cbn [Js.bind]. intros [= <-]. constructor; auto.
Qed.

(** What a 200 of the listing with line items holds: the caller's orders,
    newest first, each as [shown_as] tells. *)
Lemma GET_listed E req db user listed :
  getUserFromToken E (authorization req) = Some user ->
  Orders.GET E req db = (reply 200 (BListed listed), db) ->
  Forall2 (shown_as E db)
    (order_by_desc o_created_at
       (filter (Orders.owner_is (user_id_of user)) (orders db)))
    listed.
Proof.
  intros Hu. unfold Orders.GET. rewrite Hu.
  destruct (Orders.all _ _) as [ ys | ] eqn:Hall; [ | discriminate ].
  intros [= <-]. apply all_ok_Forall2, Forall2_map_l in Hall.
  eapply Forall2_impl; [ | exact Hall ]. intros o lo Hlo.
  pose proof (list_order_shows E db o) as Hs. now rewrite Hlo in Hs.
Qed.

Lemma listed_ids E db (os : list Order) listed oid :
  Forall2 (shown_as E db) os listed ->
  Exists (fun lo => lo_id lo = oid) listed
  <-> Exists (fun o : Order => o_id o = oid) os.
Proof.
  induction 1 as [ | o lo os listed (Hid & _) _ IH ].
  - split; inversion 1.
  - split; inversion 1; subst.
    + left. congruence.
    + right. now apply IH.
    + left. congruence.
    + right. now apply IH.
Qed.

(** GET /orders by a caller with a good token lists the caller's orders,
    each once, the newest first, and leaves the database as it was.  The
    route that takes the buyer from the body answers with the rows as
    selected.  The other route shows each order with its amounts as the
    numbers stored (0 for NULL) whatever the driver hands back, its
    address as the engine's JSON.parse reads the stored text ([null] for
    NULL and for the empty text) and its line items; it does so when
    JSON.parse throws on no stored address of the caller, and when it
    throws on one the whole listing is the 500 "Internal server error". *)
Theorem order_listing_newest_first E req db user :
  getUserFromToken E (authorization req) = Some user ->
  let mine := filter (Orders.owner_is (user_id_of user)) (orders db) in
  (exists rows,
      OrdersByBody.GET E req db = (reply 200 (BRows rows), db)
      /\ Permutation rows (map (select_order E) mine)
      /\ StronglySorted newest_first rows)
  /\ (Forall (fun o => forall t, o_shipping_address o = Some t ->
                                   t <> EmptyString -> json_parse E t <> None)
             mine ->
      exists sorted listed,
        Orders.GET E req db = (reply 200 (BListed listed), db)
        /\ Permutation sorted mine
        /\ StronglySorted newest_first sorted
        /\ Forall2 (shown_as E db) sorted listed)
  /\ (Exists (fun o => exists t, o_shipping_address o = Some t
                                  /\ t <> EmptyString /\ json_parse E t = None)
             mine ->
      Orders.GET E req db = (reply 500 (BError "Internal server error"), db)).
Proof.
  intros Hu mine. split; [ now apply GET_rows | ].
  unfold Orders.GET. rewrite Hu. fold mine.
  pose proof (SortFacts.Permutation_order_by_desc o_created_at mine) as Hperm.
  split.
  - intros Hok.
    destruct (all_Forall2 (Orders.list_order E db)
                (map (select_order E) (order_by_desc o_created_at mine)))
      as (listed & -> & Hall).
    { apply Forall_map, Forall_forall. intros o Ho.
      pose proof (list_order_shows E db o) as Hs.
      destruct (Orders.list_order E db (select_order E o)); [ discriminate | ].
      rewrite Forall_forall in Hok. exfalso.
      destruct Hs as (t & Ht & Hne & Hp).
      apply (Hok o (Permutation_in _ Hperm Ho) t Ht Hne Hp). }
    exists (order_by_desc o_created_at mine), listed.
    split; [ reflexivity | ]. split; [ exact Hperm | ].
    split; [ apply (SortFacts.order_by_desc_descending o_created_at) | ].
    apply Forall2_map_l in Hall.
    eapply Forall2_impl; [ | exact Hall ]. intros o lo Hlo.
    pose proof (list_order_shows E db o) as Hs. now rewrite Hlo in Hs.
  - intros Hex. rewrite all_throw; [ reflexivity | ].
    apply Exists_exists in Hex as (o & Ho & Hthrow).
    apply Exists_exists. exists (select_order E o). split.
    + apply in_map. apply (Permutation_in _ (Permutation_sym Hperm) Ho).
    + unfold Orders.list_order.
      change (o_shipping_address (select_order E o)) with (o_shipping_address o).
      now rewrite (unreadable_throws E _ Hthrow).
Qed.

Lemma order_listing_newest_first_witness :
  exists sorted listed,
    Orders.GET Shop.externals Shop.example_request Backroom.db2
    = (reply 200 (BListed listed), Backroom.db2)
    /\ Permutation sorted
         (filter (Orders.owner_is "u1") (orders Backroom.db2))
    /\ StronglySorted newest_first sorted
    /\ Forall2 (shown_as Shop.externals Backroom.db2) sorted listed.
Proof.
  refine (proj1 (proj2 (order_listing_newest_first Shop.externals
                          Shop.example_request Backroom.db2
                          {| user_id_of := "u1"; user_email := "a@b.com" |}
                          eq_refl)) _).
  repeat constructor; intros t [= <-] _; vm_compute; discriminate.
Defined.

(** *** The line items of a listed order *)

Lemma product_by_key ps k :
  NoDup (map p_id ps) ->
  (filter (fun p => p_id p =? k) ps = []
   /\ existsb (fun p => p_id p =? k) ps = false)
  \/ (exists p, filter (fun p => p_id p =? k) ps = [p]
                /\ existsb (fun p => p_id p =? k) ps = true).
Proof.
  induction ps as [ | p ps IH ]; intros Hnd; [ now left | ].
  inversion Hnd as [ | ? ? Hnotin Hnd' ]; subst. cbn [filter existsb].
  destruct (p_id p =? k) eqn:Hk.
  - right. exists p. split; [ | reflexivity ]. f_equal.
    apply CreatedOrderFacts.filter_none, Forall_forall. intros q Hq.
    apply Z.eqb_neq. intros Hqk. apply Hnotin. apply Z.eqb_eq in Hk.
    rewrite Hk, <- Hqk. now apply in_map.
  - cbn [orb]. now apply IH.
Qed.

(** The line items GET shows for an order are its item rows joined with
    their products: each shown item comes from an item row of that order
    and a product row with the item's [product_id], carries the row's
    quantity, size and color, its price as the number stored (0 for
    NULL), and the product's name, brand and image.  When [id] is a key of
    [products] there is one shown item for each item row whose product is
    still there; an item row whose product is gone is not shown. *)
Theorem listed_items_follow_the_join E db oid :
  Forall (fun li => exists oi p,
              In oi (order_items db) /\ In p (products db)
              /\ joined oid oi p li)
         (Orders.listed_items E db oid)
  /\ (NoDup (map p_id (products db)) ->
      Permutation
        (map li_id (Orders.listed_items E db oid))
        (map oi_id
           (filter (has_product db)
              (filter (fun oi => oi_order_id oi =? oid) (order_items db))))).
Proof.
  unfold Orders.listed_items. split.
  - apply Forall_forall. intros li Hli.
    apply in_flat_map in Hli as (oi & Hoi & Hli).
    apply in_map_iff in Hli as (p & <- & Hp).
    apply filter_In in Hoi as [Hoi Hoid]. apply filter_In in Hp as [Hp Hpid].
    exists oi, p. split; [ exact Hoi | ]. split; [ exact Hp | ].
    apply Z.eqb_eq in Hoid, Hpid. unfold joined.
    cbn [li_id li_quantity li_price li_size li_color li_name li_brand
         li_image_url Number].
    rewrite Number_render. repeat split; assumption.
  - intros Hnd.
    match goal with
    | |- Permutation ?l ?r => assert (Heq : l = r); [ | now rewrite Heq ]
    end.
    induction (filter (fun oi => oi_order_id oi =? oid) (order_items db))
      as [ | oi l IH ]; [ reflexivity | ].
    cbn [flat_map filter]. rewrite map_app, IH. unfold has_product at 2.
    destruct (product_by_key (products db) (oi_product_id oi) Hnd)
      as [ [-> ->] | (p & -> & ->) ]; reflexivity.
Qed.

End OrderListingFacts.

(* ================================================================== *)
(** ** What order creation leaves in the tables *)

Module OrderTableFacts.
Import OrderData OrderBook StockFacts CreationFacts.

(** POST either answers before the stock check, with no 201 and nothing
    done, or is [create_order]. *)
Lemma token_POST_cases E now req db :
  (exists r, Orders.POST E now req db = (r, db, []) /\ resp_status r <> 201)
  \/ exists user b its,
      getUserFromToken E (authorization req) = Some user
      /\ json_body req = Js.Ok b /\ items b = Some its
      /\ Orders.POST E now req db
         = create_order E now (authorization req) (Some (user_id_of user))
             (Js.or_null (payment_screenshot b)) b its db.
Proof.
  unfold Orders.POST.
  destruct (getUserFromToken E (authorization req)) as [ user | ];
    [ | left; eexists; split; [ reflexivity | discriminate ] ].
  destruct (json_body req) as [ b | ];
    [ | left; eexists; split; [ reflexivity | discriminate ] ].
  destruct (items b) as [ [ | i its ] | ] eqn:Hi;
    try (left; eexists; split; [ reflexivity | discriminate ]).
  destruct (no_total_or_email b);
    [ left; eexists; split; [ reflexivity | discriminate ] | ].
  right. exists user, b, (i :: its). auto.
Qed.

Lemma body_POST_cases E now req db :
  (exists r, OrdersByBody.POST E now req db = (r, db, [])
             /\ resp_status r <> 201)
  \/ exists b its,
      json_body req = Js.Ok b /\ items b = Some its
      /\ OrdersByBody.POST E now req db
         = create_order E now (authorization req) (Js.or_null (user_id b))
             None b its db.
Proof.
  unfold OrdersByBody.POST.
  destruct (json_body req) as [ b | ];
    [ | left; eexists; split; [ reflexivity | discriminate ] ].
  destruct (items b) as [ [ | i its ] | ] eqn:Hi;
    try (left; eexists; split; [ reflexivity | discriminate ]).
  destruct (no_total_or_email b);
    [ left; eexists; split; [ reflexivity | discriminate ] | ].
  right. exists b, (i :: its). auto.
Qed.

(** *** The order a 201 returns *)

Lemma fresh_with_order db ps' row rows :
  fresh db -> o_id row = next_order_id db ->
  Forall (fun i : OrderItem => oi_order_id i = next_order_id db) rows ->
  fresh (with_order db ps' row rows).
Proof.
  intros [Ho Hi] Hid Hrows. split; cbn [with_order orders order_items next_order_id].
  - apply Forall_app. split.
    + eapply Forall_impl; [ | exact Ho ]. intros o Hlt. cbv beta in *. lia.
    + repeat constructor. lia.
  - apply Forall_app. split.
    + eapply Forall_impl; [ | exact Hi ]. intros i Hlt. cbv beta in *. lia.
    + eapply Forall_impl; [ | exact Hrows ]. intros i ->. lia.
Qed.

(** A 201 of [create_order] on fresh ids: the order returned is the row
    just inserted. *)
Lemma create_order_201 E now auth buyer screenshot b its db o :
  fresh db ->
  fst (fst (create_order E now auth buyer screenshot b its db))
  = reply 201 (BOrder o) ->
  exists ps',
    snd (fst (create_order E now auth buyer screenshot b its db))
    = with_order db ps' (new_order E now buyer screenshot b (next_order_id db))
        (insert_items (next_order_id db) (next_item_id db) its)
    /\ o_id (wi_order o) = next_order_id db
    /\ o_user_id (wi_order o) = buyer
    /\ o_order_number (wi_order o) = cat ["GK"%string; num_to_string now].
Proof.
  intros Hfresh.
  destruct (create_order_outcome E now auth buyer screenshot b its db)
    as [ r n Hr _ | n | pre it post answer ps' _ _ _ _ | ps' Hall _ ];
    cbv zeta; cbn [fst snd]; try discriminate.
  - intros ->. discriminate.
  - intros Hf.
    destruct (StockFacts.refusal_status E it answer) as [ H | H ];
      rewrite Hf in H; discriminate.
  - intros Hf. exists ps'. split; [ reflexivity | ].
    unfold fetch_created in Hf. cbn [with_order orders] in Hf.
    rewrite filter_app in Hf.
    rewrite (CreatedOrderFacts.filter_none _ (orders db)) in Hf.
    + cbn [app filter new_order o_id] in Hf. rewrite Z.eqb_refl in Hf.
      match type of Hf with
      | context [parse_address E ?a] => destruct (parse_address E a)
      end; [ | discriminate ].
      injection Hf as <-. repeat split.
    + destruct Hfresh as [Ho _]. eapply Forall_impl; [ | exact Ho ].
      intros x Hlt. cbv beta in *. apply Z.eqb_neq. lia.
Qed.

(** Who owns an order with the id just handed out: the buyer of the new
    row, and nobody else. *)
Lemma owner_of_new_row buyer db (row : Order) uid :
  fresh db -> o_id row = next_order_id db -> o_user_id row = buyer ->
  Exists (fun o : Order => o_id o = next_order_id db)
    (filter (Orders.owner_is uid) (orders db ++ [row]))
  <-> buyer = Some uid.
Proof.
  intros [Hold _] Hid Hbuyer. rewrite Exists_exists. split.
  - intros (o' & Ho' & Hoid). apply filter_In in Ho' as [Ho' Hown].
    apply in_app_or in Ho' as [ Ho' | [ <- | [] ] ].
    + rewrite Forall_forall in Hold. specialize (Hold o' Ho').
      cbv beta in Hold. lia.
    + unfold Orders.owner_is in Hown. rewrite Hbuyer in Hown.
      destruct buyer as [ u | ]; [ | discriminate ].
      apply String.eqb_eq in Hown. now subst u.
  - intros ->. exists row. split; [ | exact Hid ].
    apply filter_In. split; [ apply in_or_app; right; now left | ].
    unfold Orders.owner_is. rewrite Hbuyer. apply String.eqb_refl.
Qed.

Lemma Exists_Permutation {A} (P : A -> Prop) l l' :
  Permutation l l' -> Exists P l <-> Exists P l'.
Proof.
  intros Hp. rewrite !Exists_exists.
  split; intros (x & Hx & HP); exists x; split; auto.
  - now apply (Permutation_in _ Hp).
  - now apply (Permutation_in _ (Permutation_sym Hp)).
Qed.

Lemma new_row_listed_only_for E buyer db ps' (row : Order) rows :
  fresh db -> o_id row = next_order_id db -> o_user_id row = buyer ->
  listed_only_for E buyer (next_order_id db) (with_order db ps' row rows).
Proof.
  intros Hfresh Hid Hbuyer reader user Hu.
  destruct (OrderListingFacts.GET_rows E reader (with_order db ps' row rows)
              user Hu) as (listed & Hget & Hperm & _).
  exists listed. split; [ exact Hget | ].
  cbn [with_order orders] in Hperm.
  rewrite (Exists_Permutation _ _ _ Hperm), Exists_map.
  now apply owner_of_new_row.
Qed.

Lemma new_row_shown_only_to E buyer db ps' (row : Order) rows :
  fresh db -> o_id row = next_order_id db -> o_user_id row = buyer ->
  shown_only_to E buyer (next_order_id db) (with_order db ps' row rows).
Proof.
  intros Hfresh Hid Hbuyer reader user listed Hu Hget.
  pose proof (OrderListingFacts.GET_listed E reader _ user listed Hu Hget)
    as Hshown.
  rewrite (OrderListingFacts.listed_ids _ _ _ _ _ Hshown).
  cbn [with_order orders].
  pose proof (SortFacts.Permutation_order_by_desc o_created_at
                (filter (Orders.owner_is (user_id_of user))
                   (orders db ++ [row]))) as Hperm.
  rewrite (Exists_Permutation _ _ _ Hperm).
  now apply owner_of_new_row.
Qed.

(** An order created on fresh ids shows in the listing of its buyer and
    of nobody else.  On the route that reads the token the buyer is the
    caller.  On the route that takes the buyer from the body it is the
    body's [user_id], with no look at the token: any client can place an
    order in the listing of the user it names, and an order whose
    [user_id] is absent or empty is stored with NULL and shows in no
    listing. *)
Theorem created_order_is_listed_for_its_buyer E now req db o :
  fresh db ->
  (fst (fst (Orders.POST E now req db)) = reply 201 (BOrder o) ->
   exists user,
     getUserFromToken E (authorization req) = Some user
     /\ o_id (wi_order o) = next_order_id db
     /\ o_user_id (wi_order o) = Some (user_id_of user)
     /\ shown_only_to E (Some (user_id_of user)) (next_order_id db)
          (snd (fst (Orders.POST E now req db))))
  /\ (fst (fst (OrdersByBody.POST E now req db)) = reply 201 (BOrder o) ->
      exists b,
        json_body req = Js.Ok b
        /\ o_id (wi_order o) = next_order_id db
        /\ o_user_id (wi_order o) = Js.or_null (user_id b)
        /\ listed_only_for E (Js.or_null (user_id b)) (next_order_id db)
             (snd (fst (OrdersByBody.POST E now req db)))).
Proof.
  intros Hfresh. split.
  - destruct (token_POST_cases E now req db)
      as [ (r & -> & Hr) | (user & b & its & Hu & _ & _ & ->) ].
    + cbn [fst]. intros ->. now destruct Hr.
    + intros H201.
      destruct (create_order_201 _ _ _ _ _ _ _ _ _ Hfresh H201)
        as (ps' & -> & Hid & Hown & _).
      exists user. repeat (split; [ assumption | ]).
      now apply new_row_shown_only_to.
  - destruct (body_POST_cases E now req db)
      as [ (r & -> & Hr) | (b & its & Hb & _ & ->) ].
    + cbn [fst]. intros ->. now destruct Hr.
    + intros H201.
      destruct (create_order_201 _ _ _ _ _ _ _ _ _ Hfresh H201)
        as (ps' & -> & Hid & Hown & _).
      exists b. repeat (split; [ assumption | ]).
      now apply new_row_listed_only_for.
Qed.

Lemma created_order_is_listed_for_its_buyer_witness :
  let req := Shop.request None None
               (Backroom.for_buyer (Some "u2"%string) [Shop.item 1 2]) in
  getUserFromToken Shop.externals (authorization req) = None
  /\ listed_only_for Shop.externals (Some "u2"%string) 1
       (snd (fst (OrdersByBody.POST Shop.externals 1700000000000 req Shop.db0))).
Proof.
  split; [ reflexivity | ].
  assert (Hfresh : fresh Shop.db0) by (split; constructor).
  let body :=
    eval vm_compute in
      (resp_body
         (fst (fst (OrdersByBody.POST Shop.externals 1700000000000
                      (Shop.request None None
                         (Backroom.for_buyer (Some "u2"%string) [Shop.item 1 2]))
                      Shop.db0)))) in
  match body with
  | BOrder ?o =>
      destruct (proj2 (created_order_is_listed_for_its_buyer Shop.externals
                         1700000000000
                         (Shop.request None None
                            (Backroom.for_buyer (Some "u2"%string)
                               [Shop.item 1 2]))
                         Shop.db0 o Hfresh))
        as (b & Hb & _ & _ & Hl)
  end.
  - vm_compute. reflexivity.
  - injection Hb as <-. exact Hl.
Defined.

(** *** Order numbers *)

Lemma print_Z_inj z1 z2 : JSON.print_Z z1 = JSON.print_Z z2 -> z1 = z2.
Proof.
  intros H.
  pose proof (JSONFacts.parse_number_print z1 [] eq_refl) as H1.
  pose proof (JSONFacts.parse_number_print z2 [] eq_refl) as H2.
  rewrite H, H2 in H1. now injection H1.
Qed.

Lemma order_number_inj now1 now2 :
  cat ["GK"%string; num_to_string now1] = cat ["GK"%string; num_to_string now2]
  <-> now1 = now2.
Proof.
  split; [ | now intros -> ].
  unfold cat, num_to_string. cbn [String.concat String.append].
  intros [= H]. apply print_Z_inj.
  apply (f_equal list_ascii_of_string) in H.
  now rewrite !list_ascii_of_string_of_list_ascii in H.
Qed.

(** The order number is "GK" followed by the clock reading in decimal,
    and nothing else.  Of two orders created one after the other on the
    route that reads the token, the second gets the next id; their order
    numbers are the same exactly when the clock read the same at both
    (two orders in one millisecond share their number). *)
Theorem order_numbers_follow_the_clock E now1 now2 req1 req2 db o1 o2 :
  fresh db ->
  fst (fst (Orders.POST E now1 req1 db)) = reply 201 (BOrder o1) ->
  fst (fst (Orders.POST E now2 req2 (snd (fst (Orders.POST E now1 req1 db)))))
  = reply 201 (BOrder o2) ->
  o_order_number (wi_order o1) = cat ["GK"%string; num_to_string now1]
  /\ o_id (wi_order o2) = o_id (wi_order o1) + 1
  /\ (o_order_number (wi_order o1) = o_order_number (wi_order o2)
      <-> now1 = now2).
Proof.
  intros Hfresh.
  destruct (token_POST_cases E now1 req1 db)
    as [ (r & -> & Hr) | (user & b & its & _ & _ & _ & ->) ];
    [ cbn [fst]; intros ->; now destruct Hr | ].
  intros H1.
  destruct (create_order_201 _ _ _ _ _ _ _ _ _ Hfresh H1)
    as (ps' & -> & Hid1 & _ & Hn1).
  assert (Hfresh' : fresh (with_order db ps'
                             (new_order E now1 (Some (user_id_of user))
                                (Js.or_null (payment_screenshot b)) b
                                (next_order_id db))
                             (insert_items (next_order_id db) (next_item_id db)
                                its))).
  { apply fresh_with_order; [ exact Hfresh | reflexivity | ].
    apply CreatedOrderFacts.insert_items_order_id. }
  match goal with
  | |- fst (fst (Orders.POST E now2 req2 ?d)) = _ -> _ =>
      destruct (token_POST_cases E now2 req2 d)
        as [ (r & -> & Hr) | (user2 & b2 & its2 & _ & _ & _ & ->) ];
        [ cbn [fst]; intros ->; now destruct Hr | ]
  end.
  intros H2.
  destruct (create_order_201 _ _ _ _ _ _ _ _ _ Hfresh' H2)
    as (_ & _ & Hid2 & _ & Hn2).
  split; [ exact Hn1 | ]. split.
  - rewrite Hid1, Hid2. reflexivity.
  - rewrite Hn1, Hn2. apply order_number_inj.
Qed.

Lemma order_numbers_follow_the_clock_witness :
  exists o1 o2,
    fst (fst (Orders.POST Shop.externals 1700000000000 Shop.example_request
                Shop.db0))
    = reply 201 (BOrder o1)
    /\ fst (fst (Orders.POST Shop.externals 1700000000000 Shop.example_request
                   ShopLater.db1))
       = reply 201 (BOrder o2)
    /\ o_order_number (wi_order o1) = "GK1700000000000"%string
    /\ o_id (wi_order o2) = o_id (wi_order o1) + 1
    /\ o_order_number (wi_order o1) = o_order_number (wi_order o2).
Proof.
  assert (Hfresh : fresh Shop.db0) by (split; constructor).
  let body1 :=
    eval vm_compute in
      (resp_body (fst (fst (Orders.POST Shop.externals 1700000000000
                              Shop.example_request Shop.db0)))) in
  let body2 :=
    eval vm_compute in
      (resp_body (fst (fst (Orders.POST Shop.externals 1700000000000
                              Shop.example_request ShopLater.db1)))) in
  match body1 with
  | BOrder ?o1 =>
      match body2 with
      | BOrder ?o2 =>
          exists o1, o2;
          assert (H1 : fst (fst (Orders.POST Shop.externals 1700000000000
                                   Shop.example_request Shop.db0))
                       = reply 201 (BOrder o1)) by (vm_compute; reflexivity);
          assert (H2 : fst (fst (Orders.POST Shop.externals 1700000000000
                                   Shop.example_request
                                   (snd (fst (Orders.POST Shop.externals
                                                1700000000000
                                                Shop.example_request Shop.db0)))))
                       = reply 201 (BOrder o2)) by (vm_compute; reflexivity);
          destruct (order_numbers_follow_the_clock Shop.externals
                      1700000000000 1700000000000
                      Shop.example_request Shop.example_request
                      Shop.db0 o1 o2 Hfresh H1 H2) as (Hn & Hid & Hsame)
      end
  end.
  split; [ exact H1 | ]. split; [ vm_compute; reflexivity | ].
  split; [ exact Hn | ]. split; [ exact Hid | ].
  apply Hsame. reflexivity.
Defined.

(** *** What a created order did, in order *)





End OrderTableFacts.

(* ================================================================== *)
(** ** The answer to a status update *)

Module StatusAnswerFacts.
Import OrderData.

Lemma mine_after_set_status E id uid st tr now rows :
  filter (id_and_owner E id uid)
    (update_where (id_and_owner E id uid) (set_status st tr now) rows)
  = map (set_status st tr now) (filter (id_and_owner E id uid) rows).
Proof.
  unfold update_where.
  induction rows as [ | o rows IH ]; [ reflexivity | ]. cbn [map filter].
  destruct (id_and_owner E id uid o) eqn:Ho.
  - change (id_and_owner E id uid (set_status st tr now o))
      with (id_and_owner E id uid o).
    rewrite Ho. cbn [map]. now rewrite IH.
  - now rewrite Ho, IH.
Qed.

(** PUT /orders?id= by the owner of the order, with a [status], writes
    the update and answers with the first row it matched, as updated: the
    new status, the [tracking_number] of the body or NULL when the body
    has none (the stored one is then erased), [updated_at] at the clock,
    the address as the engine's JSON.parse reads the stored text ([null]
    for NULL and for the empty text), and [items] always the empty array
    ([orders] has no [items] column to parse).  When JSON.parse throws on
    the stored address of that row the answer is the 500 "Internal server
    error", and the update stays written.  Either way a GET by the caller
    right after lists the row as updated, on either route. *)
Theorem status_update_answer E now req db user id b st o rest :
  getUserFromToken E (authorization req) = Some user ->
  query_id req = Some id -> id <> EmptyString ->
  json_body req = Js.Ok b -> status b = Some st -> st <> EmptyString ->
  filter (id_and_owner E id (user_id_of user)) (orders db) = o :: rest ->
  let updated := set_status st (Js.or_null (tracking_number b)) now o in
  let '(resp, db') := OrderData.PUT E now req db in
  In updated (orders db')
  /\ (forall t v,
         o_shipping_address o = Some t -> t <> EmptyString ->
         json_parse E t = Some v ->
         resp = reply 200 (BOrder
                  {| wi_order := convert_order (render_decimal E)
                                   (fun _ => Some v) updated;
                     wi_items := [] |}))
  /\ (o_shipping_address o = None \/ o_shipping_address o = Some EmptyString ->
      resp = reply 200 (BOrder
               {| wi_order := convert_order (render_decimal E)
                                (fun _ => None) updated;
                  wi_items := [] |}))
  /\ (forall t,
         o_shipping_address o = Some t -> t <> EmptyString ->
         json_parse E t = None ->
         resp = reply 500 (BError "Internal server error"))
  /\ (exists rows,
         OrdersByBody.GET E req db' = (reply 200 (BRows rows), db')
         /\ In (select_order E updated) rows)
  /\ forall listed,
      Orders.GET E req db' = (reply 200 (BListed listed), db') ->
      exists lo,
        In lo listed /\ OrderBook.shown_as E db' updated lo
        /\ lo_status lo = st.
Proof.
  intros Hu Hq Hid Hb Hst Hne Hf updated. unfold OrderData.PUT.
  rewrite Hu, Hq, Hb, Hst, (StatusUpdateFacts.truthy_str_some id Hid),
    (StatusUpdateFacts.truthy_str_some st Hne).
  cbn [negb]. unfold count_rows. rewrite Hf. cbn [List.length].
  destruct (Z.of_nat (S (List.length rest)) =? 0) eqn:Hc;
    [ apply Z.eqb_eq in Hc; lia | ].
  cbn [with_orders orders]. rewrite mine_after_set_status, Hf. cbn [map].
  fold updated.
  change (o_shipping_address updated) with (o_shipping_address o).
  assert (Hin : In updated
                  (update_where (id_and_owner E id (user_id_of user))
                     (set_status st (Js.or_null (tracking_number b)) now)
                     (orders db))).
  { unfold update_where. apply in_map_iff. exists o.
    assert (Ho : In o (filter (id_and_owner E id (user_id_of user)) (orders db)))
      by (rewrite Hf; now left).
    apply filter_In in Ho as [Ho Hm]. now rewrite Hm. }
  assert (Hget : forall db',
             orders db'
             = update_where (id_and_owner E id (user_id_of user))
                 (set_status st (Js.or_null (tracking_number b)) now)
                 (orders db) ->
             exists rows,
               OrdersByBody.GET E req db' = (reply 200 (BRows rows), db')
               /\ In (select_order E updated) rows).
  { intros db' Hdb'.
    destruct (OrderListingFacts.GET_rows E req db' user Hu)
      as (rows & Hg & Hperm & _).
    exists rows. split; [ exact Hg | ].
    apply (Permutation_in _ (Permutation_sym Hperm)).
    apply in_map, filter_In. rewrite Hdb'. split; [ exact Hin | ].
    assert (Ho : In o (filter (id_and_owner E id (user_id_of user)) (orders db)))
      by (rewrite Hf; now left).
    apply filter_In in Ho as [_ Hm]. unfold id_and_owner in Hm.
    apply andb_prop in Hm as [_ Hm]. exact Hm. }
  assert (Hshown : forall db',
             orders db'
             = update_where (id_and_owner E id (user_id_of user))
                 (set_status st (Js.or_null (tracking_number b)) now)
                 (orders db) ->
             forall listed,
               Orders.GET E req db' = (reply 200 (BListed listed), db') ->
               exists lo,
                 In lo listed /\ OrderBook.shown_as E db' updated lo
                 /\ lo_status lo = st).
  { intros db' Hdb' listed Hg.
    pose proof (OrderListingFacts.GET_listed E req db' user listed Hu Hg)
      as Hall.
    assert (Hmine : In updated
                      (order_by_desc o_created_at
                         (filter (Orders.owner_is (user_id_of user))
                            (orders db')))).
    { apply ListingFacts.In_order_by_desc, filter_In. rewrite Hdb'.
      split; [ exact Hin | ].
      assert (Ho : In o (filter (id_and_owner E id (user_id_of user))
                           (orders db)))
        by (rewrite Hf; now left).
      apply filter_In in Ho as [_ Hm]. unfold id_and_owner in Hm.
      apply andb_prop in Hm as [_ Hm]. exact Hm. }
    clear - Hall Hmine.
    induction Hall as [ | o' lo os ls Hs _ IH ]; [ destruct Hmine | ].
    destruct Hmine as [ -> | Hmine ].
    - exists lo. split; [ now left | ]. split; [ exact Hs | ].
      destruct Hs as (_ & _ & Hst & _). exact Hst.
    - destruct (IH Hmine) as (lo' & Hlo' & Hrest).
      exists lo'. split; [ now right | exact Hrest ]. }
  destruct (parse_address E (o_shipping_address o)) as [ parsed | ] eqn:Hp;
    (split; [ exact Hin | ]);
    (split; [ intros t v Ht Hne' Hv; rewrite Ht in Hp;
              rewrite (OrderListingFacts.parse_address_text E t v Hne' Hv) in Hp;
              first [ now injection Hp as <- | discriminate Hp ] | ]);
    (split; [ intros [ Ht | Ht ]; rewrite Ht in Hp;
              first [ now injection Hp as <- | discriminate Hp ] | ]);
    (split; [ intros t Ht Hne' Hv;
              rewrite (OrderListingFacts.unreadable_throws E _
                         (ex_intro _ t (conj Ht (conj Hne' Hv)))) in Hp;
              first [ discriminate Hp | reflexivity ] | ]);
    (split; [ now apply Hget | now apply Hshown ]).
Qed.

Lemma status_update_answer_witness :
  let req := Shop.request Shop.as_alice (Some "1"%string)
               (ShopLater.status_body "shipped") in
  let '(resp, db') := OrderData.PUT Shop.externals 1700000000001 req ShopLater.db1 in
  map o_status (orders db') = ["shipped"%string]
  /\ map o_tracking_number (orders db') = [Some "TRK-1"%string]
  /\ exists o,
      resp = reply 200 (BOrder o)
      /\ o_status (wi_order o) = "shipped"%string
      /\ o_shipping_address (wi_order o) = Some Shop.home
      /\ wi_items o = [].
Proof.
  intros req.
  let row := eval vm_compute in (hd_error (orders ShopLater.db1)) in
  match row with
  | Some ?o =>
      pose proof (status_update_answer Shop.externals 1700000000001 req
                    ShopLater.db1
                    {| user_id_of := "u1"; user_email := "a@b.com" |}
                    "1" (ShopLater.status_body "shipped") "shipped" o []
                    eq_refl eq_refl ltac:(discriminate) eq_refl eq_refl
                    ltac:(discriminate) eq_refl) as H
  end.
  cbv zeta in H.
  destruct (OrderData.PUT _ _ _ _) as [resp db'] eqn:Hput.
  destruct H as (_ & Hr & _).
  rewrite (Hr (JSON.stringify Shop.home) Shop.home eq_refl
              ltac:(discriminate) eq_refl).
  vm_compute in Hput. injection Hput as _ <-.
  split; [ reflexivity | ]. split; [ reflexivity | ].
  eexists. split; [ vm_compute; reflexivity | ]. repeat split.
Defined.

End StatusAnswerFacts.

(* ================================================================== *)
(** ** The token check, both ways *)

Module TokenFacts.

(** [getUserFromToken] gives a user exactly when the Authorization header
    is there, starts with "Bearer " (in that spelling), and what follows
    the seventh character verifies; the user is then the [userId] and
    [email] of the verified payload.  In every other case it gives null;
    it never throws. *)
Theorem token_accepted_exactly_when E auth user :
  getUserFromToken E auth = Some user
  <-> exists h claims,
        auth = Some h
        /\ String.prefix "Bearer " h = true
        /\ jwt_verify E (String.substring 7 (String.length h - 7) h)
           = Js.Ok claims
        /\ user = {| user_id_of := userId claims;
                     user_email := claim_email claims |}.
Proof.
  split; [ apply AuthFacts.getUserFromToken_accepts | ].
  intros (h & claims & -> & Hp & Hv & ->). unfold getUserFromToken.
  rewrite Hp. destruct h as [ | c h ]; [ discriminate Hp | ].
  cbn [Js.truthy_str String.eqb negb orb]. now rewrite Hv.
Qed.

End TokenFacts.

(* ================================================================== *)
(** ** What an order request must carry *)

Module OrderRequestFacts.
Import OrderData.

(** The checks the order handlers make before they look anything up.
    Creating: a body that is no JSON is a 500; [items] absent or empty is
    the 400 "Order items are required", whatever the total; on the route
    that reads the token both come after the token check.  Updating a
    status: the [id] query parameter is checked before the body is read, so
    without it the answer is the 400 "Order ID is required" even when the
    body is no JSON; with it, a body that is no JSON is a 500 and a
    [status] absent or empty the 400 "Status is required".  In each case
    nothing is written. *)
Theorem order_requests_are_validated E now req db :
  (json_body req = Js.Throw ->
   OrdersByBody.POST E now req db
   = (reply 500 (BError "Internal server error"), db, [])
   /\ forall user,
       getUserFromToken E (authorization req) = Some user ->
       Orders.POST E now req db
       = (reply 500 (BError "Internal server error"), db, []))
  /\ (forall b,
         json_body req = Js.Ok b ->
         items b = None \/ items b = Some [] ->
         OrdersByBody.POST E now req db
         = (reply 400 (BError "Order items are required"), db, [])
         /\ forall user,
             getUserFromToken E (authorization req) = Some user ->
             Orders.POST E now req db
             = (reply 400 (BError "Order items are required"), db, []))
  /\ (forall user,
         getUserFromToken E (authorization req) = Some user ->
         (query_id req = None \/ query_id req = Some EmptyString ->
          OrderData.PUT E now req db
          = (reply 400 (BError "Order ID is required"), db))
         /\ forall id,
             query_id req = Some id -> id <> EmptyString ->
             (json_body req = Js.Throw ->
              OrderData.PUT E now req db
              = (reply 500 (BError "Internal server error"), db))
             /\ forall b,
                 json_body req = Js.Ok b ->
                 status b = None \/ status b = Some EmptyString ->
                 OrderData.PUT E now req db
                 = (reply 400 (BError "Status is required"), db)).
Proof.
  split; [ | split ].
  - intros Hb. split; [ | intros user Hu ];
      unfold OrdersByBody.POST, Orders.POST; try rewrite Hu; now rewrite Hb.
  - intros b Hb Hi. split; [ | intros user Hu ];
      unfold OrdersByBody.POST, Orders.POST; try rewrite Hu; rewrite Hb;
      now destruct Hi as [ -> | -> ].
  - intros user Hu. unfold OrderData.PUT. rewrite Hu. split.
    + now intros [ -> | -> ].
    + intros id Hq Hid. rewrite Hq, (StatusUpdateFacts.truthy_str_some id Hid).
      cbn [negb]. split.
      * now intros ->.
      * intros b ->. now intros [ -> | -> ].
Qed.

End OrderRequestFacts.

(* ================================================================== *)
(** ** Writing twice *)

Module RepeatFacts.

(** *** Addresses *)

Section AddressWrites.
Import Addresses AddressBook AddressRowFacts.

Lemma updated_row_again uid aid b a :
  updated_row uid aid b (updated_row uid aid b a) = updated_row uid aid b a.
Proof.
  unfold updated_row, owned_by.
  destruct (a_id a =? aid) eqn:Hid;
    destruct (String.eqb (a_user_id a) uid) eqn:Ho;
    destruct (default_flag b) eqn:Hd;
    repeat (progress
              (cbn [andb negb set_default a_id a_user_id a_is_default
                    a_created_at bound_row];
               rewrite ?Hid, ?Ho));
    reflexivity.
Qed.

(** An Update that finds its row: the answer and the table. *)
Lemma PUT_success E req db user b aid a rest :
  getUserFromToken E (authorization req) = Some user ->
  json_body req = Js.Ok b -> id b = Some aid -> aid <> 0 ->
  missing_required b = false ->
  filter (to_update aid (user_id_of user)) (addresses db) = a :: rest ->
  PUT E req db
  = (reply 200
       (BAddress (Some (bound_row aid (user_id_of user) (a_created_at a) b))),
     {| addresses := map (updated_row (user_id_of user) aid b) (addresses db);
        next_address_id := next_address_id db |}).
Proof.
  intros Hu Hb Hid Hz Hm Hf. unfold PUT, to_update in *.
  rewrite Hu, Hb, Hid, Hm. cbn [Js.truthy_num].
  apply Z.eqb_neq in Hz. rewrite Hz. cbn [negb]. rewrite Hf.
  unfold count_rows.
  rewrite AddressBookFacts.mine_after_update,
    !AddressBookFacts.mine_after_clearing, Hf,
    AddressBookFacts.rows_after_update.
  cbn [List.length map hd_error].
  destruct (Z.of_nat (S (List.length rest)) =? 0) eqn:Hc;
    [ apply Z.eqb_eq in Hc; lia | ].
  assert (Hin : In a (filter (fun a => (a_id a =? aid)
                                       && owned_by (user_id_of user) a)
                        (addresses db))) by (rewrite Hf; now left).
  apply filter_In in Hin as [_ Hmine]. apply andb_prop in Hmine as [Hi Ho].
  apply Z.eqb_eq in Hi. apply String.eqb_eq in Ho. now rewrite Hi, Ho.
Qed.

(** An Update either writes nothing or finds its row. *)
Lemma PUT_cases E req db :
  snd (PUT E req db) = db
  \/ exists user b aid a rest,
      getUserFromToken E (authorization req) = Some user
      /\ json_body req = Js.Ok b /\ id b = Some aid /\ aid <> 0
      /\ missing_required b = false
      /\ filter (to_update aid (user_id_of user)) (addresses db) = a :: rest.
Proof.
  unfold PUT.
  destruct (getUserFromToken E (authorization req)) as [ user | ]; [ | now left ].
  destruct (json_body req) as [ b | ]; [ | now left ].
  destruct (id b) as [ aid | ] eqn:Hid; [ | now left ].
  cbn [Js.truthy_num]. destruct (aid =? 0) eqn:Hz; [ now left | ]. cbn [negb].
  destruct (missing_required b) eqn:Hm; [ now left | ].
  destruct (filter _ (addresses db)) as [ | a rest ] eqn:Hf; [ now left | ].
  right. exists user, b, aid, a, rest. apply Z.eqb_neq in Hz. auto 10.
Qed.

(** Sending an address Update or Delete a second time.  A repeated
    Update is answered as the first was and leaves the table as the first
    left it.  A repeated Delete leaves the table as the first left it, and
    when the first was answered 200 the second is answered 404 "Address not
    found or unauthorized". *)
Theorem repeated_address_writes E req db :
  PUT E req (snd (PUT E req db)) = PUT E req db
  /\ snd (DELETE E req (snd (DELETE E req db))) = snd (DELETE E req db)
  /\ (resp_status (fst (DELETE E req db)) = 200 ->
      fst (DELETE E req (snd (DELETE E req db)))
      = reply 404 (BError "Address not found or unauthorized")).
Proof.
  split.
  - destruct (PUT_cases E req db)
      as [ -> | (user & b & aid & a & rest & Hu & Hb & Hid & Hz & Hm & Hf) ];
      [ reflexivity | ].
    rewrite (PUT_success E req db user b aid a rest Hu Hb Hid Hz Hm Hf).
    cbn [snd].
    rewrite (PUT_success E req _ user b aid
               (bound_row (a_id a) (a_user_id a) (a_created_at a) b)
               (map (fun a => bound_row (a_id a) (a_user_id a) (a_created_at a) b)
                    rest)
               Hu Hb Hid Hz Hm).
    + cbn [addresses next_address_id bound_row a_created_at].
      rewrite map_map.
      rewrite (map_ext _ _ (updated_row_again (user_id_of user) aid b)).
      reflexivity.
    + cbn [addresses]. unfold to_update in *.
      rewrite <- AddressBookFacts.rows_after_update,
        AddressBookFacts.mine_after_update,
        AddressBookFacts.mine_after_clearing, Hf.
      reflexivity.
  - destruct (DELETE_rows E req db)
      as [ Hsame | (user & i & Hu & Hq & Hne & Hdb) ].
    + rewrite Hsame. split; [ exact Hsame | ].
      intros H200. exfalso. revert Hsame H200. unfold DELETE.
      destruct (getUserFromToken E (authorization req)); [ | discriminate ].
      destruct (query_id req) as [ q | ]; [ | discriminate ].
      destruct (negb (Js.truthy_str (Some q))); [ discriminate | ].
      destruct (count_rows _ _ =? 0) eqn:Hc; [ discriminate | ].
      cbn [fst snd]. intros Hsame _. apply Z.eqb_neq in Hc. apply Hc.
      apply StatusUpdateFacts.count_rows_zero.
      apply (f_equal addresses) in Hsame. cbn [addresses] in Hsame.
      apply Forall_forall. intros a Ha. rewrite <- Hsame in Ha.
      apply filter_In in Ha as [_ Ha]. now apply negb_true_iff in Ha.
    + rewrite Hdb. unfold DELETE.
      rewrite Hu, Hq, (StatusUpdateFacts.truthy_str_some i Hne).
      cbn [negb addresses next_address_id].
      fold (to_delete E i (user_id_of user)).
      change (fun a => sql_id_eq E i (a_id a) && owned_by (user_id_of user) a)
        with (to_delete E i (user_id_of user)).
      set (mine := to_delete E i (user_id_of user)).
      assert (Hnone : Forall (fun a => mine a = false)
                        (filter (fun a => negb (mine a)) (addresses db))).
      { apply Forall_forall. intros a Ha.
        apply filter_In in Ha as [_ Ha]. now apply negb_true_iff in Ha. }
      rewrite (proj2 (StatusUpdateFacts.count_rows_zero mine _) Hnone).
      cbn [Z.eqb fst snd].
      rewrite (CreatedOrderFacts.filter_all (fun a => negb (mine a)));
        [ split; reflexivity | ].
      eapply Forall_impl; [ | exact Hnone ]. intros a ->. reflexivity.
Qed.

End AddressWrites.

(** *** Order status *)

Section StatusWrites.
Import OrderData.

Lemma count_after_set_status E id uid st tr now rows :
  count_rows (id_and_owner E id uid)
    (update_where (id_and_owner E id uid) (set_status st tr now) rows)
  = count_rows (id_and_owner E id uid) rows.
Proof.
  unfold count_rows.
  now rewrite StatusAnswerFacts.mine_after_set_status, length_map.
Qed.

Lemma set_status_twice E id uid st tr now now' rows :
  update_where (id_and_owner E id uid) (set_status st tr now')
    (update_where (id_and_owner E id uid) (set_status st tr now) rows)
  = update_where (id_and_owner E id uid) (set_status st tr now') rows.
Proof.
  unfold update_where. rewrite map_map. apply map_ext. intros o.
  destruct (id_and_owner E id uid o) eqn:Ho.
  - change (id_and_owner E id uid (set_status st tr now o))
      with (id_and_owner E id uid o).
    now rewrite Ho.
  - now rewrite Ho.
Qed.

(** What a status update leaves in the database, whatever it answers. *)
Lemma PUT_db E now req db :
  snd (OrderData.PUT E now req db) = db
  \/ exists user id b st,
      getUserFromToken E (authorization req) = Some user
      /\ query_id req = Some id /\ id <> EmptyString
      /\ json_body req = Js.Ok b
      /\ status b = Some st /\ st <> EmptyString
      /\ snd (OrderData.PUT E now req db)
         = with_orders db
             (update_where (id_and_owner E id (user_id_of user))
                (set_status st (Js.or_null (tracking_number b)) now)
                (orders db)).
Proof.
  unfold OrderData.PUT.
  destruct (getUserFromToken E (authorization req)) as [ user | ]; [ | now left ].
  destruct (query_id req) as [ [ | c i ] | ]; [ now left | | now left ].
  destruct (json_body req) as [ b | ]; [ | now left ].
  destruct (status b) as [ [ | c' s ] | ] eqn:Hst; [ now left | | now left ].
  right. exists user, (String c i), b, (String c' s).
  repeat (split; [ easy | ]).
  cbn [Js.truthy_str String.eqb negb].
  destruct (count_rows _ _ =? 0); [ reflexivity | ].
  destruct (filter _ _); [ reflexivity | ].
  destruct (parse_address _); reflexivity.
Qed.

(** A status update sent again, at a later clock reading, is answered as
    if the first had not been sent and leaves the database as the second
    alone would: the later update overwrites the earlier one and nothing
    of the earlier one stays. *)
Theorem repeated_status_update E now now' req db :
  OrderData.PUT E now' req (snd (OrderData.PUT E now req db))
  = OrderData.PUT E now' req db.
Proof.
  destruct (PUT_db E now req db)
    as [ -> | (user & id & b & st & Hu & Hq & Hid & Hb & Hst & Hne & ->) ];
    [ reflexivity | ].
  unfold OrderData.PUT.
  rewrite Hu, Hq, Hb, Hst, (StatusUpdateFacts.truthy_str_some id Hid),
    (StatusUpdateFacts.truthy_str_some st Hne).
  cbn [negb with_orders orders products order_items next_order_id next_item_id].
  now rewrite count_after_set_status, set_status_twice.
Qed.

End StatusWrites.

End RepeatFacts.
